(** * cares_wrap: the bridge between the c-ares resolver and the host loop

    A shallow embedding of [src/cares_wrap.cc]: the socket-task registry and
    idle timer of a [ChannelWrap], fallback-server detection, the
    self-invalidating callback token of a [QueryWrap], the deferred delivery
    of a response, [Query], [SetServers] and [QueryAnyWrap::Parse]; the
    callback of a socket watcher, the classes that query one record type,
    [SetLocalAddress] and the callback of getaddrinfo.

    Conventions of the embedding:
    - a C [int] is a [Z]; the code never relies on wrap-around of the values
      modelled here;
    - a [CHECK(...)] that fails aborts the process: [CheckFailed];
    - a read or write through a pointer to a freed object is [Undefined];
    - constants of headers that are not part of the repository ([ares.h],
      [uv.h], [arpa/nameser.h], the socket headers) are the fields of the
      classes [AresH], [SysH], [RecordTypesH] and [LookupH]; the functions
      of c-ares and libuv that the code calls are the fields of [Engine],
      [Decoder], [SoaDecoder], [Uv] and [Loop];
    - what the code does to the outside world (calls into the engine, calls
      of the JavaScript completion hook, deletions) is recorded, in program
      order, in a trace of [event]s. *)

From Stdlib Require Import ZArith Lia.
From stdpp Require Import base option list gmap strings.

Local Open Scope Z_scope.

(** ** Outcome of a call *)

Inductive outcome (A : Type) : Type :=
| Done (a : A)
| CheckFailed (msg : string)
| Undefined (what : string).

Arguments Done {A} a.
Arguments CheckFailed {A} msg.
Arguments Undefined {A} what.

#[global] Instance outcome_ret : MRet outcome := fun A a => Done a.

#[global] Instance outcome_bind : MBind outcome := fun A B f m =>
  match m with
  | Done a => f a
  | CheckFailed msg => CheckFailed msg
  | Undefined what => Undefined what
  end.

Definition CHECK (cond : bool) (msg : string) : outcome unit :=
  if cond then Done tt else CheckFailed msg.

(** ** Constants of the external headers *)

(** [ares.h]: the status codes that [ToErrorCodeString] names, and
    [ARES_SUCCESS]. *)
Class AresH := {
  ARES_SUCCESS : Z;
  ARES_EADDRGETNETWORKPARAMS : Z;
  ARES_EBADFAMILY : Z;
  ARES_EBADFLAGS : Z;
  ARES_EBADHINTS : Z;
  ARES_EBADNAME : Z;
  ARES_EBADQUERY : Z;
  ARES_EBADRESP : Z;
  ARES_EBADSTR : Z;
  ARES_ECANCELLED : Z;
  ARES_ECONNREFUSED : Z;
  ARES_EDESTRUCTION : Z;
  ARES_EFILE : Z;
  ARES_EFORMERR : Z;
  ARES_ELOADIPHLPAPI : Z;
  ARES_ENODATA : Z;
  ARES_ENOMEM : Z;
  ARES_ENONAME : Z;
  ARES_ENOTFOUND : Z;
  ARES_ENOTIMP : Z;
  ARES_ENOTINITIALIZED : Z;
  ARES_EOF : Z;
  ARES_EREFUSED : Z;
  ARES_ESERVFAIL : Z;
  ARES_ETIMEOUT : Z;
}.

(** [uv.h], [arpa/nameser.h] and the socket headers. *)
Class SysH := {
  AF_INET : Z;
  AF_INET6 : Z;
  UV_READABLE : Z;
  UV_WRITABLE : Z;
  UV_EINVAL : Z;
  ns_t_a : Z;
  ns_t_ns : Z;
  ns_t_cname : Z;
  ns_t_soa : Z;
  ns_t_ptr : Z;
  ns_t_aaaa : Z;
  ns_t_any : Z;
  NS_HFIXEDSZ : Z;
  NS_QFIXEDSZ : Z;
  NS_RRFIXEDSZ : Z;
}.

(** [#define DNS_ESETSRVPENDING -1000] *)
Definition DNS_ESETSRVPENDING : Z := -1000.

(** [const int ns_t_cname_or_a = -1;] *)
Definition ns_t_cname_or_a : Z := -1.

(** [INADDR_LOOPBACK] is 127.0.0.1 in host byte order; [htonl x] is the four
    bytes of [x] as they lie in memory in network byte order. *)
Definition INADDR_LOOPBACK : Z := 0x7f000001.

Definition htonl (x : Z) : list Z :=
  [Z.land (Z.shiftr x 24) 255; Z.land (Z.shiftr x 16) 255;
   Z.land (Z.shiftr x 8) 255; Z.land x 255].

(** ** Data of the engine *)

(** [struct ares_addr_port_node], without its [next] link: a server list is a
    [list] of these.  [addr] holds the bytes of the address union (four for
    [addr4], sixteen for [addr6]) in network byte order. *)
Record ares_addr_port_node := {
  family : Z;
  addr : list Z;
  udp_port : Z;
  tcp_port : Z;
}.

(** The calls of c-ares on a channel.  [ares_channel] is the state behind an
    [ares_channel] handle.  What the engine does with a handle that is null
    or freed is not modelled: such a call is [Undefined]. *)
Class Engine := {
  ares_channel : Type;
  ares_get_servers_ports : ares_channel -> list ares_addr_port_node;
  ares_set_servers : ares_channel -> Z * ares_channel;
  ares_set_servers_ports :
    ares_channel -> list ares_addr_port_node -> Z * ares_channel;
}.

(** ** Sockets, timers and the environment *)

Record uv_timer_t := {
  timer_active : bool;
  timer_timeout : Z;
  timer_repeat : Z;
}.

#[global] Instance uv_timer_t_eq_dec : EqDecision uv_timer_t.
Proof. solve_decision. Defined.

Record uv_poll_t := {
  poll_events : Z;
}.

(** [struct node_ares_task]; the back pointer [channel] is left out, there is
    one channel. *)
Record node_ares_task := {
  sock : Z;
  poll_watcher : uv_poll_t;
}.

Inductive uv_handle :=
| PollHandle (t : node_ares_task)
| TimerHandle (t : uv_timer_t).

(** An [ares_channel] pointer: null, pointing to a live channel, or pointing
    to a channel that [ares_destroy] has freed. *)
Inductive channel_ptr `{Engine} :=
| Null
| Live (c : ares_channel)
| Destroyed.

Section ChannelWrap.
Context `{AresH, SysH, Engine}.

Record ChannelWrap := {
  timer_handle_ : option uv_timer_t;
  channel_ : channel_ptr;
  query_last_ok_ : bool;
  is_servers_default_ : bool;
  library_inited_ : bool;
  timeout_ : Z;
  active_query_count_ : Z;
  task_list_ : list node_ares_task;
}.

Definition set_timer_handle (v : option uv_timer_t) (c : ChannelWrap) :=
  {| timer_handle_ := v; channel_ := channel_ c;
     query_last_ok_ := query_last_ok_ c;
     is_servers_default_ := is_servers_default_ c;
     library_inited_ := library_inited_ c; timeout_ := timeout_ c;
     active_query_count_ := active_query_count_ c;
     task_list_ := task_list_ c |}.

Definition set_channel (v : channel_ptr) (c : ChannelWrap) :=
  {| timer_handle_ := timer_handle_ c; channel_ := v;
     query_last_ok_ := query_last_ok_ c;
     is_servers_default_ := is_servers_default_ c;
     library_inited_ := library_inited_ c; timeout_ := timeout_ c;
     active_query_count_ := active_query_count_ c;
     task_list_ := task_list_ c |}.

Definition set_query_last_ok (ok : bool) (c : ChannelWrap) :=
  {| timer_handle_ := timer_handle_ c; channel_ := channel_ c;
     query_last_ok_ := ok;
     is_servers_default_ := is_servers_default_ c;
     library_inited_ := library_inited_ c; timeout_ := timeout_ c;
     active_query_count_ := active_query_count_ c;
     task_list_ := task_list_ c |}.

Definition set_is_servers_default (is_default : bool) (c : ChannelWrap) :=
  {| timer_handle_ := timer_handle_ c; channel_ := channel_ c;
     query_last_ok_ := query_last_ok_ c;
     is_servers_default_ := is_default;
     library_inited_ := library_inited_ c; timeout_ := timeout_ c;
     active_query_count_ := active_query_count_ c;
     task_list_ := task_list_ c |}.

Definition set_library_inited (v : bool) (c : ChannelWrap) :=
  {| timer_handle_ := timer_handle_ c; channel_ := channel_ c;
     query_last_ok_ := query_last_ok_ c;
     is_servers_default_ := is_servers_default_ c;
     library_inited_ := v; timeout_ := timeout_ c;
     active_query_count_ := active_query_count_ c;
     task_list_ := task_list_ c |}.

Definition set_active_query_count (v : Z) (c : ChannelWrap) :=
  {| timer_handle_ := timer_handle_ c; channel_ := channel_ c;
     query_last_ok_ := query_last_ok_ c;
     is_servers_default_ := is_servers_default_ c;
     library_inited_ := library_inited_ c; timeout_ := timeout_ c;
     active_query_count_ := v;
     task_list_ := task_list_ c |}.

Definition set_task_list (v : list node_ares_task) (c : ChannelWrap) :=
  {| timer_handle_ := timer_handle_ c; channel_ := channel_ c;
     query_last_ok_ := query_last_ok_ c;
     is_servers_default_ := is_servers_default_ c;
     library_inited_ := library_inited_ c; timeout_ := timeout_ c;
     active_query_count_ := active_query_count_ c;
     task_list_ := v |}.

(** The members set by the constructor, before it calls [Setup]. *)
Definition ChannelWrap_new (timeout : Z) : ChannelWrap :=
  {| timer_handle_ := None; channel_ := Null;
     query_last_ok_ := true; is_servers_default_ := true;
     library_inited_ := false; timeout_ := timeout;
     active_query_count_ := 0; task_list_ := [] |}.

(** *** The idle timer *)

Definition uv_is_active (t : uv_timer_t) : bool := timer_active t.

Definition uv_timer_start (timeout repeat : Z) : uv_timer_t :=
  {| timer_active := true; timer_timeout := timeout; timer_repeat := repeat |}.

(** The period [StartTimer] computes from [timeout_]. *)
Definition timer_period (timeout_ : Z) : Z :=
  let timeout := timeout_ in
  let timeout := if timeout =? 0 then 1 else timeout in
  let timeout := if (timeout <? 0) || (timeout >? 1000) then 1000 else timeout in
  timeout.

(** [ChannelWrap::StartTimer] *)
Definition StartTimer (c : ChannelWrap) : ChannelWrap :=
  let arm :=
    let timeout := timer_period (timeout_ c) in
    set_timer_handle (Some (uv_timer_start timeout timeout)) c in
  match timer_handle_ c with
  | None => arm
  | Some t => if uv_is_active t then c else arm
  end.

(** [env()->CloseHandle(h, cb)]: the handle is closed by the loop later; until
    its close callback has run it is among the closing handles. *)
Definition CloseHandle (h : uv_handle) (closing : list uv_handle) :=
  closing ++ [h].

(** [ChannelWrap::CloseTimer] *)
Definition CloseTimer (st : ChannelWrap * list uv_handle)
  : ChannelWrap * list uv_handle :=
  let '(c, closing) := st in
  match timer_handle_ c with
  | None => st
  | Some t => (set_timer_handle None c, CloseHandle (TimerHandle t) closing)
  end.

(** [ChannelWrap::ModifyActivityQueryCount]; the counter is an [int], which
    the number of queries in flight, each with objects on the heap, does not
    overflow. *)
Definition ModifyActivityQueryCount (count : Z) (c : ChannelWrap)
  : outcome ChannelWrap :=
  let c := set_active_query_count (active_query_count_ c + count) c in
  CHECK (0 <=? active_query_count_ c) "active_query_count_ >= 0";;
  mret c.

(** *** The task registry: an [unordered_set] keyed by [sock] *)

Definition task_find (s : Z) (l : list node_ares_task) : option node_ares_task :=
  List.find (fun t => sock t =? s) l.

(** [unordered_set::insert]: no effect when an equal element is present. *)
Definition task_insert (t : node_ares_task) (l : list node_ares_task) :=
  match task_find (sock t) l with
  | Some _ => l
  | None => t :: l
  end.

(** [unordered_set::erase(it)] for the iterator that [find] returned. *)
Fixpoint task_erase (s : Z) (l : list node_ares_task) : list node_ares_task :=
  match l with
  | [] => []
  | t :: l' => if sock t =? s then l' else t :: task_erase s l'
  end.

(** [uv_poll_start(&task->poll_watcher, events, cb)] on the task in the set. *)
Definition task_poll_start (s events : Z) (l : list node_ares_task) :=
  map (fun t => if sock t =? s
                then {| sock := sock t; poll_watcher := {| poll_events := events |} |}
                else t) l.

(** [ares_task_create]; [init_r] is what [uv_poll_init_socket] returns. *)
Definition ares_task_create (init_r : Z) (s : Z) : option node_ares_task :=
  if init_r <? 0 then None
  else Some {| sock := s; poll_watcher := {| poll_events := 0 |} |}.

(** [ares_sockstate_cb]; [init_r] is what [uv_poll_init_socket] returns if it
    is called. *)
Definition ares_sockstate_cb (init_r : Z) (s read write : Z)
    (st : ChannelWrap * list uv_handle)
  : outcome (ChannelWrap * list uv_handle) :=
  let '(c, closing) := st in
  let task := task_find s (task_list_ c) in
  let events := Z.lor (if read =? 0 then 0 else UV_READABLE)
                      (if write =? 0 then 0 else UV_WRITABLE) in
  if negb (read =? 0) || negb (write =? 0) then
    match task with
    | None =>
        let c := StartTimer c in
        match ares_task_create init_r s with
        | None => Done (c, closing)
        | Some t =>
            let c := set_task_list (task_insert t (task_list_ c)) c in
            Done (set_task_list (task_poll_start s events (task_list_ c)) c,
                  closing)
        end
    | Some _ =>
        Done (set_task_list (task_poll_start s events (task_list_ c)) c,
              closing)
    end
  else
    match task with
    | None =>
        CheckFailed "When an ares socket is closed we should have a handle for it"
    | Some t =>
        let c := set_task_list (task_erase s (task_list_ c)) c in
        let closing := CloseHandle (PollHandle t) closing in
        if bool_decide (task_list_ c = []) then Done (CloseTimer (c, closing))
        else Done (c, closing)
    end.

(** [ares_poll_close_cb] and the lambda of [CloseTimer]: the loop has closed
    the first closing handle and its owner deletes it. *)
Definition run_close_cb (closing : list uv_handle) : list uv_handle :=
  tail closing.

(** [ChannelWrap::AresTimeout], the callback of the idle timer [handle]; the
    call of [ares_process_fd] that follows the checks is the engine's. *)
Definition AresTimeout (handle : uv_timer_t) (c : ChannelWrap)
  : outcome ChannelWrap :=
  CHECK (bool_decide (timer_handle_ c = Some handle))
        "channel->timer_handle() == handle";;
  CHECK (negb (bool_decide (task_list_ c = []))) "false == task_list()->empty()";;
  mret c.

(** A run of notifications of the engine, each with what
    [uv_poll_init_socket] returns if it is called, the socket and the two
    flags. *)
Fixpoint notifications (ns : list (Z * Z * Z * Z))
    (st : ChannelWrap * list uv_handle)
  : outcome (ChannelWrap * list uv_handle) :=
  match ns with
  | [] => Done st
  | (init_r, s, read, write) :: ns =>
      st ← ares_sockstate_cb init_r s read write st;
      notifications ns st
  end.

Definition timer_running (c : ChannelWrap) : bool :=
  match timer_handle_ c with
  | Some t => uv_is_active t
  | None => false
  end.

End ChannelWrap.

(** ** JavaScript values handed to the completion hook *)

(** [Integer::New], [OneByteString], a string of the environment
    ([env()->type_string()] is [EnvStr "type_string"]), [Array] and [Object]
    with its properties in insertion order. *)
#[warnings="-register-all"]
Inductive value :=
| Int (n : Z)
| Str (s : string)
| EnvStr (name : string)
| Arr (elems : list value)
| Obj (props : list (value * value)).

(** ** What the code does to the outside world *)

Inductive event :=
| ares_library_init_ev
| ares_library_cleanup_ev
| ares_init_options_ev (timeout : Z)
| ares_destroy_ev
| ThrowError_ev (msg : string)
| ares_query_ev (name : string) (type : Z) (token : nat)
| ares_gethostbyaddr_ev (address : list Z) (fam : Z) (token : nat)
| capture_ev (q : nat) (status : Z)
| SetImmediate_ev (q : nat)
| set_query_last_ok_ev (ok : bool)
| ModifyActivityQueryCount_ev (count : Z)
| MakeCallback_ev (q : nat) (argv : list value)
| delete_ev (q : nat).

(** ** Query lifecycle objects *)

Record hostent := {
  h_name : option string;
  h_aliases : list string;
  h_addrtype : Z;
  h_length : Z;
  h_addr_list : list (list Z);
}.

(** [QueryWrap::ResponseData]; [buf] is the pair of the data pointer and the
    size of the [MallocedBuffer]. *)
Record ResponseData := {
  status : Z;
  is_host : bool;
  host : option hostent;
  buf : option (list Z) * Z;
}.

(** How a subclass of [QueryWrap] sends: through [AresQuery] with its record
    type, or as [GetHostByAddrWrap] does. *)
Inductive send_kind :=
| SendAresQuery (type : Z)
| SendGetHostByAddr.

(** The virtual members of a subclass of [QueryWrap].  A [Parse] returns the
    argument vectors of the calls of the completion hook it makes. *)
Record QueryWrapClass := {
  class_trace_name : string;
  class_Send : send_kind;
  class_Parse_buf : list Z -> Z -> outcome (list (list value));
  class_Parse_host : hostent -> outcome (list (list value));
}.

Record QueryWrap := {
  wrap_class : QueryWrapClass;
  response_data_ : option ResponseData;
  callback_ptr_ : option nat;
}.

Definition set_response_data (d : option ResponseData) (q : QueryWrap) :=
  {| wrap_class := wrap_class q; response_data_ := d;
     callback_ptr_ := callback_ptr_ q |}.

Definition set_callback_ptr (p : option nat) (q : QueryWrap) :=
  {| wrap_class := wrap_class q; response_data_ := response_data_ q;
     callback_ptr_ := p |}.

(** [ToErrorCodeString] *)
Definition ToErrorCodeString `{AresH} (status : Z) : string :=
  if status =? ARES_EADDRGETNETWORKPARAMS then "EADDRGETNETWORKPARAMS"
  else if status =? ARES_EBADFAMILY then "EBADFAMILY"
  else if status =? ARES_EBADFLAGS then "EBADFLAGS"
  else if status =? ARES_EBADHINTS then "EBADHINTS"
  else if status =? ARES_EBADNAME then "EBADNAME"
  else if status =? ARES_EBADQUERY then "EBADQUERY"
  else if status =? ARES_EBADRESP then "EBADRESP"
  else if status =? ARES_EBADSTR then "EBADSTR"
  else if status =? ARES_ECANCELLED then "ECANCELLED"
  else if status =? ARES_ECONNREFUSED then "ECONNREFUSED"
  else if status =? ARES_EDESTRUCTION then "EDESTRUCTION"
  else if status =? ARES_EFILE then "EFILE"
  else if status =? ARES_EFORMERR then "EFORMERR"
  else if status =? ARES_ELOADIPHLPAPI then "ELOADIPHLPAPI"
  else if status =? ARES_ENODATA then "ENODATA"
  else if status =? ARES_ENOMEM then "ENOMEM"
  else if status =? ARES_ENONAME then "ENONAME"
  else if status =? ARES_ENOTFOUND then "ENOTFOUND"
  else if status =? ARES_ENOTIMP then "ENOTIMP"
  else if status =? ARES_ENOTINITIALIZED then "ENOTINITIALIZED"
  else if status =? ARES_EOF then "EOF"
  else if status =? ARES_EREFUSED then "EREFUSED"
  else if status =? ARES_ESERVFAIL then "ESERVFAIL"
  else if status =? ARES_ETIMEOUT then "ETIMEOUT"
  else "UNKNOWN_ARES_ERROR".

(** The codes of the engine: those that [ToErrorCodeString] names, and
    [ARES_SUCCESS]. *)
Definition engine_codes `{AresH} : list Z :=
  [ARES_SUCCESS; ARES_EADDRGETNETWORKPARAMS; ARES_EBADFAMILY; ARES_EBADFLAGS;
   ARES_EBADHINTS; ARES_EBADNAME; ARES_EBADQUERY; ARES_EBADRESP; ARES_EBADSTR;
   ARES_ECANCELLED; ARES_ECONNREFUSED; ARES_EDESTRUCTION; ARES_EFILE;
   ARES_EFORMERR; ARES_ELOADIPHLPAPI; ARES_ENODATA; ARES_ENOMEM; ARES_ENONAME;
   ARES_ENOTFOUND; ARES_ENOTIMP; ARES_ENOTINITIALIZED; ARES_EOF; ARES_EREFUSED;
   ARES_ESERVFAIL; ARES_ETIMEOUT].

(** ** The world: one channel, the loop, the heap *)

Section World.
Context `{AresH, SysH, Engine}.

(** [cells] are the heap cells (pointers to a pointer to [QueryWrap]) made by [MakeCallbackPointer],
    holding a pointer to a [QueryWrap] or null; [wraps] are the live
    [QueryWrap] objects; [immediates] is the queue of [SetImmediate]. *)
Record World := {
  chan : ChannelWrap;
  closing : list uv_handle;
  immediates : list nat;
  cells : gmap nat (option nat);
  wraps : gmap nat QueryWrap;
  trace : list event;
}.

Definition set_chan (v : ChannelWrap) (w : World) :=
  {| chan := v; closing := closing w; immediates := immediates w;
     cells := cells w; wraps := wraps w; trace := trace w |}.

Definition set_closing (v : list uv_handle) (w : World) :=
  {| chan := chan w; closing := v; immediates := immediates w;
     cells := cells w; wraps := wraps w; trace := trace w |}.

Definition set_immediates (v : list nat) (w : World) :=
  {| chan := chan w; closing := closing w; immediates := v;
     cells := cells w; wraps := wraps w; trace := trace w |}.

Definition set_cells (v : gmap nat (option nat)) (w : World) :=
  {| chan := chan w; closing := closing w; immediates := immediates w;
     cells := v; wraps := wraps w; trace := trace w |}.

Definition set_wraps (v : gmap nat QueryWrap) (w : World) :=
  {| chan := chan w; closing := closing w; immediates := immediates w;
     cells := cells w; wraps := v; trace := trace w |}.

Definition emit (e : event) (w : World) :=
  {| chan := chan w; closing := closing w; immediates := immediates w;
     cells := cells w; wraps := wraps w; trace := trace w ++ [e] |}.

(** The world around a channel that its constructor has just filled in. *)
Definition World_new (timeout : Z) : World :=
  {| chan := ChannelWrap_new timeout; closing := []; immediates := [];
     cells := ∅; wraps := ∅; trace := [] |}.

(** *** Setup and fallback detection *)

(** What the engine answers when [Setup] runs: the status of
    [ares_library_init], the status of [ares_init_options] and the channel it
    has made. *)
Record setup_reply := {
  library_init_r : Z;
  init_options_r : Z;
  init_options_channel : ares_channel;
}.

Definition Setup (rep : setup_reply) (w : World) : World :=
  let after_library_init :=
    if library_inited_ (chan w) then inl w
    else
      let w := emit ares_library_init_ev w in
      let r := library_init_r rep in
      if negb (r =? ARES_SUCCESS)
      then inr (emit (ThrowError_ev (ToErrorCodeString r)) w)
      else inl w in
  match after_library_init with
  | inr w => w
  | inl w =>
      let w := emit (ares_init_options_ev (timeout_ (chan w))) w in
      let r := init_options_r rep in
      if negb (r =? ARES_SUCCESS) then
        let w := emit ares_library_cleanup_ev w in
        emit (ThrowError_ev (ToErrorCodeString r)) w
      else
        let w := set_chan (set_channel (Live (init_options_channel rep)) (chan w)) w in
        set_chan (set_library_inited true (chan w)) w
  end.

Definition ares_destroy (w : World) : World :=
  emit ares_destroy_ev (set_chan (set_channel Destroyed (chan w)) w).

Definition World_CloseTimer (w : World) : World :=
  let '(c, cl) := CloseTimer (chan w, closing w) in
  set_closing cl (set_chan c w).

(** The fallback signature: [AF_INET], 127.0.0.1, both ports zero. *)
Definition is_fallback_server (s : ares_addr_port_node) : bool :=
  negb (negb (family s =? AF_INET)
        || negb (bool_decide (take 4 (addr s) = htonl INADDR_LOOPBACK))
        || negb (tcp_port s =? 0)
        || negb (udp_port s =? 0)).

Definition EnsureServers (rep : setup_reply) (w : World) : outcome World :=
  if query_last_ok_ (chan w) || negb (is_servers_default_ (chan w)) then
    Done w
  else
    match channel_ (chan w) with
    | Null | Destroyed => Undefined "ares_get_servers_ports: channel not live"
    | Live c =>
        match ares_get_servers_ports c with
        | [] => Done w
        | _ :: _ :: _ =>
            Done (set_chan (set_is_servers_default false (chan w)) w)
        | [s] =>
            if negb (is_fallback_server s) then
              Done (set_chan (set_is_servers_default false (chan w)) w)
            else
              let w := ares_destroy w in
              let w := World_CloseTimer w in
              Done (Setup rep w)
        end
    end.

End World.

(** ** libuv's address conversions *)

Class Uv := {
  (** [uv_inet_pton(af, src, dst)]: the status and the bytes written. *)
  uv_inet_pton : Z -> string -> Z * list Z;
  (** [uv_inet_ntop(af, src, dst, size)]: the text written. *)
  uv_inet_ntop : Z -> list Z -> string;
}.

Section QueryWrap.
Context `{AresH, SysH, Engine, Uv}.

(** *** The callback token *)

(** [QueryWrap::MakeCallbackPointer] *)
Definition MakeCallbackPointer (q : nat) (w : World) : outcome (nat * World) :=
  match wraps w !! q with
  | None => Undefined "MakeCallbackPointer: this is freed"
  | Some qw =>
      CHECK (bool_decide (callback_ptr_ qw = None)) "callback_ptr_ == nullptr";;
      let l := fresh (dom (cells w)) in
      let w := set_cells (<[l := Some q]> (cells w)) w in
      Done (l, set_wraps (<[q := set_callback_ptr (Some l) qw]> (wraps w)) w)
  end.

(** [QueryWrap::~QueryWrap], and the release of the object's memory.  The
    [CHECK] of the destructor is on the handle of the JavaScript object, which
    [BaseObject] keeps and which is not modelled. *)
Definition QueryWrap_delete (q : nat) (w : World) : outcome World :=
  match wraps w !! q with
  | None => Undefined "delete: the QueryWrap is freed"
  | Some qw =>
      w ← match callback_ptr_ qw with
          | None => Done w
          | Some l =>
              match cells w !! l with
              | None => Undefined "*callback_ptr_: the cell is freed"
              | Some _ => Done (set_cells (<[l := None]> (cells w)) w)
              end
          end;
      Done (emit (delete_ev q) (set_wraps (delete q (wraps w)) w))
  end.

(** [QueryWrap::FromCallbackPointer]; the [unique_ptr] frees the cell when
    the function returns. *)
Definition FromCallbackPointer (arg : nat) (w : World)
  : outcome (option nat * World) :=
  match cells w !! arg with
  | None => Undefined "FromCallbackPointer: the cell is freed"
  | Some None => Done (None, set_cells (delete arg (cells w)) w)
  | Some (Some q) =>
      match wraps w !! q with
      | None => Undefined "wrap->callback_ptr_: the QueryWrap is freed"
      | Some qw =>
          let w := set_wraps (<[q := set_callback_ptr None qw]> (wraps w)) w in
          Done (Some q, set_cells (delete arg (cells w)) w)
      end
  end.

(** *** Capture and delivery *)

(** [QueryWrap::QueueResponseCallback] *)
Definition QueueResponseCallback (q : nat) (status : Z) (w : World)
  : outcome World :=
  let w := emit (SetImmediate_ev q) (set_immediates (immediates w ++ [q]) w) in
  let ok := negb (status =? ARES_ECONNREFUSED) in
  let w := emit (set_query_last_ok_ev ok)
                (set_chan (set_query_last_ok ok (chan w)) w) in
  let w := emit (ModifyActivityQueryCount_ev (-1)) w in
  c ← ModifyActivityQueryCount (-1) (chan w);
  Done (set_chan c w).

Definition store_response (q : nat) (d : ResponseData) (w : World)
  : outcome World :=
  match wraps w !! q with
  | None => Undefined "wrap->response_data_: the QueryWrap is freed"
  | Some qw =>
      Done (emit (capture_ev q (status d))
              (set_wraps (<[q := set_response_data (Some d) qw]> (wraps w)) w))
  end.

(** The [ResponseData] that [Callback] fills in for an answer buffer. *)
Definition buf_response (status : Z) (answer_buf : list Z) (answer_len : Z)
  : ResponseData :=
  let buf_copy :=
    if status =? ARES_SUCCESS
    then Some (take (Z.to_nat answer_len) answer_buf) else None in
  {| status := status; is_host := false; host := None;
     buf := (buf_copy, answer_len) |}.

(** [QueryWrap::Callback], the overload that receives an answer buffer. *)
Definition Callback_buf (arg : nat) (status timeouts : Z)
    (answer_buf : list Z) (answer_len : Z) (w : World) : outcome World :=
  '(wrap, w) ← FromCallbackPointer arg w;
  match wrap with
  | None => Done w
  | Some q =>
      w ← store_response q (buf_response status answer_buf answer_len) w;
      QueueResponseCallback q status w
  end.

(** [cares_wrap_hostent_cpy]; [strlen] of a null [h_name] is undefined. *)
Definition cares_wrap_hostent_cpy (src : hostent) : outcome hostent :=
  match h_name src with
  | None => Undefined "strlen(src->h_name): null"
  | Some name =>
      Done {| h_name := Some name; h_aliases := h_aliases src;
              h_addrtype := h_addrtype src; h_length := h_length src;
              h_addr_list :=
                map (take (Z.to_nat (h_length src))) (h_addr_list src) |}
  end.

(** [QueryWrap::Callback], the overload that receives a [struct hostent]. *)
Definition Callback_host (arg : nat) (status timeouts : Z)
    (host : hostent) (w : World) : outcome World :=
  '(wrap, w) ← FromCallbackPointer arg w;
  match wrap with
  | None => Done w
  | Some q =>
      host_copy ← (if status =? ARES_SUCCESS
                   then h ← cares_wrap_hostent_cpy host; Done (Some h)
                   else Done None);
      w ← store_response q
            {| status := status; is_host := true; host := host_copy;
               buf := (None, 0) |} w;
      QueueResponseCallback q status w
  end.

(** [QueryWrap::ParseError] *)
Definition ParseError (status : Z) : outcome (list (list value)) :=
  CHECK (negb (status =? ARES_SUCCESS)) "status != ARES_SUCCESS";;
  Done [[Str (ToErrorCodeString status)]].

(** [QueryWrap::CallOnComplete] *)
Definition CallOnComplete (answer : value) (extra : option value)
  : list (list value) :=
  [[Int 0; answer] ++ option_list extra].

(** The branches of [QueryWrap::AfterResponse]: the calls of the completion
    hook that [ParseError] or the [Parse] of the class makes for the captured
    response. *)
Definition deliver (cls : QueryWrapClass) (d : ResponseData)
  : outcome (list (list value)) :=
  if negb (status d =? ARES_SUCCESS) then ParseError (status d)
  else if negb (is_host d)
       then class_Parse_buf cls (default [] (fst (buf d))) (snd (buf d))
       else match host d with
            | Some h => class_Parse_host cls h
            | None => Undefined "Parse(host): null"
            end.

(** [QueryWrap::AfterResponse] *)
Definition AfterResponse (q : nat) (w : World) : outcome World :=
  match wraps w !! q with
  | None => Undefined "AfterResponse: this is freed"
  | Some qw =>
      match response_data_ qw with
      | None => CheckFailed "response_data_"
      | Some d =>
          calls ← deliver (wrap_class qw) d;
          Done (foldl (fun w argv => emit (MakeCallback_ev q argv) w) w calls)
      end
  end.

(** The lambda that [QueueResponseCallback] gives to [SetImmediate], run by
    the loop for the first immediate of the queue: [AfterResponse], [Detach],
    and the object is deleted when [strong_ref] goes out of scope. *)
Definition run_immediate (w : World) : outcome World :=
  match immediates w with
  | [] => Done w
  | q :: rest =>
      w ← AfterResponse q (set_immediates rest w);
      QueryWrap_delete q w
  end.

(** *** Dispatch *)

(** [QueryWrap::AresQuery] *)
Definition AresQuery (q : nat) (name : string) (type : Z) (rep : setup_reply)
    (w : World) : outcome World :=
  w ← EnsureServers rep w;
  '(token, w) ← MakeCallbackPointer q w;
  Done (emit (ares_query_ev name type token) w).

(** [Send] of the subclass: [AresQuery(name, ns_c_in, type); return 0;] for
    the [Query...Wrap] classes, and [GetHostByAddrWrap::Send]. *)
Definition Send (q : nat) (name : string) (rep : setup_reply) (w : World)
  : outcome (Z * World) :=
  match wraps w !! q with
  | None => Undefined "Send: this is freed"
  | Some qw =>
      match class_Send (wrap_class qw) with
      | SendAresQuery type =>
          w ← AresQuery q name type rep w;
          Done (0, w)
      | SendGetHostByAddr =>
          let send address fam :=
            '(token, w) ← MakeCallbackPointer q w;
            Done (0, emit (ares_gethostbyaddr_ev address fam token) w) in
          if fst (uv_inet_pton AF_INET name) =? 0 then
            send (take 4 (snd (uv_inet_pton AF_INET name))) AF_INET
          else if fst (uv_inet_pton AF_INET6 name) =? 0 then
            send (take 16 (snd (uv_inet_pton AF_INET6 name))) AF_INET6
          else Done (UV_EINVAL, w)
      end
  end.

(** [Query<Wrap>]; [cls] is the class [Wrap].  The returned number is the
    value set as the JavaScript return value. *)
Definition Query (cls : QueryWrapClass) (name : string) (rep : setup_reply)
    (w : World) : outcome (Z * World) :=
  let q := fresh (dom (wraps w)) in
  let wrap := {| wrap_class := cls; response_data_ := None;
                 callback_ptr_ := None |} in
  let w := set_wraps (<[q := wrap]> (wraps w)) w in
  let w := emit (ModifyActivityQueryCount_ev 1) w in
  c ← ModifyActivityQueryCount 1 (chan w);
  let w := set_chan c w in
  '(err, w) ← Send q name rep w;
  if negb (err =? 0) then
    let w := emit (ModifyActivityQueryCount_ev (-1)) w in
    c ← ModifyActivityQueryCount (-1) (chan w);
    w ← QueryWrap_delete q (set_chan c w);
    Done (err, w)
  else Done (err, w).

(** *** SetServers *)

(** The loop of [SetServers] over the elements [[family, ip, port]] of the
    array: the [err] it ends with and the nodes it has linked. *)
Fixpoint SetServers_loop (arr : list (Z * string * Z))
    (servers : list ares_addr_port_node)
  : outcome (Z * list ares_addr_port_node) :=
  match arr with
  | [] => Done (0, servers)
  | (fam, ip, port) :: rest =>
      CHECK (negb (fam =? 0)) "elm[0]->Int32Value()";;
      CHECK (negb (port =? 0)) "elm[2]->Int32Value()";;
      '(af, r) ←
        (if fam =? 4 then Done (AF_INET, uv_inet_pton AF_INET ip)
         else if fam =? 6 then Done (AF_INET6, uv_inet_pton AF_INET6 ip)
         else CheckFailed "Bad address family.");
      let err := fst r in
      if negb (err =? 0) then Done (err, servers)
      else
        let cur := {| family := af; addr := snd r;
                      udp_port := port; tcp_port := port |} in
        SetServers_loop rest (servers ++ [cur])
  end.

Definition SetServers (arr : list (Z * string * Z)) (w : World)
  : outcome (Z * World) :=
  if negb (active_query_count_ (chan w) =? 0) then
    Done (DNS_ESETSRVPENDING, w)
  else
    match channel_ (chan w) with
    | Null | Destroyed => Undefined "SetServers: channel not live"
    | Live c =>
        match arr with
        | [] =>
            let '(rv, c) := ares_set_servers c in
            Done (rv, set_chan (set_channel (Live c) (chan w)) w)
        | _ :: _ =>
            '(err, servers) ← SetServers_loop arr [];
            let '(err, c) :=
              if err =? 0 then ares_set_servers_ports c servers
              else (ARES_EBADSTR, c) in
            let w := set_chan (set_channel (Live c) (chan w)) w in
            let w :=
              if err =? ARES_SUCCESS
              then set_chan (set_is_servers_default false (chan w)) w
              else w in
            Done (err, w)
        end
    end.

End QueryWrap.

(** ** Decoding an answer *)

Record ares_mx_reply := { mx_host : string; mx_priority : Z }.

Record ares_caa_reply := {
  caa_critical : Z;
  caa_property : string;
  caa_value : string;
}.

Record ares_txt_ext := { txt : string; record_start : bool }.

Record ares_srv_reply := {
  srv_host : string;
  srv_priority : Z;
  srv_weight : Z;
  srv_port : Z;
}.

Record ares_naptr_reply := {
  naptr_flags : string;
  naptr_service : string;
  naptr_regexp : string;
  naptr_replacement : string;
  naptr_order : Z;
  naptr_preference : Z;
}.

(** What [ares_parse_a_reply] and [ares_parse_aaaa_reply] leave behind: the
    status, the host entry, the [ttl] members of the entries written to
    [addrttls], and the number left in [*naddrttls]. *)
Record addr_reply := {
  ar_status : Z;
  ar_host : hostent;
  ar_ttls : list Z;
  ar_naddrttls : Z;
}.

(** The decoders of c-ares.  Each takes the answer buffer and its length;
    [ares_parse_a_reply] and [ares_parse_aaaa_reply] also take the number in
    [*naddrttls], [None] when the pointers are null; [ares_expand_name] takes
    the offset of the encoded name in the buffer first and yields the status,
    the name and the encoded length. *)
Class Decoder := {
  ares_parse_a_reply : list Z -> Z -> option Z -> addr_reply;
  ares_parse_aaaa_reply : list Z -> Z -> option Z -> addr_reply;
  ares_parse_ns_reply : list Z -> Z -> Z * hostent;
  ares_parse_ptr_reply : list Z -> Z -> Z * hostent;
  ares_parse_mx_reply : list Z -> Z -> Z * list ares_mx_reply;
  ares_parse_caa_reply : list Z -> Z -> Z * list ares_caa_reply;
  ares_parse_txt_reply_ext : list Z -> Z -> Z * list ares_txt_ext;
  ares_parse_srv_reply : list Z -> Z -> Z * list ares_srv_reply;
  ares_parse_naptr_reply : list Z -> Z -> Z * list ares_naptr_reply;
  ares_expand_name : Z -> list Z -> Z -> Z * string * Z;
}.

(** Conversions to the 32-bit integers of [Integer::New] and
    [Integer::NewFromUnsigned]. *)
Definition to_uint32 (x : Z) : Z := x mod 2 ^ 32.

Definition to_int32 (x : Z) : Z :=
  let u := x mod 2 ^ 32 in if u <? 2 ^ 31 then u else u - 2 ^ 32.

(** The byte at an offset of a buffer; the code reads only below [len],
    except for the answer count of the header, see [ParseSoaReply]. *)
Definition byte_at (buf : list Z) (off : Z) : Z :=
  default 0 (buf !! Z.to_nat off).

(** [cares_get_16bit] *)
Definition cares_get_16bit (buf : list Z) (p : Z) : Z :=
  Z.lor (Z.shiftl (byte_at buf p) 8) (byte_at buf (p + 1)) mod 2 ^ 16.

(** [ReadUint32BE] of [util.h]. *)
Definition ReadUint32BE (buf : list Z) (p : Z) : Z :=
  Z.lor (Z.lor (Z.lor (Z.shiftl (byte_at buf p) 24)
                      (Z.shiftl (byte_at buf (p + 1)) 16))
               (Z.shiftl (byte_at buf (p + 2)) 8))
        (byte_at buf (p + 3)).

Section Parse.
Context `{AresH, SysH, Uv, Decoder}.

(** What [ParseGeneralReply] leaves behind: the returned status, [*type],
    the array [ret], the [ttl]s written to [addrttls] and [*naddrttls]. *)
Record general_reply := {
  gr_status : Z;
  gr_type : Z;
  gr_ret : list value;
  gr_ttls : list Z;
  gr_naddrttls : option Z;
}.

Definition ParseGeneralReply (buf : list Z) (len : Z) (type : Z)
    (ret : list value) (naddrttls : option Z) : outcome general_reply :=
  '(status, host, ttls, n) ←
    (if (type =? ns_t_a) || (type =? ns_t_cname) || (type =? ns_t_cname_or_a)
     then let r := ares_parse_a_reply buf len naddrttls in
          Done (ar_status r, ar_host r, ar_ttls r, (λ _, ar_naddrttls r) <$> naddrttls)
     else if type =? ns_t_aaaa
     then let r := ares_parse_aaaa_reply buf len naddrttls in
          Done (ar_status r, ar_host r, ar_ttls r, (λ _, ar_naddrttls r) <$> naddrttls)
     else if type =? ns_t_ns
     then let r := ares_parse_ns_reply buf len in Done (r.1, r.2, [], naddrttls)
     else if type =? ns_t_ptr
     then let r := ares_parse_ptr_reply buf len in Done (r.1, r.2, [], naddrttls)
     else CheckFailed "Bad NS type");
  let reply status type ret :=
    {| gr_status := status; gr_type := type; gr_ret := ret;
       gr_ttls := ttls; gr_naddrttls := n |} in
  if negb (status =? ARES_SUCCESS) then Done (reply status type ret)
  else if ((type =? ns_t_cname_or_a) && bool_decide (is_Some (h_name host))
           && negb (bool_decide (h_aliases host = [])))
          || (type =? ns_t_cname)
  then
    match h_name host with
    | None => Undefined "OneByteString(host->h_name): null"
    | Some name => Done (reply ARES_SUCCESS ns_t_cname (ret ++ [Str name]))
    end
  else
    let type := if type =? ns_t_cname_or_a then ns_t_a else type in
    let ret :=
      if type =? ns_t_ns then ret ++ map Str (h_aliases host)
      else if type =? ns_t_ptr then ret ++ map Str (h_aliases host)
      else ret ++ map (fun a => Str (uv_inet_ntop (h_addrtype host) a))
                      (h_addr_list host) in
    Done (reply ARES_SUCCESS type ret).

Definition with_type (need_type : bool) (dns_string : string)
  : list (value * value) :=
  if need_type then [(EnvStr "type_string", EnvStr dns_string)] else [].

Definition ParseMxReply (buf : list Z) (len : Z) (ret : list value)
    (need_type : bool) : Z * list value :=
  let '(status, mx_start) := ares_parse_mx_reply buf len in
  if negb (status =? ARES_SUCCESS) then (status, ret)
  else
    (ARES_SUCCESS,
     ret ++ map (fun current =>
       Obj ([(EnvStr "exchange_string", Str (mx_host current));
             (EnvStr "priority_string", Int (mx_priority current))]
            ++ with_type need_type "dns_mx_string")) mx_start).

Definition ParseCaaReply (buf : list Z) (len : Z) (ret : list value)
    (need_type : bool) : Z * list value :=
  let '(status, caa_start) := ares_parse_caa_reply buf len in
  if negb (status =? ARES_SUCCESS) then (status, ret)
  else
    (ARES_SUCCESS,
     ret ++ map (fun current =>
       Obj ([(EnvStr "dns_critical_string", Int (caa_critical current));
             (Str (caa_property current), Str (caa_value current))]
            ++ with_type need_type "dns_caa_string")) caa_start).

(** The element that [ParseTxtReply] writes out for a chunk. *)
Definition txt_elem (need_type : bool) (txt_chunk : list value) : value :=
  if need_type
  then Obj [(EnvStr "entries_string", Arr txt_chunk);
            (EnvStr "type_string", EnvStr "dns_txt_string")]
  else Arr txt_chunk.

(** The loop of [ParseTxtReply]; [txt_chunk] is [None] while the handle is
    empty. *)
Fixpoint ParseTxtReply_loop (need_type : bool) (current : list ares_txt_ext)
    (txt_chunk : option (list value)) (ret : list value)
  : outcome (option (list value) * list value) :=
  match current with
  | [] => Done (txt_chunk, ret)
  | cur :: next =>
      let '(txt_chunk, ret) :=
        if record_start cur then
          (Some [],
           match txt_chunk with
           | Some chunk => ret ++ [txt_elem need_type chunk]
           | None => ret
           end)
        else (txt_chunk, ret) in
      match txt_chunk with
      | None => Undefined "txt_chunk->Set: empty handle"
      | Some chunk =>
          ParseTxtReply_loop need_type next (Some (chunk ++ [Str (txt cur)])) ret
      end
  end.

Definition ParseTxtReply (buf : list Z) (len : Z) (ret : list value)
    (need_type : bool) : outcome (Z * list value) :=
  let '(status, txt_out) := ares_parse_txt_reply_ext buf len in
  if negb (status =? ARES_SUCCESS) then Done (status, ret)
  else
    '(txt_chunk, ret) ← ParseTxtReply_loop need_type txt_out None ret;
    match txt_chunk with
    | Some chunk => Done (ARES_SUCCESS, ret ++ [txt_elem need_type chunk])
    | None => Done (ARES_SUCCESS, ret)
    end.

Definition ParseSrvReply (buf : list Z) (len : Z) (ret : list value)
    (need_type : bool) : Z * list value :=
  let '(status, srv_start) := ares_parse_srv_reply buf len in
  if negb (status =? ARES_SUCCESS) then (status, ret)
  else
    (ARES_SUCCESS,
     ret ++ map (fun current =>
       Obj ([(EnvStr "name_string", Str (srv_host current));
             (EnvStr "port_string", Int (srv_port current));
             (EnvStr "priority_string", Int (srv_priority current));
             (EnvStr "weight_string", Int (srv_weight current))]
            ++ with_type need_type "dns_srv_string")) srv_start).

Definition ParseNaptrReply (buf : list Z) (len : Z) (ret : list value)
    (need_type : bool) : Z * list value :=
  let '(status, naptr_start) := ares_parse_naptr_reply buf len in
  if negb (status =? ARES_SUCCESS) then (status, ret)
  else
    (ARES_SUCCESS,
     ret ++ map (fun current =>
       Obj ([(EnvStr "flags_string", Str (naptr_flags current));
             (EnvStr "service_string", Str (naptr_service current));
             (EnvStr "regexp_string", Str (naptr_regexp current));
             (EnvStr "replacement_string", Str (naptr_replacement current));
             (EnvStr "order_string", Int (naptr_order current));
             (EnvStr "preference_string", Int (naptr_preference current))]
            ++ with_type need_type "dns_naptr_string")) naptr_start).

(** [status == ARES_EBADNAME ? ARES_EBADRESP : status] *)
Definition bad_name_is_bad_resp (status : Z) : Z :=
  if status =? ARES_EBADNAME then ARES_EBADRESP else status.

(** The loop of [ParseSoaReply] over the [n] answers that are left, at offset
    [ptr]: the status and the record found. *)
Fixpoint ParseSoaReply_loop (buf : list Z) (len : Z) (n : nat) (ptr : Z)
  : Z * option value :=
  match n with
  | O => (ARES_SUCCESS, None)
  | S n =>
      let '(status2, _, rr_temp_len) := ares_expand_name ptr buf len in
      if negb (status2 =? ARES_SUCCESS) then (bad_name_is_bad_resp status2, None)
      else
        let ptr := ptr + rr_temp_len in
        if ptr + NS_RRFIXEDSZ >? len then (ARES_EBADRESP, None)
        else
          let rr_type := cares_get_16bit buf ptr in
          let rr_len := cares_get_16bit buf (ptr + 8) in
          let ptr := ptr + NS_RRFIXEDSZ in
          if rr_type =? ns_t_soa then
            let '(status3, nsname, nsname_temp_len) :=
              ares_expand_name ptr buf len in
            if negb (status3 =? ARES_SUCCESS)
            then (bad_name_is_bad_resp status3, None)
            else
              let ptr := ptr + nsname_temp_len in
              let '(status4, hostqueen, hostqueen_temp_len) :=
                ares_expand_name ptr buf len in
              if negb (status4 =? ARES_SUCCESS)
              then (bad_name_is_bad_resp status4, None)
              else
                let ptr := ptr + hostqueen_temp_len in
                if ptr + 5 * 4 >? len then (ARES_EBADRESP, None)
                else
                  let serial := ReadUint32BE buf (ptr + 0 * 4) in
                  let refresh := ReadUint32BE buf (ptr + 1 * 4) in
                  let retry := ReadUint32BE buf (ptr + 2 * 4) in
                  let expire := ReadUint32BE buf (ptr + 3 * 4) in
                  let minttl := ReadUint32BE buf (ptr + 4 * 4) in
                  (ARES_SUCCESS,
                   Some (Obj
                     [(EnvStr "nsname_string", Str nsname);
                      (EnvStr "hostqueen_string", Str hostqueen);
                      (EnvStr "serial_string", Int (to_uint32 serial));
                      (EnvStr "refresh_string", Int (to_int32 refresh));
                      (EnvStr "retry_string", Int (to_int32 retry));
                      (EnvStr "expire_string", Int (to_int32 expire));
                      (EnvStr "minttl_string", Int (to_uint32 minttl));
                      (EnvStr "type_string", EnvStr "dns_soa_string")]))
          else ParseSoaReply_loop buf len n (ptr + rr_len)
  end.

(** [ParseSoaReply].  The answer count is read at offset 6 whatever [len]
    is; when [len] is too small for that, the result does not depend on the
    count read on a conforming [ares_expand_name], which then fails. *)
Definition ParseSoaReply (buf : list Z) (len : Z) : Z * option value :=
  let ancount := cares_get_16bit buf 6 in
  let ptr := NS_HFIXEDSZ in
  let '(status, _, temp_len) := ares_expand_name ptr buf len in
  if negb (status =? ARES_SUCCESS) then (bad_name_is_bad_resp status, None)
  else if ptr + temp_len + NS_QFIXEDSZ >? len then (ARES_EBADRESP, None)
  else
    let ptr := ptr + temp_len + NS_QFIXEDSZ in
    ParseSoaReply_loop buf len (Z.to_nat ancount) ptr.

End Parse.

(** ** QueryAnyWrap::Parse *)

Section QueryAnyWrap.
Context `{AresH, SysH, Uv, Decoder}.

(** [status != ARES_SUCCESS && status != ARES_ENODATA] *)
Definition failed (status : Z) : bool :=
  negb (status =? ARES_SUCCESS) && negb (status =? ARES_ENODATA).

Definition typed_value (dns_string : string) (v : value) : value :=
  Obj [(EnvStr "value_string", v); (EnvStr "type_string", EnvStr dns_string)].

Definition typed_address (dns_string : string) (ttls : list Z) (i : nat)
    (v : value) : value :=
  Obj [(EnvStr "address_string", v);
       (EnvStr "ttl_string", Int (to_uint32 (default 0 (ttls !! i))));
       (EnvStr "type_string", EnvStr dns_string)].

(** The passes of [QueryAnyWrap::Parse], last first; each is the rest of the
    function from its comment on, given the array [ret] built so far. *)

(** From [/* Parse CAA records */]. *)
Definition Parse_from_CAA (buf : list Z) (len : Z) (ret : list value)
  : outcome (list (list value)) :=
  let '(status, ret) := ParseCaaReply buf len ret true in
  if failed status then ParseError status
  else Done (CallOnComplete (Arr ret) None).

(** From [/* Parse SOA records */]. *)
Definition Parse_from_SOA (buf : list Z) (len : Z) (ret : list value)
  : outcome (list (list value)) :=
  let '(status, soa_record) := ParseSoaReply buf len in
  if failed status then ParseError status
  else Parse_from_CAA buf len (ret ++ option_list soa_record).

(** From [/* Parse NAPTR records */]. *)
Definition Parse_from_NAPTR (buf : list Z) (len : Z) (ret : list value)
  : outcome (list (list value)) :=
  let '(status, ret) := ParseNaptrReply buf len ret true in
  if failed status then ParseError status
  else Parse_from_SOA buf len ret.

(** From [/* Parse PTR records */]. *)
Definition Parse_from_PTR (buf : list Z) (len : Z) (ret : list value)
  : outcome (list (list value)) :=
  let old_count := length ret in
  r ← ParseGeneralReply buf len ns_t_ptr ret None;
  let ret := gr_ret r in
  let ret := take old_count ret
             ++ map (typed_value "dns_ptr_string") (drop old_count ret) in
  Parse_from_NAPTR buf len ret.

(** From [/* Parse SRV records */]. *)
Definition Parse_from_SRV (buf : list Z) (len : Z) (ret : list value)
  : outcome (list (list value)) :=
  let '(status, ret) := ParseSrvReply buf len ret true in
  if failed status then Done []
  else Parse_from_PTR buf len ret.

(** From [/* Parse TXT records */]. *)
Definition Parse_from_TXT (buf : list Z) (len : Z) (ret : list value)
  : outcome (list (list value)) :=
  '(status, ret) ← ParseTxtReply buf len ret true;
  if failed status then ParseError status
  else Parse_from_SRV buf len ret.

(** From [/* Parse NS records */]. *)
Definition Parse_from_NS (buf : list Z) (len : Z) (ret : list value)
  : outcome (list (list value)) :=
  let old_count := length ret in
  r ← ParseGeneralReply buf len ns_t_ns ret None;
  let ret := gr_ret r in
  if failed (gr_status r) then ParseError (gr_status r)
  else
    let ret := take old_count ret
               ++ map (typed_value "dns_ns_string") (drop old_count ret) in
    Parse_from_TXT buf len ret.

(** From [/* Parse MX records */]. *)
Definition Parse_from_MX (buf : list Z) (len : Z) (ret : list value)
  : outcome (list (list value)) :=
  let '(status, ret) := ParseMxReply buf len ret true in
  if failed status then ParseError status
  else Parse_from_NS buf len ret.

(** From [/* Parse AAAA records */]; [a_count] is the local of that name. *)
Definition Parse_from_AAAA (buf : list Z) (len : Z) (a_count : nat)
    (ret : list value) : outcome (list (list value)) :=
  let naddr6ttls := 256 in
  r ← ParseGeneralReply buf len ns_t_aaaa ret (Some naddr6ttls);
  let ret := gr_ret r in
  let naddr6ttls := default 0 (gr_naddrttls r) in
  let aaaa_count := to_uint32 (Z.of_nat (length ret) - Z.of_nat a_count) in
  if failed (gr_status r) then ParseError (gr_status r)
  else
    CHECK (aaaa_count =? to_uint32 naddr6ttls)
          "aaaa_count == static_cast<uint32_t>(naddr6ttls)";;
    CHECK (Z.of_nat (length ret) =? to_uint32 (Z.of_nat a_count + aaaa_count))
          "ret->Length() == a_count + aaaa_count";;
    let ret := take a_count ret
               ++ imap (typed_address "dns_aaaa_string" (gr_ttls r))
                       (drop a_count ret) in
    Parse_from_MX buf len ret.

(** [QueryAnyWrap::Parse] *)
Definition QueryAnyWrap_Parse (buf : list Z) (len : Z)
  : outcome (list (list value)) :=
  let ret := [] in
  let naddrttls := 256 in
  r ← ParseGeneralReply buf len ns_t_cname_or_a ret (Some naddrttls);
  let ret := gr_ret r in
  let naddrttls := default 0 (gr_naddrttls r) in
  let a_count := length ret in
  if failed (gr_status r) then ParseError (gr_status r)
  else
    ret ← (if gr_type r =? ns_t_a then
             CHECK (to_uint32 naddrttls =? Z.of_nat a_count)
                   "static_cast<uint32_t>(naddrttls) == a_count";;
             Done (imap (typed_address "dns_a_string" (gr_ttls r)) ret)
           else Done (map (typed_value "dns_cname_string") ret));
    Parse_from_AAAA buf len a_count ret.

(** The class [QueryAnyWrap]; it does not override [Parse] for a host entry,
    which is [UNREACHABLE()] in [QueryWrap]. *)
Definition QueryAnyWrap : QueryWrapClass :=
  {| class_trace_name := "resolveAny";
     class_Send := SendAresQuery ns_t_any;
     class_Parse_buf := QueryAnyWrap_Parse;
     class_Parse_host := fun _ => CheckFailed "UNREACHABLE" |}.

(** [HostentToNames] without an array to append to. *)
Definition HostentToNames (host : hostent) : value :=
  Arr (map Str (h_aliases host)).

(** The class [GetHostByAddrWrap]. *)
Definition GetHostByAddrWrap : QueryWrapClass :=
  {| class_trace_name := "reverse";
     class_Send := SendGetHostByAddr;
     class_Parse_buf := fun _ _ => CheckFailed "UNREACHABLE";
     class_Parse_host := fun host =>
       Done (CallOnComplete (HostentToNames host) None) |}.

End QueryAnyWrap.

(** ** Runs of the bridge *)

Section Runs.
Context `{AresH, SysH, Engine, Uv}.

(** What can happen to a channel between two returns to the loop: JavaScript
    dispatches a query, the engine completes one through its token, the loop
    runs the next immediate. *)
Inductive step :=
| Dispatch (cls : QueryWrapClass) (name : string) (rep : setup_reply)
| Complete_buf (token : nat) (status timeouts : Z) (answer : list Z) (len : Z)
| Complete_host (token : nat) (status timeouts : Z) (h : hostent)
| Immediate.

Definition step_run (s : step) (w : World) : outcome World :=
  match s with
  | Dispatch cls name rep => r ← Query cls name rep w; Done r.2
  | Complete_buf token status timeouts answer len =>
      Callback_buf token status timeouts answer len w
  | Complete_host token status timeouts h =>
      Callback_host token status timeouts h w
  | Immediate => run_immediate w
  end.

(** A completion is the completion of a query: its token is one that a
    dispatch gave to the engine and that no completion has consumed, and
    whose lifecycle object is alive. *)
Definition outstanding (token : nat) (w : World) : Prop :=
  exists q qw, cells w !! token = Some (Some q) /\ wraps w !! q = Some qw.

Definition enabled (s : step) (w : World) : Prop :=
  match s with
  | Dispatch _ _ _ => True
  | Complete_buf token _ _ _ _ => outstanding token w
  | Complete_host token _ _ _ => outstanding token w
  | Immediate => True
  end.

(** The worlds that the constructor of the channel and steps that return
    lead to. *)
Inductive reachable : World -> Prop :=
| reachable_new timeout rep :
    reachable (Setup rep (World_new timeout))
| reachable_step w s w' :
    reachable w -> enabled s w -> step_run s w = Done w' -> reachable w'.

Fixpoint run (ss : list step) (w : World) : outcome World :=
  match ss with
  | [] => Done w
  | s :: ss => w ← step_run s w; run ss w
  end.

(** Counters over a trace: the queries handed to the engine, the responses
    captured, the increments and decrements of the in-flight counter. *)
Definition is_sent (e : event) : bool :=
  match e with
  | ares_query_ev _ _ _ | ares_gethostbyaddr_ev _ _ _ => true
  | _ => false
  end.

Definition is_capture (e : event) : bool :=
  match e with capture_ev _ _ => true | _ => false end.

Definition is_increment (e : event) : bool :=
  match e with ModifyActivityQueryCount_ev n => n =? 1 | _ => false end.

Definition is_decrement (e : event) : bool :=
  match e with ModifyActivityQueryCount_ev n => n =? -1 | _ => false end.

Definition is_delivery (e : event) : bool :=
  match e with MakeCallback_ev _ _ => true | _ => false end.

Definition is_delete (e : event) : bool :=
  match e with delete_ev _ => true | _ => false end.

Definition is_set_last_ok (e : event) : bool :=
  match e with set_query_last_ok_ev _ => true | _ => false end.

Definition count_events (p : event -> bool) (tr : list event) : Z :=
  Z.of_nat (length (filter (fun e => p e = true) tr)).

(** [happens_before p q tr]: events of both kinds occur in [tr], and every
    event of kind [p] comes before every event of kind [q]. *)
Definition happens_before (p q : event -> bool) (tr : list event) : Prop :=
  (exists i e, tr !! i = Some e /\ p e = true) /\
  (exists j e, tr !! j = Some e /\ q e = true) /\
  forall (i j : nat) e1 e2,
    tr !! i = Some e1 -> p e1 = true ->
    tr !! j = Some e2 -> q e2 = true -> (i < j)%nat.

(** [outstanding] and [enabled] as tests, and a run that stops when a step
    is not enabled or does not return. *)
Definition outstandingb (token : nat) (w : World) : bool :=
  match cells w !! token with
  | Some (Some q) => bool_decide (is_Some (wraps w !! q))
  | _ => false
  end.

Definition enabledb (s : step) (w : World) : bool :=
  match s with
  | Dispatch _ _ _ => true
  | Complete_buf token _ _ _ _ => outstandingb token w
  | Complete_host token _ _ _ => outstandingb token w
  | Immediate => true
  end.

Fixpoint run_checked (ss : list step) (w : World) : option World :=
  match ss with
  | [] => Some w
  | s :: ss =>
      if enabledb s w then
        match step_run s w with
        | Done w' => run_checked ss w'
        | _ => None
        end
      else None
  end.

(** The events that are neither a query handed to the engine, nor a capture,
    nor a change of the in-flight counter. *)
Definition quiet (e : event) : bool :=
  negb (is_sent e || is_capture e || is_increment e || is_decrement e).

(** What holds of the tokens in every reachable world: the in-flight counter
    is the number of token cells, it is the number of queries handed to the
    engine less the number of responses captured, and the number of its
    increments less the number of its decrements; a cell and the lifecycle
    object it points to point to each other; the objects that wait in the
    queue of immediates are alive, hold no token, and wait once. *)
Definition lifecycle_inv (w : World) : Prop :=
  active_query_count_ (chan w) = Z.of_nat (size (cells w)) /\
  active_query_count_ (chan w)
    = count_events is_sent (trace w) - count_events is_capture (trace w) /\
  active_query_count_ (chan w)
    = count_events is_increment (trace w)
      - count_events is_decrement (trace w) /\
  (forall l v, cells w !! l = Some v ->
     exists q qw, v = Some q /\ wraps w !! q = Some qw /\
                  callback_ptr_ qw = Some l) /\
  (forall q qw l, wraps w !! q = Some qw -> callback_ptr_ qw = Some l ->
     cells w !! l = Some (Some q)) /\
  (forall q, q ∈ immediates w ->
     exists qw, wraps w !! q = Some qw /\ callback_ptr_ qw = None) /\
  NoDup (immediates w).

(** [w'] differs from [w] in nothing that the tokens or the in-flight
    counter depend on. *)
Definition world_frame (w w' : World) : Prop :=
  cells w' = cells w /\ wraps w' = wraps w /\
  immediates w' = immediates w /\
  active_query_count_ (chan w') = active_query_count_ (chan w) /\
  exists tr, trace w' = trace w ++ tr /\ Forall (fun e => quiet e = true) tr.

End Runs.

(** The signature of the fallback server in the words of the
    specification: IPv4, 127.0.0.1, both ports zero. *)
Definition loopback_with_zero_ports `{SysH} (s : ares_addr_port_node) : Prop :=
  family s = AF_INET /\ take 4 (addr s) = [127; 0; 0; 1] /\
  udp_port s = 0 /\ tcp_port s = 0.

(** The invariant of the registry and the idle timer. *)
Definition registry_ok `{Engine} (c : ChannelWrap) : Prop :=
  NoDup (sock <$> task_list_ c) /\
  (timer_running c = true <-> task_list_ c <> []).

(** An element [[family, ip, port]] of the array given to [SetServers]
    passes the checks of the loop, and its address parses. *)
Definition address_family `{SysH} (fam : Z) : Z :=
  if fam =? 4 then AF_INET else AF_INET6.

Definition entry_well_formed (e : Z * string * Z) : Prop :=
  (e.1.1 = 4 \/ e.1.1 = 6) /\ e.2 <> 0.

Definition entry_parses `{SysH, Uv} (e : Z * string * Z) : Prop :=
  entry_well_formed e /\ (uv_inet_pton (address_family e.1.1) e.1.2).1 = 0.

Definition node_of `{SysH, Uv} (e : Z * string * Z) : ares_addr_port_node :=
  {| family := address_family e.1.1;
     addr := (uv_inet_pton (address_family e.1.1) e.1.2).2;
     udp_port := e.2; tcp_port := e.2 |}.

(** ** A concrete engine, for examples *)

(** The values of [ares.h] of c-ares. *)
Definition cares_h : AresH :=
  {| ARES_SUCCESS := 0; ARES_ENODATA := 1; ARES_EFORMERR := 2;
     ARES_ESERVFAIL := 3; ARES_ENOTFOUND := 4; ARES_ENOTIMP := 5;
     ARES_EREFUSED := 6; ARES_EBADQUERY := 7; ARES_EBADNAME := 8;
     ARES_EBADFAMILY := 9; ARES_EBADRESP := 10; ARES_ECONNREFUSED := 11;
     ARES_ETIMEOUT := 12; ARES_EOF := 13; ARES_EFILE := 14; ARES_ENOMEM := 15;
     ARES_EDESTRUCTION := 16; ARES_EBADSTR := 17; ARES_EBADFLAGS := 18;
     ARES_ENONAME := 19; ARES_EBADHINTS := 20; ARES_ENOTINITIALIZED := 21;
     ARES_ELOADIPHLPAPI := 22; ARES_EADDRGETNETWORKPARAMS := 23;
     ARES_ECANCELLED := 24 |}.

(** The values of the system headers on Linux. *)
Definition linux_h : SysH :=
  {| AF_INET := 2; AF_INET6 := 10; UV_READABLE := 1; UV_WRITABLE := 2;
     UV_EINVAL := -22; ns_t_a := 1; ns_t_ns := 2; ns_t_cname := 5;
     ns_t_soa := 6; ns_t_ptr := 12; ns_t_aaaa := 28; ns_t_any := 255;
     NS_HFIXEDSZ := 12; NS_QFIXEDSZ := 4; NS_RRFIXEDSZ := 10 |}.

(** An engine whose channel is its server list and that accepts every list. *)
Definition list_engine : Engine :=
  {| ares_channel := list ares_addr_port_node;
     ares_get_servers_ports := fun c => c;
     ares_set_servers := fun _ => (0, []);
     ares_set_servers_ports := fun _ servers => (0, servers) |}.

(** Address conversions that know two addresses. *)
Definition two_address_uv : Uv :=
  {| uv_inet_pton := fun af src =>
       if (af =? 2) && bool_decide (src = "127.0.0.1"%string)
       then (0, [127; 0; 0; 1])
       else if (af =? 2) && bool_decide (src = "8.8.8.8"%string)
       then (0, [8; 8; 8; 8])
       else (-22, []);
     uv_inet_ntop := fun af src =>
       if bool_decide (src = [127; 0; 0; 1]) then "127.0.0.1"%string
       else "8.8.8.8"%string |}.

Definition no_host : hostent :=
  {| h_name := None; h_aliases := []; h_addrtype := 0; h_length := 0;
     h_addr_list := [] |}.

(** A decoder that finds no record of any type in any buffer (every name
    it expands is the root name), but for the statuses [mx], [srv] and [ptr]
    that it gives for MX, SRV and PTR records. *)
Definition absent_decoder (mx srv ptr : Z) : Decoder :=
  let none := {| ar_status := 1; ar_host := no_host; ar_ttls := [];
                 ar_naddrttls := 0 |} in
  {| ares_parse_a_reply := fun _ _ _ => none;
     ares_parse_aaaa_reply := fun _ _ _ => none;
     ares_parse_ns_reply := fun _ _ => (1, no_host);
     ares_parse_ptr_reply := fun _ _ => (ptr, no_host);
     ares_parse_mx_reply := fun _ _ => (mx, []);
     ares_parse_caa_reply := fun _ _ => (1, []);
     ares_parse_txt_reply_ext := fun _ _ => (1, []);
     ares_parse_srv_reply := fun _ _ => (srv, []);
     ares_parse_naptr_reply := fun _ _ => (1, []);
     ares_expand_name := fun _ _ _ => (0, ""%string, 1) |}.

(** An answer with no record: the header, the root name and the fixed part
    of the question. *)
Definition empty_answer : list Z := replicate 17 0.

(** A decoder that finds one record of every type in every buffer. *)
Definition sample_decoder : Decoder :=
  let entry name aliases addrs :=
    {| h_name := Some name; h_aliases := aliases; h_addrtype := 2;
       h_length := 4; h_addr_list := addrs |} in
  {| ares_parse_a_reply := fun _ _ _ =>
       {| ar_status := 0;
          ar_host := entry "example.org"%string [] [[127; 0; 0; 1]];
          ar_ttls := [300]; ar_naddrttls := 1 |};
     ares_parse_aaaa_reply := fun _ _ _ =>
       {| ar_status := 0;
          ar_host := entry "example.org"%string [] [[8; 8; 8; 8]];
          ar_ttls := [60]; ar_naddrttls := 1 |};
     ares_parse_ns_reply := fun _ _ =>
       (0, entry "example.org"%string ["ns.example.org"%string] []);
     ares_parse_ptr_reply := fun _ _ =>
       (0, entry "example.org"%string ["ptr.example.org"%string] []);
     ares_parse_mx_reply := fun _ _ =>
       (0, [{| mx_host := "mx.example.org"%string; mx_priority := 10 |}]);
     ares_parse_caa_reply := fun _ _ =>
       (0, [{| caa_critical := 0; caa_property := "issue"%string;
               caa_value := "ca.example.org"%string |}]);
     ares_parse_txt_reply_ext := fun _ _ =>
       (0, [{| txt := "v=spf1"%string; record_start := true |}]);
     ares_parse_srv_reply := fun _ _ =>
       (0, [{| srv_host := "srv.example.org"%string; srv_priority := 1;
               srv_weight := 2; srv_port := 443 |}]);
     ares_parse_naptr_reply := fun _ _ =>
       (0, [{| naptr_flags := "U"%string; naptr_service := "E2U"%string;
               naptr_regexp := ""%string;
               naptr_replacement := "sip.example.org"%string;
               naptr_order := 1; naptr_preference := 2 |}]);
     ares_expand_name := fun _ _ _ => (0, "soa.example.org"%string, 1) |}.

(** An answer with one SOA record: the header with an answer count of 1,
    the question, and a record of type 6 whose data are two names and the
    numbers 1 to 5. *)
Definition soa_answer : list Z :=
  [0; 0; 0; 0; 0; 0; 0; 1; 0; 0; 0; 0] ++ [0] ++ [0; 0; 0; 0] ++
  [0] ++ [0; 6; 0; 1; 0; 0; 0; 0; 0; 22] ++ [0] ++ [0] ++
  [0; 0; 0; 1; 0; 0; 0; 2; 0; 0; 0; 3; 0; 0; 0; 4; 0; 0; 0; 5].

(** The server that c-ares falls back to, and a public one. *)
Definition loopback_server : ares_addr_port_node :=
  {| family := 2; addr := [127; 0; 0; 1]; udp_port := 0; tcp_port := 0 |}.

Definition public_server : ares_addr_port_node :=
  {| family := 2; addr := [8; 8; 8; 8]; udp_port := 53; tcp_port := 53 |}.

#[global] Existing Instances cares_h linux_h list_engine two_address_uv.

(** The engine accepts [Setup] and makes a channel with [servers]. *)
Definition reply_with (servers : list ares_addr_port_node) : setup_reply :=
  {| library_init_r := 0; init_options_r := 0;
     init_options_channel := servers |}.

(** A new channel on that engine. *)
Definition world_with (servers : list ares_addr_port_node) : World :=
  Setup (reply_with servers) (World_new 0).

(** The same after a query that was refused. *)
Definition after_refusal (w : World) : World :=
  set_chan (set_query_last_ok false (chan w)) w.

(** The class [QueryAnyWrap] over a decoder. *)
Definition any_wrap (d : Decoder) : QueryWrapClass :=
  @QueryAnyWrap cares_h linux_h two_address_uv d.

(** A channel with one [resolveAny] query in flight: token 0, object 0. *)
Definition world_in_flight (d : Decoder) : World :=
  match Query (any_wrap d) "example.org" (reply_with [public_server])
              (world_with [public_server]) with
  | Done r => r.2
  | _ => world_with [public_server]
  end.

(** Three reverse lookups, the second of a name that is no address; the
    engine answers the third with a timeout, then the first with a host
    entry; the loop runs both immediates. *)
Definition sample_host : hostent :=
  {| h_name := Some "localhost"%string; h_aliases := ["localhost"%string];
     h_addrtype := 2; h_length := 4; h_addr_list := [[127; 0; 0; 1]] |}.

Definition reverse_lookups : list step :=
  [Dispatch GetHostByAddrWrap "127.0.0.1" (reply_with [public_server]);
   Dispatch GetHostByAddrWrap "localhost" (reply_with [public_server]);
   Dispatch GetHostByAddrWrap "8.8.8.8" (reply_with [public_server]);
   Complete_host 1 12 0 no_host;
   Complete_host 0 0 0 sample_host;
   Immediate; Immediate].

Definition wrap_in_flight (d : Decoder) : QueryWrap :=
  {| wrap_class := any_wrap d; response_data_ := None;
     callback_ptr_ := Some 0%nat |}.


(** The world that a run from [w] ends in, [w] itself when the run does not
    return. *)
Definition run_from (ss : list step) (w : World) : World :=
  match run ss w with
  | Done w' => w'
  | _ => w
  end.

(** ** The callback of a socket watcher *)

(** [uv_timer_again] of libuv, and [ARES_SOCKET_BAD] of [ares.h]. *)
Class Loop := {
  uv_timer_again : uv_timer_t -> uv_timer_t;
  ARES_SOCKET_BAD : Z;
}.

Section PollCallback.
Context `{AresH, SysH, Engine, Loop}.

(** [ares_poll_cb] for the watcher of [task]: the channel with its idle timer
    reset, and the two sockets given to [ares_process_fd].  [uv_timer_again]
    reads through the timer handle, which must not be null. *)
Definition ares_poll_cb (task : node_ares_task) (status events : Z)
    (c : ChannelWrap) : outcome (ChannelWrap * (Z * Z)) :=
  match timer_handle_ c with
  | None => Undefined "uv_timer_again: null handle"
  | Some t =>
      let c := set_timer_handle (Some (uv_timer_again t)) c in
      if status <? 0 then Done (c, (sock task, sock task))
      else
        Done (c,
              (if negb (Z.land events UV_READABLE =? 0)
               then sock task else ARES_SOCKET_BAD,
               if negb (Z.land events UV_WRITABLE =? 0)
               then sock task else ARES_SOCKET_BAD))
  end.

End PollCallback.

(** ** The classes that query one record type *)

(** [arpa/nameser.h] and [ares_nameser.h]: the record types that these
    classes ask for, besides those of [SysH]. *)
Class RecordTypesH := {
  ns_t_mx : Z;
  ns_t_txt : Z;
  ns_t_srv : Z;
  ns_t_naptr : Z;
  T_CAA : Z;
}.

(** [struct ares_soa_reply] *)
Record ares_soa_reply := {
  soa_nsname : string;
  soa_hostqueen : string;
  soa_serial : Z;
  soa_refresh : Z;
  soa_retry : Z;
  soa_expire : Z;
  soa_minttl : Z;
}.

(** [ares_parse_soa_reply]: the status and the record. *)
Class SoaDecoder := {
  ares_parse_soa_reply : list Z -> Z -> Z * ares_soa_reply;
}.

Section RecordTypeWraps.
Context `{AresH, SysH, RecordTypesH, Uv} {decoder : Decoder}
        {soa_decoder : SoaDecoder}.

(** [AddrTTLToArray]; [ttls] are the [ttl] members of the entries of
    [addrttls] that the decoder has written, the entries after them are not
    initialised. *)
Definition AddrTTLToArray (ttls : list Z) (naddrttls : Z) : outcome value :=
  if (naddrttls <? 0) || (Z.of_nat (length ttls) <? naddrttls)
  then Undefined "addrttls[i].ttl: not initialised"
  else Done (Arr (map (fun ttl => Int (to_uint32 ttl))
                      (take (Z.to_nat naddrttls) ttls))).

(** [QueryAWrap::Parse] *)
Definition QueryAWrap_Parse (buf : list Z) (len : Z)
  : outcome (list (list value)) :=
  let naddrttls := 256 in
  let ret := [] in
  r ← ParseGeneralReply buf len ns_t_a ret (Some naddrttls);
  if negb (gr_status r =? ARES_SUCCESS) then ParseError (gr_status r)
  else
    ttls ← AddrTTLToArray (gr_ttls r) (default 0 (gr_naddrttls r));
    Done (CallOnComplete (Arr (gr_ret r)) (Some ttls)).

(** [QueryAaaaWrap::Parse] *)
Definition QueryAaaaWrap_Parse (buf : list Z) (len : Z)
  : outcome (list (list value)) :=
  let naddrttls := 256 in
  let ret := [] in
  r ← ParseGeneralReply buf len ns_t_aaaa ret (Some naddrttls);
  if negb (gr_status r =? ARES_SUCCESS) then ParseError (gr_status r)
  else
    ttls ← AddrTTLToArray (gr_ttls r) (default 0 (gr_naddrttls r));
    Done (CallOnComplete (Arr (gr_ret r)) (Some ttls)).

(** [QueryCaaWrap::Parse] *)
Definition QueryCaaWrap_Parse (buf : list Z) (len : Z)
  : outcome (list (list value)) :=
  let ret := [] in
  let '(status, ret) := ParseCaaReply buf len ret false in
  if negb (status =? ARES_SUCCESS) then ParseError status
  else Done (CallOnComplete (Arr ret) None).

(** [QueryCnameWrap::Parse] *)
Definition QueryCnameWrap_Parse (buf : list Z) (len : Z)
  : outcome (list (list value)) :=
  let ret := [] in
  r ← ParseGeneralReply buf len ns_t_cname ret None;
  if negb (gr_status r =? ARES_SUCCESS) then ParseError (gr_status r)
  else Done (CallOnComplete (Arr (gr_ret r)) None).

(** [QueryMxWrap::Parse] *)
Definition QueryMxWrap_Parse (buf : list Z) (len : Z)
  : outcome (list (list value)) :=
  let mx_records := [] in
  let '(status, mx_records) := ParseMxReply buf len mx_records false in
  if negb (status =? ARES_SUCCESS) then ParseError status
  else Done (CallOnComplete (Arr mx_records) None).

(** [QueryNsWrap::Parse] *)
Definition QueryNsWrap_Parse (buf : list Z) (len : Z)
  : outcome (list (list value)) :=
  let names := [] in
  r ← ParseGeneralReply buf len ns_t_ns names None;
  if negb (gr_status r =? ARES_SUCCESS) then ParseError (gr_status r)
  else Done (CallOnComplete (Arr (gr_ret r)) None).

(** [QueryTxtWrap::Parse] *)
Definition QueryTxtWrap_Parse (buf : list Z) (len : Z)
  : outcome (list (list value)) :=
  let txt_records := [] in
  '(status, txt_records) ← ParseTxtReply buf len txt_records false;
  if negb (status =? ARES_SUCCESS) then ParseError status
  else Done (CallOnComplete (Arr txt_records) None).

(** [QuerySrvWrap::Parse] *)
Definition QuerySrvWrap_Parse (buf : list Z) (len : Z)
  : outcome (list (list value)) :=
  let srv_records := [] in
  let '(status, srv_records) := ParseSrvReply buf len srv_records false in
  if negb (status =? ARES_SUCCESS) then ParseError status
  else Done (CallOnComplete (Arr srv_records) None).

(** [QueryPtrWrap::Parse] *)
Definition QueryPtrWrap_Parse (buf : list Z) (len : Z)
  : outcome (list (list value)) :=
  let aliases := [] in
  r ← ParseGeneralReply buf len ns_t_ptr aliases None;
  if negb (gr_status r =? ARES_SUCCESS) then ParseError (gr_status r)
  else Done (CallOnComplete (Arr (gr_ret r)) None).

(** [QueryNaptrWrap::Parse] *)
Definition QueryNaptrWrap_Parse (buf : list Z) (len : Z)
  : outcome (list (list value)) :=
  let naptr_records := [] in
  let '(status, naptr_records) :=
    ParseNaptrReply buf len naptr_records false in
  if negb (status =? ARES_SUCCESS) then ParseError status
  else Done (CallOnComplete (Arr naptr_records) None).

(** [QuerySoaWrap::Parse] *)
Definition QuerySoaWrap_Parse (buf : list Z) (len : Z)
  : outcome (list (list value)) :=
  let '(status, soa_out) := ares_parse_soa_reply buf len in
  if negb (status =? ARES_SUCCESS) then ParseError status
  else
    let soa_record :=
      Obj [(EnvStr "nsname_string", Str (soa_nsname soa_out));
           (EnvStr "hostqueen_string", Str (soa_hostqueen soa_out));
           (EnvStr "serial_string", Int (to_uint32 (soa_serial soa_out)));
           (EnvStr "refresh_string", Int (to_int32 (soa_refresh soa_out)));
           (EnvStr "retry_string", Int (to_int32 (soa_retry soa_out)));
           (EnvStr "expire_string", Int (to_int32 (soa_expire soa_out)));
           (EnvStr "minttl_string", Int (to_uint32 (soa_minttl soa_out)))] in
    Done (CallOnComplete soa_record None).

(** The classes: each sends through [AresQuery] with its record type and
    does not override [Parse] for a host entry. *)
Definition QueryAWrap : QueryWrapClass :=
  {| class_trace_name := "resolve4";
     class_Send := SendAresQuery ns_t_a;
     class_Parse_buf := QueryAWrap_Parse;
     class_Parse_host := fun _ => CheckFailed "UNREACHABLE" |}.

Definition QueryAaaaWrap : QueryWrapClass :=
  {| class_trace_name := "resolve6";
     class_Send := SendAresQuery ns_t_aaaa;
     class_Parse_buf := QueryAaaaWrap_Parse;
     class_Parse_host := fun _ => CheckFailed "UNREACHABLE" |}.

Definition QueryCaaWrap : QueryWrapClass :=
  {| class_trace_name := "resolveCaa";
     class_Send := SendAresQuery T_CAA;
     class_Parse_buf := QueryCaaWrap_Parse;
     class_Parse_host := fun _ => CheckFailed "UNREACHABLE" |}.

Definition QueryCnameWrap : QueryWrapClass :=
  {| class_trace_name := "resolveCname";
     class_Send := SendAresQuery ns_t_cname;
     class_Parse_buf := QueryCnameWrap_Parse;
     class_Parse_host := fun _ => CheckFailed "UNREACHABLE" |}.

Definition QueryMxWrap : QueryWrapClass :=
  {| class_trace_name := "resolveMx";
     class_Send := SendAresQuery ns_t_mx;
     class_Parse_buf := QueryMxWrap_Parse;
     class_Parse_host := fun _ => CheckFailed "UNREACHABLE" |}.

Definition QueryNsWrap : QueryWrapClass :=
  {| class_trace_name := "resolveNs";
     class_Send := SendAresQuery ns_t_ns;
     class_Parse_buf := QueryNsWrap_Parse;
     class_Parse_host := fun _ => CheckFailed "UNREACHABLE" |}.

Definition QueryTxtWrap : QueryWrapClass :=
  {| class_trace_name := "resolveTxt";
     class_Send := SendAresQuery ns_t_txt;
     class_Parse_buf := QueryTxtWrap_Parse;
     class_Parse_host := fun _ => CheckFailed "UNREACHABLE" |}.

Definition QuerySrvWrap : QueryWrapClass :=
  {| class_trace_name := "resolveSrv";
     class_Send := SendAresQuery ns_t_srv;
     class_Parse_buf := QuerySrvWrap_Parse;
     class_Parse_host := fun _ => CheckFailed "UNREACHABLE" |}.

Definition QueryPtrWrap : QueryWrapClass :=
  {| class_trace_name := "resolvePtr";
     class_Send := SendAresQuery ns_t_ptr;
     class_Parse_buf := QueryPtrWrap_Parse;
     class_Parse_host := fun _ => CheckFailed "UNREACHABLE" |}.

Definition QueryNaptrWrap : QueryWrapClass :=
  {| class_trace_name := "resolveNaptr";
     class_Send := SendAresQuery ns_t_naptr;
     class_Parse_buf := QueryNaptrWrap_Parse;
     class_Parse_host := fun _ => CheckFailed "UNREACHABLE" |}.

Definition QuerySoaWrap : QueryWrapClass :=
  {| class_trace_name := "resolveSoa";
     class_Send := SendAresQuery ns_t_soa;
     class_Parse_buf := QuerySoaWrap_Parse;
     class_Parse_host := fun _ => CheckFailed "UNREACHABLE" |}.

(** The classes that [Initialize] binds to [queryA], ..., [querySoa]. *)
Definition record_type_wraps : list QueryWrapClass :=
  [QueryAWrap; QueryAaaaWrap; QueryCaaWrap; QueryCnameWrap; QueryMxWrap;
   QueryNsWrap; QueryTxtWrap; QuerySrvWrap; QueryPtrWrap; QueryNaptrWrap;
   QuerySoaWrap].

End RecordTypeWraps.

(** ** SetLocalAddress *)

(** What [SetLocalAddress] does, in program order: the calls of
    [ares_set_local_ip4] and [ares_set_local_ip6] on the channel of the
    engine, and the exception it throws. *)
Inductive local_address_call :=
| ares_set_local_ip4_call (local_ip : Z)
| ares_set_local_ip6_call (local_ip6 : list Z)
| THROW_ERR_INVALID_ARG_VALUE (msg : string).

Section SetLocalAddress.
Context `{SysH, Uv}.

(** [SetLocalAddress]; [ip1] is [None] when [args[1]] is undefined. *)
Definition SetLocalAddress (ip0 : string) (ip1 : option string)
  : list local_address_call :=
  let first_call :=
    if (uv_inet_pton AF_INET ip0).1 =? 0 then
      inl (ares_set_local_ip4_call
             (ReadUint32BE (uv_inet_pton AF_INET ip0).2 0), 4)
    else if (uv_inet_pton AF_INET6 ip0).1 =? 0 then
      inl (ares_set_local_ip6_call (take 16 (uv_inet_pton AF_INET6 ip0).2), 6)
    else inr (THROW_ERR_INVALID_ARG_VALUE "Invalid IP address.") in
  match first_call with
  | inr throw => [throw]
  | inl (call0, type0) =>
      match ip1 with
      | Some ip1 =>
          if (uv_inet_pton AF_INET ip1).1 =? 0 then
            if type0 =? 4 then
              [call0;
               THROW_ERR_INVALID_ARG_VALUE "Cannot specify two IPv4 addresses."]
            else
              [call0;
               ares_set_local_ip4_call
                 (ReadUint32BE (uv_inet_pton AF_INET ip1).2 0)]
          else if (uv_inet_pton AF_INET6 ip1).1 =? 0 then
            if type0 =? 6 then
              [call0;
               THROW_ERR_INVALID_ARG_VALUE "Cannot specify two IPv6 addresses."]
            else
              [call0;
               ares_set_local_ip6_call (take 16 (uv_inet_pton AF_INET6 ip1).2)]
          else [call0; THROW_ERR_INVALID_ARG_VALUE "Invalid IP address."]
      | None =>
          if type0 =? 4 then [call0; ares_set_local_ip6_call (replicate 16 0)]
          else [call0; ares_set_local_ip4_call 0]
      end
  end.

End SetLocalAddress.

Definition is_ip4_call (c : local_address_call) : bool :=
  match c with ares_set_local_ip4_call _ => true | _ => false end.

Definition is_ip6_call (c : local_address_call) : bool :=
  match c with ares_set_local_ip6_call _ => true | _ => false end.

(** ** The callback of getaddrinfo *)

(** [struct addrinfo], without its [ai_next] link: the answer of the
    resolver is a [list] of these.  [ai_addr] holds the bytes of [sin_addr]
    or [sin6_addr]. *)
Record addrinfo := {
  ai_family : Z;
  ai_socktype : Z;
  ai_addr : list Z;
}.

(** [SOCK_STREAM] of the socket headers, [UV_EAI_NODATA] of [uv.h], and the
    number that [uv_inet_ntop] returns, whose text is [uv_inet_ntop] of
    [Uv]. *)
Class LookupH := {
  SOCK_STREAM : Z;
  UV_EAI_NODATA : Z;
  uv_inet_ntop_r : Z -> list Z -> Z;
}.

Section AfterGetAddrInfo.
Context `{SysH, Uv, LookupH}.

(** The lambda [add] of [AfterGetAddrInfo], over the list from [p] on;
    [results] is the array filled so far, whose length is [n]. *)
Fixpoint AfterGetAddrInfo_add (want_ipv4 want_ipv6 : bool) (p : list addrinfo)
    (results : list string) : outcome (list string) :=
  match p with
  | [] => Done results
  | p :: ai_next =>
      CHECK (ai_socktype p =? SOCK_STREAM) "p->ai_socktype == SOCK_STREAM";;
      if (want_ipv4 && (ai_family p =? AF_INET))
         || (want_ipv6 && (ai_family p =? AF_INET6)) then
        if negb (uv_inet_ntop_r (ai_family p) (ai_addr p) =? 0)
        then AfterGetAddrInfo_add want_ipv4 want_ipv6 ai_next results
        else AfterGetAddrInfo_add want_ipv4 want_ipv6 ai_next
               (results ++ [uv_inet_ntop (ai_family p) (ai_addr p)])
      else AfterGetAddrInfo_add want_ipv4 want_ipv6 ai_next results
  end.

(** [AfterGetAddrInfo]: the two arguments of the completion hook, the second
    [None] for [Null]. *)
Definition AfterGetAddrInfo (status : Z) (res : list addrinfo) (verbatim : bool)
  : outcome (Z * option (list string)) :=
  if status =? 0 then
    results ← AfterGetAddrInfo_add true verbatim res [];
    results ← (if negb verbatim
               then AfterGetAddrInfo_add false true res results
               else Done results);
    let n := length results in
    Done (if bool_decide (n = 0%nat) then UV_EAI_NODATA else status,
          Some results)
  else Done (status, None).

End AfterGetAddrInfo.

(** ** Predicates of the properties *)

(** An entry of the resolver's answer is of family [fam] and
    [uv_inet_ntop] converts its address. *)
Definition shown `{LookupH} (fam : Z) (p : addrinfo) : Prop :=
  ai_family p = fam /\ uv_inet_ntop_r (ai_family p) (ai_addr p) = 0.

#[global] Instance shown_dec `{LookupH} fam p : Decision (shown fam p).
Proof. unfold shown. apply _. Defined.

Definition address_text `{Uv} (p : addrinfo) : string :=
  uv_inet_ntop (ai_family p) (ai_addr p).

(** An element of the array that [QueryAnyWrap::Parse] hands over names the
    type of its record: it is an object with a property [type]. *)
Definition is_type_string (v : value) : bool :=
  match v with
  | EnvStr name => String.eqb name "type_string"
  | _ => false
  end.

Definition has_type_string (v : value) : bool :=
  match v with
  | Obj props => existsb (fun p => is_type_string p.1) props
  | _ => false
  end.

(** The fragments of a TXT answer, grouped: every group starts a record and
    holds the fragments that continue it. *)
Definition record_groups (groups : list (list ares_txt_ext)) : Prop :=
  Forall (fun g => exists first rest,
            g = first :: rest /\ record_start first = true /\
            Forall (fun e => record_start e = false) rest) groups.

(** The chunk that [ParseTxtReply] makes of a group. *)
Definition chunk_of (g : list ares_txt_ext) : list value :=
  map (fun e => Str (txt e)) g.

(** The objects that wait in the queue of immediates hold the response that
    their completion has captured. *)
Definition responses_captured `{Engine} (w : World) : Prop :=
  forall q, q ∈ immediates w ->
    exists qw d, wraps w !! q = Some qw /\ response_data_ qw = Some d.

(** An event of the lifecycle object [q]: the capture of its response, the
    queueing of its delivery, a call of its completion hook, its deletion. *)
Definition about (q : nat) (e : event) : bool :=
  match e with
  | capture_ev q' _ | SetImmediate_ev q' | MakeCallback_ev q' _ | delete_ev q' =>
      bool_decide (q' = q)
  | _ => false
  end.

Definition is_Immediate `{Engine} (s : step) : bool :=
  match s with Immediate => true | _ => false end.

(** ** More of the concrete engine *)

(** A loop whose [uv_timer_again] restarts a repeating timer with its period
    and leaves any other timer as it is. *)
Definition idle_loop : Loop :=
  {| uv_timer_again := fun t =>
       if timer_repeat t =? 0 then t
       else uv_timer_start (timer_repeat t) (timer_repeat t);
     ARES_SOCKET_BAD := -1 |}.

(** A run of notifications: two sockets opened, the interest in the first
    changed, the second closed. *)
Definition sample_notifications : list (Z * Z * Z * Z) :=
  [(0, 5, 1, 0); (0, 6, 1, 1); (0, 5, 0, 1); (0, 6, 0, 0)].

(** A decoder that finds a TXT answer of two records, the first in two
    fragments, and no record of another type. *)
Definition txt_decoder : Decoder :=
  let none := {| ar_status := 1; ar_host := no_host; ar_ttls := [];
                 ar_naddrttls := 0 |} in
  {| ares_parse_a_reply := fun _ _ _ => none;
     ares_parse_aaaa_reply := fun _ _ _ => none;
     ares_parse_ns_reply := fun _ _ => (1, no_host);
     ares_parse_ptr_reply := fun _ _ => (1, no_host);
     ares_parse_mx_reply := fun _ _ => (1, []);
     ares_parse_caa_reply := fun _ _ => (1, []);
     ares_parse_txt_reply_ext := fun _ _ =>
       (0, [{| txt := "v=spf1 "%string; record_start := true |};
            {| txt := "-all"%string; record_start := false |};
            {| txt := "hello"%string; record_start := true |}]);
     ares_parse_srv_reply := fun _ _ => (1, []);
     ares_parse_naptr_reply := fun _ _ => (1, []);
     ares_expand_name := fun _ _ _ => (0, ""%string, 1) |}.

(** The record types on Linux. *)
Definition linux_record_types : RecordTypesH :=
  {| ns_t_mx := 15; ns_t_txt := 16; ns_t_srv := 33; ns_t_naptr := 35;
     T_CAA := 257 |}.

(** A decoder that finds one SOA record in every buffer. *)
Definition sample_soa_decoder : SoaDecoder :=
  {| ares_parse_soa_reply := fun _ _ =>
       (0, {| soa_nsname := "ns.example.org";
              soa_hostqueen := "root.example.org";
              soa_serial := 2 ^ 32 - 1; soa_refresh := 2 ^ 32 - 1;
              soa_retry := 3; soa_expire := 4; soa_minttl := 5 |}) |}.

(** The values of the headers on Linux, and an [uv_inet_ntop] that converts
    every address of four or of sixteen bytes. *)
Definition stream_lookup : LookupH :=
  {| SOCK_STREAM := 1; UV_EAI_NODATA := -3007;
     uv_inet_ntop_r := fun _ src =>
       if bool_decide (length src = 4%nat) || bool_decide (length src = 16%nat)
       then 0 else -28 |}.

(** Address conversions that know the two loopback addresses. *)
Definition loopback_uv : Uv :=
  {| uv_inet_pton := fun _ _ => (-22, []);
     uv_inet_ntop := fun af src =>
       if bool_decide (src = [127; 0; 0; 1]) then "127.0.0.1"%string
       else if bool_decide (src = replicate 15 0 ++ [1]) then "::1"%string
       else "8.8.8.8"%string |}.

#[global] Existing Instances idle_loop linux_record_types sample_soa_decoder
  stream_lookup.

(** A channel with one reverse lookup in flight: token 0, object 0. *)
Definition reverse_in_flight : World :=
  run_from (take 1 reverse_lookups) (world_with [public_server]).

(** The channel after three reverse lookups, one of them refused by [Send],
    and the completions of the other two, before the loop runs their
    immediates. *)
Definition two_answers : World :=
  run_from (take 5 reverse_lookups) (world_with [public_server]).

(** The channel after the three reverse lookups and the completion of the
    third: its delivery waits in the queue, the first lookup is in flight
    (token 0, object 0). *)
Definition one_answer_waiting : World :=
  run_from (take 4 reverse_lookups) (world_with [public_server]).

(** A reverse lookup that the server refuses: the dispatch, the completion
    with [ARES_ECONNREFUSED], the immediate. *)
Definition refused_lookup : list step :=
  [Dispatch GetHostByAddrWrap "8.8.8.8" (reply_with []);
   Complete_host 0 11 0 no_host; Immediate].

(** The channel after [SetServers] has given it a public server. *)
Definition servers_set : World :=
  match SetServers [(4, "8.8.8.8"%string, 53)] (world_with [loopback_server]) with
  | Done r => r.2
  | _ => world_with [loopback_server]
  end.

(** The answer of a resolver: an IPv6 address, two IPv4 addresses, and an
    entry whose address cannot be converted. *)
Definition sample_addrinfo : list addrinfo :=
  [{| ai_family := 10; ai_socktype := 1; ai_addr := replicate 15 0 ++ [1] |};
   {| ai_family := 2; ai_socktype := 1; ai_addr := [127; 0; 0; 1] |};
   {| ai_family := 2; ai_socktype := 1; ai_addr := [8; 8] |};
   {| ai_family := 2; ai_socktype := 1; ai_addr := [8; 8; 8; 8] |}].

(** * Properties *)

(** ** The task registry and the idle timer *)

Section BridgeProperties.
Context `{AresH, SysH, Engine}.

Lemma timer_period_range (t : Z) : 1 <= timer_period t <= 1000.
Proof.
  unfold timer_period.
  destruct (t =? 0) eqn:E0; simpl.
  - lia.
  - destruct (t <? 0) eqn:E1; simpl; [lia|].
    destruct (t >? 1000) eqn:E2; lia.
Qed.

Lemma timer_period_cases (t : Z) :
  (t = 0 -> timer_period t = 1) /\
  (1 <= t <= 1000 -> timer_period t = t) /\
  (t < 0 \/ 1000 < t -> timer_period t = 1000).
Proof.
  unfold timer_period. repeat split; intros Ht.
  - subst t. reflexivity.
  - destruct (t =? 0) eqn:E0; [lia|].
    destruct (t <? 0) eqn:E1; [lia|]. destruct (t >? 1000) eqn:E2; simpl; lia.
  - destruct (t =? 0) eqn:E0; [lia|].
    destruct (t <? 0) eqn:E1; [reflexivity|].
    destruct (t >? 1000) eqn:E2; simpl; lia.
Qed.

Lemma StartTimer_running (c : ChannelWrap) : timer_running (StartTimer c) = true.
Proof.
  unfold StartTimer, timer_running.
  destruct (timer_handle_ c) as [t|] eqn:Et; simpl; [|reflexivity].
  destruct (uv_is_active t) eqn:Ea; simpl; [|reflexivity].
  rewrite Et. exact Ea.
Qed.

Lemma StartTimer_task_list (c : ChannelWrap) :
  task_list_ (StartTimer c) = task_list_ c.
Proof.
  unfold StartTimer. destruct (timer_handle_ c) as [t|]; [|reflexivity].
  destruct (uv_is_active t); reflexivity.
Qed.

(** C8: whatever [timeout_] is, [StartTimer] either finds the timer running
    and changes nothing, or starts it as a repeating timer whose period lies
    in [1, 1000]: 1 for a configured 0, the configured value when that is in
    range, 1000 for every other value. *)
Theorem StartTimer_arms_clamped_period (c : ChannelWrap) :
  (timer_running c = true /\ StartTimer c = c) \/
  (timer_running c = false /\
   exists p,
     timer_handle_ (StartTimer c)
       = Some {| timer_active := true; timer_timeout := p; timer_repeat := p |} /\
     1 <= p <= 1000 /\
     (timeout_ c = 0 -> p = 1) /\
     (1 <= timeout_ c <= 1000 -> p = timeout_ c) /\
     (timeout_ c < 0 \/ 1000 < timeout_ c -> p = 1000)).
Proof.
  unfold timer_running, StartTimer.
  destruct (timer_handle_ c) as [t|] eqn:Et.
  - destruct (uv_is_active t) eqn:Ea; [left; auto|].
    right. split; [reflexivity|]. exists (timer_period (timeout_ c)).
    split; [reflexivity|]. split; [apply timer_period_range|].
    apply timer_period_cases.
  - right. split; [reflexivity|]. exists (timer_period (timeout_ c)).
    split; [reflexivity|]. split; [apply timer_period_range|].
    apply timer_period_cases.
Qed.


Lemma task_find_None s l :
  task_find s l = None <-> s ∉ sock <$> l.
Proof.
  unfold task_find. induction l as [|a l IH]; simpl.
  - split; [intros _; apply not_elem_of_nil | reflexivity].
  - rewrite not_elem_of_cons. destruct (sock a =? s) eqn:E.
    + split; [discriminate | intros [Hne _]; lia].
    + rewrite IH. split; [intros Hn; split; [lia | assumption] | tauto].
Qed.


Lemma task_erase_sublist s l : sock <$> task_erase s l `sublist_of` sock <$> l.
Proof.
  induction l as [|a l IH]; simpl; [reflexivity|].
  destruct (sock a =? s).
  - by apply sublist_cons.
  - simpl. by apply sublist_skip.
Qed.

Lemma task_erase_NoDup s l :
  NoDup (sock <$> l) -> NoDup (sock <$> task_erase s l).
Proof. intros Hn. eapply sublist_NoDup; [exact Hn | apply task_erase_sublist]. Qed.


Lemma task_poll_start_socks s ev l :
  sock <$> task_poll_start s ev l = sock <$> l.
Proof.
  unfold task_poll_start. induction l as [|a l IH]; simpl; [reflexivity|].
  f_equal; [destruct (sock a =? s); reflexivity | exact IH].
Qed.

Lemma task_insert_socks t l :
  task_find (sock t) l = None ->
  sock <$> task_insert t l = sock t :: (sock <$> l).
Proof. intros Hf. unfold task_insert. rewrite Hf. reflexivity. Qed.

Lemma fmap_not_nil {A B} (f : A -> B) (l : list A) :
  l <> [] <-> f <$> l <> [].
Proof. destruct l; simpl; split; congruence. Qed.

(** While the poll registration succeeds, every notification that returns
    keeps the registry free of duplicates and the timer running exactly when
    the registry is not empty. *)
Lemma ares_sockstate_cb_registry_ok init_r s read write c closing c' closing' :
  0 <= init_r ->
  registry_ok c ->
  ares_sockstate_cb init_r s read write (c, closing) = Done (c', closing') ->
  registry_ok c'.
Proof.
  intros Hinit [Hnd Htimer]. unfold ares_sockstate_cb.
  destruct (negb (read =? 0) || negb (write =? 0)) eqn:Eflags.
  - destruct (task_find s (task_list_ c)) as [t|] eqn:Ef.
    + intros [= <- <-]. unfold registry_ok. simpl.
      rewrite task_poll_start_socks. split; [exact Hnd|].
      unfold timer_running in *. simpl. rewrite Htimer.
      rewrite (fmap_not_nil sock (task_list_ c)).
      rewrite (fmap_not_nil sock (task_poll_start _ _ _)).
      rewrite task_poll_start_socks. reflexivity.
    + unfold ares_task_create.
      destruct (init_r <? 0) eqn:Ei; [lia|].
      intros [= <- <-]. unfold registry_ok. simpl.
      rewrite task_poll_start_socks, StartTimer_task_list.
      rewrite task_insert_socks by (simpl; exact Ef). simpl. split.
      * apply NoDup_cons. split; [by apply task_find_None | exact Hnd].
      * pose proof (StartTimer_running c) as Hr.
        unfold timer_running in *. simpl.
        split; [intros _|intros _; exact Hr].
        rewrite (fmap_not_nil sock), task_poll_start_socks.
        rewrite task_insert_socks by (simpl; exact Ef). discriminate.
  - destruct (task_find s (task_list_ c)) as [t|] eqn:Ef; [|discriminate].
    simpl. case_bool_decide as Hempty.
    + unfold CloseTimer. destruct (timer_handle_ _) eqn:Et.
      * intros [= <- <-]. unfold registry_ok, timer_running. simpl.
        rewrite Hempty. split; [constructor|]. split; [discriminate | congruence].
      * intros [= <- <-]. unfold registry_ok, timer_running. simpl in *.
        rewrite Et, Hempty. split; [constructor|].
        split; [discriminate | congruence].
    + intros [= <- <-]. unfold registry_ok, timer_running in *. simpl in *.
      split; [by apply task_erase_NoDup|].
      split; [intros _; exact Hempty | intros _].
      apply Htimer. intros Hnil. rewrite Hnil in Ef. discriminate.
Qed.

(** Whatever the poll registration returns, the registry never holds two
    tasks for one socket. *)
Lemma ares_sockstate_cb_NoDup init_r s read write c closing c' closing' :
  NoDup (sock <$> task_list_ c) ->
  ares_sockstate_cb init_r s read write (c, closing) = Done (c', closing') ->
  NoDup (sock <$> task_list_ c').
Proof.
  intros Hnd. unfold ares_sockstate_cb.
  destruct (negb (read =? 0) || negb (write =? 0)) eqn:Eflags.
  - destruct (task_find s (task_list_ c)) as [t|] eqn:Ef.
    + intros [= <- <-]. simpl. by rewrite task_poll_start_socks.
    + unfold ares_task_create. destruct (init_r <? 0).
      * intros [= <- <-]. by rewrite StartTimer_task_list.
      * intros [= <- <-]. simpl.
        rewrite task_poll_start_socks, StartTimer_task_list.
        rewrite task_insert_socks by (simpl; exact Ef). simpl.
        apply NoDup_cons. split; [by apply task_find_None | exact Hnd].
  - destruct (task_find s (task_list_ c)) as [t|] eqn:Ef; [|discriminate].
    simpl. case_bool_decide as Hempty.
    + unfold CloseTimer. destruct (timer_handle_ _);
        intros [= <- <-]; simpl; rewrite Hempty; constructor.
    + intros [= <- <-]. simpl. by apply task_erase_NoDup.
Qed.

Lemma registry_ok_new (timeout : Z) : registry_ok (ChannelWrap_new timeout).
Proof.
  split; simpl; [constructor|]. unfold timer_running. simpl.
  split; [discriminate | congruence].
Qed.

(** Through every run of notifications whose poll registrations succeed,
    from a state that keeps the invariant of the registry, every state that
    the run reaches keeps it. *)
Lemma notifications_registry_ok ns c closing c' closing' :
  Forall (fun n => 0 <= n.1.1.1) ns ->
  registry_ok c ->
  notifications ns (c, closing) = Done (c', closing') ->
  registry_ok c'.
Proof.
  revert c closing.
  induction ns as [|[[[init_r s] read] write] ns IH]; intros c closing Hall Hok.
  - by intros [= <- <-].
  - apply Forall_cons in Hall as [Hr Hall]. simpl in Hr. cbn [notifications].
    destruct (ares_sockstate_cb init_r s read write (c, closing))
      as [[c1 closing1]| |] eqn:Ecb; [|discriminate..].
    cbn [mbind outcome_bind]. apply IH; [exact Hall|].
    by eapply ares_sockstate_cb_registry_ok.
Qed.

End BridgeProperties.

Section BridgeClaims.
Context `{AresH, SysH, Engine}.


(** C4, where the code departs from it: on a channel that watches nothing,
    a notification that asks for reads on a socket whose poll registration
    fails returns with the idle timer running and the registry empty; the
    timer callback then fails its own [CHECK], and so does the close
    notification that the engine sends for that socket. *)
Theorem poll_init_failure_leaves_timer_running
    (timeout s init_r' : Z) (closing : list uv_handle) :
  exists c' handle,
    ares_sockstate_cb (-1) s 1 0 (ChannelWrap_new timeout, closing)
      = Done (c', closing) /\
    task_list_ c' = [] /\
    timer_handle_ c' = Some handle /\
    timer_running c' = true /\
    ~ registry_ok c' /\
    AresTimeout handle c' = CheckFailed "false == task_list()->empty()" /\
    ares_sockstate_cb init_r' s 0 0 (c', closing)
      = CheckFailed "When an ares socket is closed we should have a handle for it".
Proof.
  eexists _, _. split; [reflexivity|]. simpl.
  split; [reflexivity|]. split; [reflexivity|]. split; [reflexivity|].
  split; [|split].
  - intros [_ Ht]. apply Ht; reflexivity.
  - unfold AresTimeout. simpl. by rewrite bool_decide_eq_true_2.
  - reflexivity.
Qed.

End BridgeClaims.

(** ** Fallback detection and SetServers *)

Section ChannelClaims.
Context `{AresH, SysH, Engine, Uv}.

Lemma is_fallback_server_spec (s : ares_addr_port_node) :
  is_fallback_server s = true <-> loopback_with_zero_ports s.
Proof.
  unfold is_fallback_server, loopback_with_zero_ports.
  change (htonl INADDR_LOOPBACK) with [127; 0; 0; 1].
  rewrite negb_true_iff, !orb_false_iff, !negb_false_iff, bool_decide_eq_true.
  rewrite !Z.eqb_eq. tauto.
Qed.

(** [Setup] on a channel whose library is initialised. *)
Lemma Setup_inited (rep : setup_reply) (w : World) :
  library_inited_ (chan w) = true ->
  Setup rep w =
    if init_options_r rep =? ARES_SUCCESS then
      set_chan (set_library_inited true
                  (set_channel (Live (init_options_channel rep)) (chan w)))
               (emit (ares_init_options_ev (timeout_ (chan w))) w)
    else
      emit (ThrowError_ev (ToErrorCodeString (init_options_r rep)))
        (emit ares_library_cleanup_ev
           (emit (ares_init_options_ev (timeout_ (chan w))) w)).
Proof.
  intros Hi. unfold Setup. rewrite Hi.
  destruct (init_options_r rep =? ARES_SUCCESS); reflexivity.
Qed.

(** What [ares_destroy] followed by [CloseTimer] leaves. *)
Lemma destroy_and_close (w : World) :
  let w1 := World_CloseTimer (ares_destroy w) in
  is_servers_default_ (chan w1) = is_servers_default_ (chan w) /\
  timer_handle_ (chan w1) = None /\
  library_inited_ (chan w1) = library_inited_ (chan w) /\
  timeout_ (chan w1) = timeout_ (chan w) /\
  channel_ (chan w1) = Destroyed /\
  trace w1 = trace w ++ [ares_destroy_ev].
Proof.
  unfold World_CloseTimer, CloseTimer, ares_destroy. simpl.
  destruct (timer_handle_ (chan w)) eqn:Et; simpl; rewrite ?Et; by repeat split.
Qed.

(** C3, as the code has it: [EnsureServers] does nothing when the last query
    was ok or the servers are not the default ones.  Otherwise, on a live
    channel: with no server it does nothing; with more than one server, or
    one that is not 127.0.0.1 over IPv4 with both ports zero, it sets
    [is_servers_default_] to false and changes nothing else; with exactly
    that server it destroys the channel, closes the timer and runs [Setup],
    which makes a new channel when [ares_init_options] succeeds. *)
Theorem EnsureServers_cases (rep : setup_reply) (w : World) :
  (query_last_ok_ (chan w) = true \/ is_servers_default_ (chan w) = false ->
   EnsureServers rep w = Done w) /\
  (forall c,
     query_last_ok_ (chan w) = false ->
     is_servers_default_ (chan w) = true ->
     channel_ (chan w) = Live c ->
     match ares_get_servers_ports c with
     | [] => EnsureServers rep w = Done w
     | [s] =>
         (~ loopback_with_zero_ports s ->
          EnsureServers rep w
          = Done (set_chan (set_is_servers_default false (chan w)) w)) /\
         (loopback_with_zero_ports s ->
          exists w',
            EnsureServers rep w = Done w' /\
            is_servers_default_ (chan w') = true /\
            timer_handle_ (chan w') = None /\
            (library_inited_ (chan w) = true ->
             if init_options_r rep =? ARES_SUCCESS then
               channel_ (chan w') = Live (init_options_channel rep) /\
               trace w' = trace w ++ [ares_destroy_ev;
                                      ares_init_options_ev (timeout_ (chan w))]
             else
               channel_ (chan w') = Destroyed /\
               trace w' = trace w ++
                 [ares_destroy_ev; ares_init_options_ev (timeout_ (chan w));
                  ares_library_cleanup_ev;
                  ThrowError_ev (ToErrorCodeString (init_options_r rep))]))
     | _ :: _ :: _ =>
         EnsureServers rep w
         = Done (set_chan (set_is_servers_default false (chan w)) w)
     end).
Proof.
  split.
  - intros Hskip. unfold EnsureServers.
    destruct Hskip as [-> | ->]; [reflexivity|].
    by rewrite orb_true_r.
  - intros c Hok Hdef Hlive. unfold EnsureServers.
    rewrite Hok, Hdef, Hlive. simpl.
    destruct (ares_get_servers_ports c) as [|s [|s' l]]; [reflexivity| |reflexivity].
    split.
    + intros Hs. destruct (is_fallback_server s) eqn:Es; [|reflexivity].
      by apply is_fallback_server_spec in Es.
    + intros Hs. apply is_fallback_server_spec in Hs. rewrite Hs. simpl.
      eexists. split; [reflexivity|].
      assert (Hsame :
        forall w0 : World,
          is_servers_default_ (chan (Setup rep w0))
            = is_servers_default_ (chan w0) /\
          timer_handle_ (chan (Setup rep w0)) = timer_handle_ (chan w0)).
      { intros w0. unfold Setup.
        destruct (library_inited_ (chan w0));
          [|destruct (negb (library_init_r rep =? ARES_SUCCESS)); [by simpl|]];
          simpl; destruct (negb (init_options_r rep =? ARES_SUCCESS)); by simpl. }
      destruct (Hsame (World_CloseTimer (ares_destroy w))) as [-> ->].
      destruct (destroy_and_close w) as (Hd & Ht & Hi' & Hto & Hch & Htr).
      rewrite Hd, Ht. split; [exact Hdef|]. split; [reflexivity|].
      intros Hi. rewrite Setup_inited by (by rewrite Hi').
      destruct (init_options_r rep =? ARES_SUCCESS); simpl;
        rewrite Htr, Hto, <- ?(assoc_L (++)); simpl; [by split|].
      by rewrite Hch.
Qed.

(** C7: while queries are in flight, [SetServers] returns
    [DNS_ESETSRVPENDING] and the world is as it was, the channel of the
    engine and its server list included; on a header whose status codes are
    not negative, that code is none of the codes of the engine, and
    [ToErrorCodeString] has no name for it. *)
Theorem SetServers_pending (arr : list (Z * string * Z)) (w : World) :
  active_query_count_ (chan w) <> 0 ->
  Forall (Z.le 0) engine_codes ->
  SetServers arr w = Done (DNS_ESETSRVPENDING, w) /\
  (DNS_ESETSRVPENDING ∉ engine_codes) /\
  ToErrorCodeString DNS_ESETSRVPENDING = "UNKNOWN_ARES_ERROR"%string.
Proof.
  intros Hcount Hcodes. split; [|split].
  - unfold SetServers.
    destruct (active_query_count_ (chan w) =? 0) eqn:E; [lia|reflexivity].
  - intros Hin. rewrite Forall_forall in Hcodes.
    specialize (Hcodes _ Hin). unfold DNS_ESETSRVPENDING in Hcodes. lia.
  - unfold engine_codes in Hcodes.
    repeat match goal with
           | Hc : Forall _ (_ :: _) |- _ =>
               apply Forall_cons in Hc as [? Hc]
           end.
    unfold ToErrorCodeString, DNS_ESETSRVPENDING.
    repeat match goal with
           | |- context [?a =? ?b] =>
               destruct (a =? b) eqn:?; [lia|]
           end.
    reflexivity.
Qed.

Lemma SetServers_loop_parses arr acc :
  Forall entry_parses arr ->
  SetServers_loop arr acc = Done (0, acc ++ map node_of arr).
Proof.
  revert acc. induction arr as [|[[fam ip] port] arr IH]; intros acc Hall.
  - simpl. by rewrite app_nil_r.
  - apply Forall_cons in Hall as [[[Hfam Hport] Hp] Hall].
    simpl in Hfam, Hport, Hp. unfold address_family in Hp. simpl.
    destruct (fam =? 0) eqn:E0; [lia|]. simpl.
    destruct (port =? 0) eqn:Ep; [lia|]. simpl.
    destruct (fam =? 4) eqn:E4; simpl.
    + rewrite Hp. simpl. rewrite IH by exact Hall.
      rewrite <- (assoc_L (++)). unfold node_of, address_family. simpl.
      by rewrite E4.
    + destruct (fam =? 6) eqn:E6; [|lia]. simpl.
      rewrite Hp. simpl. rewrite IH by exact Hall.
      rewrite <- (assoc_L (++)). unfold node_of, address_family. simpl.
      by rewrite E4.
Qed.

Lemma SetServers_loop_Done arr acc err servers :
  SetServers_loop arr acc = Done (err, servers) ->
  (err = 0 /\ Forall entry_parses arr /\ servers = acc ++ map node_of arr) \/
  (err <> 0 /\ Exists (fun e => ~ entry_parses e) arr).
Proof.
  revert acc. induction arr as [|[[fam ip] port] arr IH]; intros acc; simpl.
  - intros [= <- <-]. left. by rewrite app_nil_r.
  - destruct (fam =? 0) eqn:E0; [discriminate|]. simpl.
    destruct (port =? 0) eqn:Ep; [discriminate|]. simpl.
    assert (Hstep : forall af,
      af = address_family fam -> fam = 4 \/ fam = 6 ->
      (if negb ((uv_inet_pton af ip).1 =? 0)
       then Done ((uv_inet_pton af ip).1, acc)
       else SetServers_loop arr
              (acc ++ [{| family := af; addr := (uv_inet_pton af ip).2;
                          udp_port := port; tcp_port := port |}]))
      = Done (err, servers) ->
      (err = 0 /\ Forall entry_parses ((fam, ip, port) :: arr) /\
       servers = acc ++ map node_of ((fam, ip, port) :: arr)) \/
      (err <> 0 /\ Exists (fun e => ~ entry_parses e) ((fam, ip, port) :: arr))).
    { intros af -> Hfam.
      destruct ((uv_inet_pton (address_family fam) ip).1 =? 0) eqn:Er; simpl.
      - intros Hrest. apply IH in Hrest as [(-> & Hall & ->) | (Hne & Hex)].
        + left. split; [reflexivity|]. split.
          * apply Forall_cons. split; [|exact Hall].
            split; [split; simpl; [exact Hfam | lia] | simpl; lia].
          * by rewrite <- (assoc_L (++)).
        + right. split; [exact Hne | by apply Exists_cons_tl].
      - intros [= <- <-]. right. split; [lia|].
        apply Exists_cons_hd. intros [_ Hp]. simpl in Hp. lia. }
    destruct (fam =? 4) eqn:E4; simpl.
    + apply Hstep; [unfold address_family; by rewrite E4 | lia].
    + destruct (fam =? 6) eqn:E6; [|discriminate]. simpl.
      apply Hstep; [unfold address_family; by rewrite E4 | lia].
Qed.

Lemma SetServers_loop_total arr acc :
  Forall entry_well_formed arr ->
  exists r, SetServers_loop arr acc = Done r.
Proof.
  revert acc. induction arr as [|[[fam ip] port] arr IH]; intros acc Hall; simpl.
  - by eexists.
  - apply Forall_cons in Hall as [[Hfam Hport] Hall]. simpl in Hfam, Hport.
    destruct (fam =? 0) eqn:E0; [lia|]. simpl.
    destruct (port =? 0) eqn:Ep; [lia|]. simpl.
    destruct (fam =? 4) eqn:E4; simpl.
    + destruct (negb _); [by eexists | by apply IH].
    + destruct (fam =? 6) eqn:E6; [|lia]. simpl.
      destruct (negb _); [by eexists | by apply IH].
Qed.

(** C10: a call of [SetServers] that returns leaves [is_servers_default_] as
    it was, unless the array is not empty, every element of it parsed and
    the engine accepted the list made of them: only then is the flag set to
    false.  On a live channel with no query in flight the call returns for
    every array whose elements have family 4 or 6 and a port that is not
    zero. *)
Theorem SetServers_is_servers_default (arr : list (Z * string * Z)) (w : World) :
  ARES_EBADSTR <> ARES_SUCCESS ->
  (forall rv w',
     SetServers arr w = Done (rv, w') ->
     is_servers_default_ (chan w') = is_servers_default_ (chan w) \/
     (is_servers_default_ (chan w') = false /\
      rv = ARES_SUCCESS /\
      arr <> [] /\
      Forall entry_parses arr /\
      exists c, channel_ (chan w) = Live c /\
                (ares_set_servers_ports c (map node_of arr)).1 = ARES_SUCCESS)) /\
  (forall c,
     active_query_count_ (chan w) = 0 ->
     channel_ (chan w) = Live c ->
     Forall entry_well_formed arr ->
     exists rv w', SetServers arr w = Done (rv, w')).
Proof.
  intros Hbadstr. split.
  - intros rv w'. unfold SetServers.
    destruct (negb (active_query_count_ (chan w) =? 0)); [intros [= <- <-]; by left|].
    destruct (channel_ (chan w)) as [|c|] eqn:Ec; [discriminate| |discriminate].
    destruct arr as [|e arr].
    { destruct (ares_set_servers c) as [rv0 c0]. intros [= <- <-]. by left. }
    destruct (SetServers_loop (e :: arr) []) as [[err servers]| |] eqn:El;
      [|discriminate|discriminate].
    cbn [mbind outcome_bind].
    apply SetServers_loop_Done in El as [(-> & Hall & ->) | (Hne & _)].
    + rewrite app_nil_l, Z.eqb_refl.
      destruct (ares_set_servers_ports c (map node_of (e :: arr)))
        as [r c1] eqn:Eset.
      destruct (r =? ARES_SUCCESS) eqn:Er.
      * intros [= <- <-]. right.
        split; [reflexivity|]. split; [lia|]. split; [discriminate|].
        split; [exact Hall|]. exists c. split; [reflexivity|].
        rewrite Eset. simpl. lia.
      * intros [= <- <-]. by left.
    + destruct (err =? 0) eqn:E0; [lia|].
      destruct (ARES_EBADSTR =? ARES_SUCCESS) eqn:Eb; [lia|].
      intros [= <- <-]. by left.
  - intros c Hcount Hlive Hwf. unfold SetServers.
    rewrite Hcount, Hlive. simpl.
    destruct arr as [|e arr].
    { destruct (ares_set_servers c). by eexists _, _. }
    destruct (SetServers_loop_total (e :: arr) [] Hwf) as [[err servers] ->].
    cbn [mbind outcome_bind].
    destruct (if err =? 0 then _ else _) as [err' c']. by eexists _, _.
Qed.

End ChannelClaims.

(** ** The callback token and the delivery of a response *)

Section LifecycleClaims.
Context `{AresH, SysH, Engine, Uv}.

Lemma FromCallbackPointer_dead (l : nat) (w : World) :
  cells w !! l = Some None ->
  FromCallbackPointer l w = Done (None, set_cells (delete l (cells w)) w).
Proof. intros Hl. unfold FromCallbackPointer. by rewrite Hl. Qed.

Lemma FromCallbackPointer_live (l q : nat) (qw : QueryWrap) (w : World) :
  cells w !! l = Some (Some q) ->
  wraps w !! q = Some qw ->
  FromCallbackPointer l w
  = Done (Some q,
          set_cells (delete l (cells w))
            (set_wraps (<[q := set_callback_ptr None qw]> (wraps w)) w)).
Proof. intros Hl Hq. unfold FromCallbackPointer. by rewrite Hl, Hq. Qed.

Lemma QueueResponseCallback_Done (q : nat) (status : Z) (w : World) :
  1 <= active_query_count_ (chan w) ->
  QueueResponseCallback q status w
  = Done (set_chan
            (set_active_query_count (active_query_count_ (chan w) + -1)
               (set_query_last_ok (negb (status =? ARES_ECONNREFUSED)) (chan w)))
            (emit (ModifyActivityQueryCount_ev (-1))
               (emit (set_query_last_ok_ev (negb (status =? ARES_ECONNREFUSED)))
                  (emit (SetImmediate_ev q)
                     (set_immediates (immediates w ++ [q]) w))))).
Proof.
  intros Hc. unfold QueueResponseCallback, ModifyActivityQueryCount, CHECK. simpl.
  destruct (0 <=? active_query_count_ (chan w) + -1) eqn:E; [reflexivity|lia].
Qed.

(** The completion of a query whose lifecycle object is alive. *)
Lemma Callback_buf_live l q qw status timeouts answer len (w : World) :
  cells w !! l = Some (Some q) ->
  wraps w !! q = Some qw ->
  Callback_buf l status timeouts answer len w
  = QueueResponseCallback q status
      (emit (capture_ev q status)
         (set_wraps
            (<[q := set_response_data
                      (Some (buf_response status answer len))
                      (set_callback_ptr None qw)]> (wraps w))
            (set_cells (delete l (cells w)) w))).
Proof.
  intros Hl Hq. unfold Callback_buf.
  rewrite (FromCallbackPointer_live l q qw) by assumption.
  cbn [mbind outcome_bind]. unfold store_response. simpl.
  rewrite lookup_insert_eq. cbn [mbind outcome_bind]. simpl.
  by rewrite insert_insert_eq.
Qed.

Lemma QueryWrap_delete_no_token (q : nat) (qw : QueryWrap) (w : World) :
  wraps w !! q = Some qw ->
  callback_ptr_ qw = None ->
  QueryWrap_delete q w
  = Done (emit (delete_ev q) (set_wraps (delete q (wraps w)) w)).
Proof. intros Hq Hp. unfold QueryWrap_delete. by rewrite Hq, Hp. Qed.

Lemma emit_calls_trace (q : nat) (calls : list (list value)) (w : World) :
  let w' := foldl (fun w argv => emit (MakeCallback_ev q argv) w) w calls in
  trace w' = trace w ++ (MakeCallback_ev q <$> calls) /\
  chan w' = chan w /\ cells w' = cells w /\ wraps w' = wraps w /\
  immediates w' = immediates w /\ closing w' = closing w.
Proof.
  revert w. induction calls as [|argv calls IH]; intros w; simpl.
  - by rewrite app_nil_r.
  - destruct (IH (emit (MakeCallback_ev q argv) w)) as (-> & -> & -> & -> & -> & ->).
    simpl. by rewrite <- (assoc_L (++)).
Qed.

End LifecycleClaims.

Section OrderClaims.
Context `{AresH, SysH, Engine, Uv}.

(** The loop runs the immediate of [q], the first of the queue: the calls
    that [deliver] makes go to the completion hook, then [q] is deleted. *)
Lemma run_immediate_head (w : World) (q : nat) (rest : list nat)
    (qw : QueryWrap) (d : ResponseData) (calls : list (list value)) :
  immediates w = q :: rest ->
  wraps w !! q = Some qw ->
  response_data_ qw = Some d ->
  callback_ptr_ qw = None ->
  deliver (wrap_class qw) d = Done calls ->
  run_immediate w
  = Done (emit (delete_ev q)
            (set_wraps (delete q (wraps w))
               (foldl (fun w argv => emit (MakeCallback_ev q argv) w)
                      (set_immediates rest w) calls))).
Proof.
  intros Hi Hq Hd Hp Hdel. unfold run_immediate. rewrite Hi.
  unfold AfterResponse. simpl. rewrite Hq, Hd, Hdel. cbn [mbind outcome_bind].
  destruct (emit_calls_trace q calls (set_immediates rest w))
    as (Ht & Hc & Hce & Hw & Him & Hcl).
  rewrite (QueryWrap_delete_no_token q qw)
    by first [by rewrite Hw | assumption].
  by rewrite Hw.
Qed.

End OrderClaims.

(** ** The in-flight counter *)

Section CounterClaims.
Context `{AresH, SysH, Engine, Uv}.

Lemma count_events_app (p : event -> bool) (l1 l2 : list event) :
  count_events p (l1 ++ l2) = count_events p l1 + count_events p l2.
Proof. unfold count_events. rewrite filter_app, length_app. lia. Qed.

Lemma count_events_single (p : event -> bool) (e : event) :
  count_events p [e] = if p e then 1 else 0.
Proof.
  unfold count_events.
  rewrite filter_cons, filter_nil. destruct (p e); by case_decide.
Qed.

Lemma count_events_snoc (p : event -> bool) (tr : list event) (e : event) :
  count_events p (tr ++ [e]) = count_events p tr + (if p e then 1 else 0).
Proof. by rewrite count_events_app, count_events_single. Qed.

Lemma count_events_none (p : event -> bool) (tr : list event) :
  Forall (fun e => p e = false) tr -> count_events p tr = 0.
Proof.
  unfold count_events. induction 1 as [|e tr He _ IH]; [reflexivity|].
  rewrite filter_cons. case_decide; [congruence | exact IH].
Qed.

Lemma quiet_counts (tr : list event) :
  Forall (fun e => quiet e = true) tr ->
  count_events is_sent tr = 0 /\ count_events is_capture tr = 0 /\
  count_events is_increment tr = 0 /\ count_events is_decrement tr = 0.
Proof.
  intros Hq.
  repeat split; apply count_events_none; eapply Forall_impl; try exact Hq;
    intros e; unfold quiet; rewrite negb_true_iff, !orb_false_iff; tauto.
Qed.

Lemma world_frame_refl (w : World) : world_frame w w.
Proof.
  repeat split. exists []. split; [by rewrite app_nil_r | constructor].
Qed.

Lemma world_frame_emit (e : event) (w w' : World) :
  quiet e = true -> world_frame w w' -> world_frame w (emit e w').
Proof.
  intros He (Hc & Hw & Hi & Hn & tr & Ht & Hq). repeat split; try done.
  exists (tr ++ [e]). simpl. split; [by rewrite Ht, (assoc_L (++))|].
  apply Forall_app. split; [exact Hq | by constructor].
Qed.

Lemma Setup_frame (rep : setup_reply) (w : World) : world_frame w (Setup rep w).
Proof.
  unfold Setup. destruct (library_inited_ (chan w)).
  - destruct (negb (init_options_r rep =? ARES_SUCCESS)).
    + repeat apply world_frame_emit; try reflexivity. apply world_frame_refl.
    + destruct (world_frame_emit (ares_init_options_ev (timeout_ (chan w))) w w
                  eq_refl (world_frame_refl w)) as (? & ? & ? & ? & ?).
      by repeat split.
  - destruct (negb (library_init_r rep =? ARES_SUCCESS)).
    + repeat apply world_frame_emit; try reflexivity. apply world_frame_refl.
    + destruct (negb (init_options_r rep =? ARES_SUCCESS)).
      * repeat apply world_frame_emit; try reflexivity. apply world_frame_refl.
      * assert (Hf : world_frame w
          (emit (ares_init_options_ev (timeout_ (chan (emit ares_library_init_ev w))))
             (emit ares_library_init_ev w)))
          by (repeat apply world_frame_emit; try reflexivity;
              apply world_frame_refl).
        destruct Hf as (? & ? & ? & ? & ?). by repeat split.
Qed.

Lemma world_frame_trans (w1 w2 w3 : World) :
  world_frame w1 w2 -> world_frame w2 w3 -> world_frame w1 w3.
Proof.
  intros (Hc & Hw & Hi & Hn & tr & Ht & Hq) (Hc' & Hw' & Hi' & Hn' & tr' & Ht' & Hq').
  repeat split; try congruence.
  exists (tr ++ tr'). split; [by rewrite Ht', Ht, (assoc_L (++))|].
  by apply Forall_app.
Qed.

Lemma EnsureServers_frame (rep : setup_reply) (w w' : World) :
  EnsureServers rep w = Done w' -> world_frame w w'.
Proof.
  unfold EnsureServers.
  destruct (query_last_ok_ (chan w) || negb (is_servers_default_ (chan w)));
    [intros [= <-]; apply world_frame_refl|].
  destruct (channel_ (chan w)) as [|c|]; [discriminate| |discriminate].
  assert (Hflag : world_frame w
            (set_chan (set_is_servers_default false (chan w)) w))
    by (repeat split; exists []; split; [by rewrite app_nil_r | constructor]).
  destruct (ares_get_servers_ports c) as [|s [|s' ss]];
    [intros [= <-]; apply world_frame_refl | | by intros [= <-]].
  destruct (negb (is_fallback_server s)); [by intros [= <-]|].
  intros [= <-]. eapply world_frame_trans; [|apply Setup_frame].
  unfold World_CloseTimer, CloseTimer, ares_destroy. simpl.
  destruct (timer_handle_ (chan w)); simpl;
    (repeat split; exists [ares_destroy_ev]; split; [done | by repeat constructor]).
Qed.

Lemma lifecycle_inv_frame (w w' : World) :
  lifecycle_inv w -> world_frame w w' -> lifecycle_inv w'.
Proof.
  intros (I1 & I2 & I3 & I4 & I5 & I6 & I7) (Hc & Hw & Hi & Hn & tr & Ht & Hq).
  destruct (quiet_counts tr Hq) as (Q1 & Q2 & Q3 & Q4).
  unfold lifecycle_inv. rewrite Hc, Hw, Hi, Hn, Ht, !count_events_app.
  repeat split; try assumption; lia.
Qed.

Lemma lifecycle_inv_same (w w' : World) :
  lifecycle_inv w ->
  cells w' = cells w -> wraps w' = wraps w -> immediates w' = immediates w ->
  active_query_count_ (chan w') = active_query_count_ (chan w) ->
  count_events is_sent (trace w') - count_events is_capture (trace w')
    = count_events is_sent (trace w) - count_events is_capture (trace w) ->
  count_events is_increment (trace w') - count_events is_decrement (trace w')
    = count_events is_increment (trace w)
      - count_events is_decrement (trace w) ->
  lifecycle_inv w'.
Proof.
  intros (I1 & I2 & I3 & I4 & I5 & I6 & I7) Hc Hw Hi Hn Hs Hd.
  unfold lifecycle_inv. rewrite Hc, Hw, Hi, Hn.
  repeat split; try assumption; lia.
Qed.

Lemma lifecycle_inv_alloc (w w' : World) (q l : nat) (qw : QueryWrap) :
  lifecycle_inv w ->
  wraps w !! q = None -> cells w !! l = None -> callback_ptr_ qw = Some l ->
  cells w' = <[l := Some q]> (cells w) ->
  wraps w' = <[q := qw]> (wraps w) ->
  immediates w' = immediates w ->
  active_query_count_ (chan w') = active_query_count_ (chan w) + 1 ->
  count_events is_sent (trace w') = count_events is_sent (trace w) + 1 ->
  count_events is_capture (trace w') = count_events is_capture (trace w) ->
  count_events is_increment (trace w')
    = count_events is_increment (trace w) + 1 ->
  count_events is_decrement (trace w') = count_events is_decrement (trace w) ->
  lifecycle_inv w'.
Proof.
  intros (I1 & I2 & I3 & I4 & I5 & I6 & I7) Hq Hl Hp Hc Hw Hi Hn Hs Hca Hin Hde.
  unfold lifecycle_inv. rewrite Hc, Hw, Hi, Hn, Hs, Hca, Hin, Hde.
  split; [rewrite map_size_insert_None by exact Hl; lia|].
  split; [lia|]. split; [lia|]. split; [|split; [|split; [|exact I7]]].
  - intros l0 v. destruct (decide (l0 = l)) as [->|Hne].
    + rewrite lookup_insert_eq. intros [= <-]. exists q, qw.
      by rewrite lookup_insert_eq.
    + rewrite lookup_insert_ne by done. intros Hl0.
      destruct (I4 _ _ Hl0) as (q0 & qw0 & -> & Hq0 & Hp0).
      exists q0, qw0. rewrite lookup_insert_ne by congruence. done.
  - intros q0 qw0 l0. destruct (decide (q0 = q)) as [->|Hne].
    + rewrite lookup_insert_eq. intros [= <-] Hp0.
      assert (l0 = l) as -> by congruence. by rewrite lookup_insert_eq.
    + rewrite lookup_insert_ne by done. intros Hq0 Hp0.
      pose proof (I5 _ _ _ Hq0 Hp0) as Hl0.
      rewrite lookup_insert_ne by congruence. exact Hl0.
  - intros q0 Hq0. destruct (I6 _ Hq0) as (qw0 & Hw0 & Hp0).
    exists qw0. rewrite lookup_insert_ne by congruence. done.
Qed.

Lemma lifecycle_inv_consume (w w' : World) (q l : nat) (qw qw' : QueryWrap) :
  lifecycle_inv w ->
  cells w !! l = Some (Some q) -> wraps w !! q = Some qw ->
  callback_ptr_ qw' = None ->
  cells w' = delete l (cells w) ->
  wraps w' = <[q := qw']> (wraps w) ->
  immediates w' = immediates w ++ [q] ->
  active_query_count_ (chan w') = active_query_count_ (chan w) - 1 ->
  count_events is_sent (trace w') = count_events is_sent (trace w) ->
  count_events is_capture (trace w') = count_events is_capture (trace w) + 1 ->
  count_events is_increment (trace w') = count_events is_increment (trace w) ->
  count_events is_decrement (trace w')
    = count_events is_decrement (trace w) + 1 ->
  lifecycle_inv w'.
Proof.
  intros (I1 & I2 & I3 & I4 & I5 & I6 & I7) Hl Hq Hp Hc Hw Hi Hn Hs Hca Hin Hde.
  assert (Hback : callback_ptr_ qw = Some l).
  { destruct (I4 _ _ Hl) as (q0 & qw0 & [= <-] & Hq0 & Hp0). congruence. }
  assert (Hsize : (0 < size (cells w))%nat).
  { destruct (decide (size (cells w) = 0%nat)) as [E|]; [|lia].
    apply map_size_empty_iff in E. rewrite E in Hl. by rewrite lookup_empty in Hl. }
  unfold lifecycle_inv. rewrite Hc, Hw, Hi, Hn, Hs, Hca, Hin, Hde.
  split; [rewrite map_size_delete_Some by (by rewrite Hl); lia|].
  split; [lia|]. split; [lia|]. split; [|split; [|split]].
  - intros l0 v. destruct (decide (l0 = l)) as [->|Hne].
    + by rewrite lookup_delete_eq.
    + rewrite lookup_delete_ne by done. intros Hl0.
      destruct (I4 _ _ Hl0) as (q0 & qw0 & -> & Hq0 & Hp0).
      exists q0, qw0. rewrite lookup_insert_ne by congruence. done.
  - intros q0 qw0 l0. destruct (decide (q0 = q)) as [->|Hne].
    + rewrite lookup_insert_eq. intros [= <-]. congruence.
    + rewrite lookup_insert_ne by done. intros Hq0 Hp0.
      pose proof (I5 _ _ _ Hq0 Hp0) as Hl0.
      rewrite lookup_delete_ne by congruence. exact Hl0.
  - intros q0 [Hq0 | ->%list_elem_of_singleton]%elem_of_app.
    + destruct (I6 _ Hq0) as (qw0 & Hw0 & Hp0).
      destruct (decide (q0 = q)) as [->|Hne].
      * exists qw'. by rewrite lookup_insert_eq.
      * exists qw0. by rewrite lookup_insert_ne.
    + exists qw'. by rewrite lookup_insert_eq.
  - apply NoDup_app. split; [exact I7|]. split; [|apply NoDup_singleton].
    intros q0 Hq0 ->%list_elem_of_singleton.
    destruct (I6 _ Hq0) as (qw0 & Hw0 & Hp0). congruence.
Qed.

Lemma lifecycle_inv_release (w w' : World) (q : nat) (rest : list nat) :
  lifecycle_inv w ->
  immediates w = q :: rest ->
  cells w' = cells w ->
  wraps w' = delete q (wraps w) ->
  immediates w' = rest ->
  active_query_count_ (chan w') = active_query_count_ (chan w) ->
  count_events is_sent (trace w') = count_events is_sent (trace w) ->
  count_events is_capture (trace w') = count_events is_capture (trace w) ->
  count_events is_increment (trace w') = count_events is_increment (trace w) ->
  count_events is_decrement (trace w') = count_events is_decrement (trace w) ->
  lifecycle_inv w'.
Proof.
  intros (I1 & I2 & I3 & I4 & I5 & I6 & I7) Himm Hc Hw Hi Hn Hs Hca Hin Hde.
  rewrite Himm in I6, I7. apply NoDup_cons in I7 as [Hnotin Hnd].
  destruct (I6 q ltac:(left)) as (qw & Hq & Hp).
  unfold lifecycle_inv. rewrite Hc, Hw, Hi, Hn, Hs, Hca, Hin, Hde.
  do 3 (split; [assumption|]). split; [|split; [|split; [|exact Hnd]]].
  - intros l0 v Hl0. destruct (I4 _ _ Hl0) as (q0 & qw0 & -> & Hq0 & Hp0).
    exists q0, qw0. rewrite lookup_delete_ne by congruence. done.
  - intros q0 qw0 l0 [Hne Hq0]%lookup_delete_Some Hp0. by eapply I5.
  - intros q0 Hq0. destruct (I6 q0 ltac:(by right)) as (qw0 & Hw0 & Hp0).
    exists qw0. rewrite lookup_delete_ne by (intros ->; done). done.
Qed.

Lemma MakeCallbackPointer_Done (q : nat) (qw : QueryWrap) (w : World) :
  wraps w !! q = Some qw ->
  callback_ptr_ qw = None ->
  MakeCallbackPointer q w
  = Done (fresh (dom (cells w)),
          set_wraps
            (<[q := set_callback_ptr (Some (fresh (dom (cells w)))) qw]> (wraps w))
            (set_cells (<[fresh (dom (cells w)) := Some q]> (cells w)) w)).
Proof.
  intros Hq Hp. unfold MakeCallbackPointer. rewrite Hq, Hp. reflexivity.
Qed.

Lemma EnsureServers_no_check (rep : setup_reply) (w : World) (msg : string) :
  EnsureServers rep w <> CheckFailed msg.
Proof.
  unfold EnsureServers.
  destruct (_ || _); [done|].
  destruct (channel_ (chan w)); [done| |done].
  destruct (ares_get_servers_ports _) as [|s [|s' ss]]; [done| |done].
  by destruct (negb _).
Qed.

Lemma fresh_cell (w : World) : cells w !! fresh (dom (cells w)) = None.
Proof. apply not_elem_of_dom, is_fresh. Qed.

Lemma fresh_wrap (w : World) : wraps w !! fresh (dom (wraps w)) = None.
Proof. apply not_elem_of_dom, is_fresh. Qed.

(** What a dispatch does to the tokens and to the counter: either the engine
    got the query, with a new token cell and a new lifecycle object that
    point to each other, and the counter has grown by one; or [Send]
    refused, the counter was incremented and decremented, and nothing is
    left of the query; or the channel was not live. *)
Lemma Query_cases (cls : QueryWrapClass) (name : string) (rep : setup_reply)
    (w : World) :
  UV_EINVAL <> 0 ->
  0 <= active_query_count_ (chan w) ->
  let q := fresh (dom (wraps w)) in
  (exists what, Query cls name rep w = Undefined what) \/
  (exists w' l qw,
     Query cls name rep w = Done (0, w') /\
     cells w !! l = None /\ callback_ptr_ qw = Some l /\
     cells w' = <[l := Some q]> (cells w) /\
     wraps w' = <[q := qw]> (wraps w) /\
     immediates w' = immediates w /\
     active_query_count_ (chan w') = active_query_count_ (chan w) + 1 /\
     count_events is_sent (trace w') = count_events is_sent (trace w) + 1 /\
     count_events is_capture (trace w') = count_events is_capture (trace w) /\
     count_events is_increment (trace w')
       = count_events is_increment (trace w) + 1 /\
     count_events is_decrement (trace w')
       = count_events is_decrement (trace w)) \/
  (exists w',
     Query cls name rep w = Done (UV_EINVAL, w') /\
     cells w' = cells w /\ wraps w' = wraps w /\
     immediates w' = immediates w /\
     active_query_count_ (chan w') = active_query_count_ (chan w) /\
     count_events is_sent (trace w') = count_events is_sent (trace w) /\
     count_events is_capture (trace w') = count_events is_capture (trace w) /\
     count_events is_increment (trace w')
       = count_events is_increment (trace w) + 1 /\
     count_events is_decrement (trace w')
       = count_events is_decrement (trace w) + 1).
Proof.
  intros Hinval Hcount q.
  set (wrap0 := {| wrap_class := cls; response_data_ := None;
                   callback_ptr_ := None |}).
  set (w2 := set_chan
               (set_active_query_count (active_query_count_ (chan w) + 1) (chan w))
               (emit (ModifyActivityQueryCount_ev 1)
                  (set_wraps (<[q := wrap0]> (wraps w)) w))).
  assert (Hq2 : wraps w2 !! q = Some wrap0) by apply lookup_insert_eq.
  assert (HQ : Query cls name rep w =
    ('(err, w) ← Send q name rep w2;
     if negb (err =? 0) then
       let w := emit (ModifyActivityQueryCount_ev (-1)) w in
       c ← ModifyActivityQueryCount (-1) (chan w);
       w ← QueryWrap_delete q (set_chan c w);
       Done (err, w)
     else Done (err, w))).
  { unfold Query, ModifyActivityQueryCount, CHECK. simpl.
    destruct (0 <=? active_query_count_ (chan w) + 1) eqn:E; [reflexivity|lia]. }
  rewrite HQ. clear HQ.
  (* the engine gets the query from the world [w3] *)
  assert (Hsent : forall (w3 : World) (e : event),
    world_frame w2 w3 -> is_sent e = true ->
    is_capture e = false -> is_increment e = false -> is_decrement e = false ->
    let l := fresh (dom (cells w3)) in
    let w' := emit e (set_wraps (<[q := set_callback_ptr (Some l) wrap0]> (wraps w3))
                        (set_cells (<[l := Some q]> (cells w3)) w3)) in
    cells w !! l = None /\ callback_ptr_ (set_callback_ptr (Some l) wrap0) = Some l /\
    cells w' = <[l := Some q]> (cells w) /\
    wraps w' = <[q := set_callback_ptr (Some l) wrap0]> (wraps w) /\
    immediates w' = immediates w /\
    active_query_count_ (chan w') = active_query_count_ (chan w) + 1 /\
    count_events is_sent (trace w') = count_events is_sent (trace w) + 1 /\
    count_events is_capture (trace w') = count_events is_capture (trace w) /\
    count_events is_increment (trace w')
      = count_events is_increment (trace w) + 1 /\
    count_events is_decrement (trace w')
      = count_events is_decrement (trace w)).
  { intros w3 e (Hc & Hw & Hi & Hn & tr & Ht & Hquiet) He1 He2 He3 He4 l w'.
    destruct (quiet_counts tr Hquiet) as (Q1 & Q2 & Q3 & Q4).
    subst w'. simpl. rewrite Hw, Hi, Hn, Ht. subst w2. simpl.
    rewrite insert_insert_eq, !count_events_app, !count_events_single,
      He1, He2, He3, He4, Q1, Q2, Q3, Q4. simpl.
    split; [subst l; rewrite Hc; apply (fresh_cell w)|].
    split; [reflexivity|]. split; [by rewrite Hc|].
    repeat split; lia. }
  unfold Send. rewrite Hq2. simpl.
  destruct (class_Send cls) as [type|].
  - unfold AresQuery.
    destruct (EnsureServers rep w2) as [w3|msg|what] eqn:Ee.
    + apply EnsureServers_frame in Ee.
      assert (Hq3 : wraps w3 !! q = Some wrap0).
      { destruct Ee as (_ & -> & _). exact Hq2. }
      cbn [mbind outcome_bind].
      rewrite (MakeCallbackPointer_Done q wrap0 w3) by done.
      cbn [mbind outcome_bind]. simpl.
      right. left. eexists _, _, _. split; [reflexivity|].
      by apply (Hsent w3 (ares_query_ev name type _)).
    + by apply EnsureServers_no_check in Ee.
    + left. by eexists.
  - assert (Hhost : forall address fam,
      exists w' l qw,
      (('(token, w) ← MakeCallbackPointer q w2;
        Done (0, emit (ares_gethostbyaddr_ev address fam token) w)) ≫=
       (fun '(err, w) =>
          if negb (err =? 0) then
            let w := emit (ModifyActivityQueryCount_ev (-1)) w in
            c ← ModifyActivityQueryCount (-1) (chan w);
            w ← QueryWrap_delete q (set_chan c w);
            Done (err, w)
          else Done (err, w))) = Done (0, w') /\
      cells w !! l = None /\ callback_ptr_ qw = Some l /\
      cells w' = <[l := Some q]> (cells w) /\
      wraps w' = <[q := qw]> (wraps w) /\
      immediates w' = immediates w /\
      active_query_count_ (chan w') = active_query_count_ (chan w) + 1 /\
      count_events is_sent (trace w') = count_events is_sent (trace w) + 1 /\
      count_events is_capture (trace w') = count_events is_capture (trace w) /\
      count_events is_increment (trace w')
        = count_events is_increment (trace w) + 1 /\
      count_events is_decrement (trace w')
        = count_events is_decrement (trace w)).
    { intros address fam.
      rewrite (MakeCallbackPointer_Done q wrap0 w2) by done.
      cbn [mbind outcome_bind]. simpl.
      eexists _, _, _. split; [reflexivity|].
      apply (Hsent w2 (ares_gethostbyaddr_ev address fam _));
        [apply world_frame_refl | reflexivity..]. }
    destruct ((uv_inet_pton AF_INET name).1 =? 0); [right; left; apply Hhost|].
    destruct ((uv_inet_pton AF_INET6 name).1 =? 0); [right; left; apply Hhost|].
    right. right. cbn [mbind outcome_bind].
    destruct (UV_EINVAL =? 0) eqn:E0; [lia|]. simpl.
    unfold ModifyActivityQueryCount, CHECK. simpl.
    destruct (0 <=? active_query_count_ (chan w) + 1 + -1) eqn:E; [|lia].
    cbn [mbind outcome_bind mret outcome_ret].
    rewrite (QueryWrap_delete_no_token q wrap0) by done.
    cbn [mbind outcome_bind].
    eexists. split; [reflexivity|]. simpl.
    rewrite !count_events_snoc. simpl.
    rewrite delete_insert_id by apply (fresh_wrap w).
    repeat split; lia.
Qed.

Lemma lifecycle_inv_in_flight (w : World) (l : nat) :
  lifecycle_inv w -> outstanding l w -> 1 <= active_query_count_ (chan w).
Proof.
  intros (I1 & _) (q & qw & Hl & _).
  destruct (decide (size (cells w) = 0%nat)) as [E|]; [|lia].
  apply map_size_empty_iff in E. rewrite E in Hl. by rewrite lookup_empty in Hl.
Qed.

(** The completion of a query in flight returns, whatever its status, and
    the counter has gone down by one. *)
Lemma Callback_buf_step l status timeouts answer len (w : World) :
  lifecycle_inv w -> outstanding l w ->
  exists w',
    Callback_buf l status timeouts answer len w = Done w' /\
    lifecycle_inv w' /\
    active_query_count_ (chan w') = active_query_count_ (chan w) - 1.
Proof.
  intros Hinv Hout. pose proof (lifecycle_inv_in_flight w l Hinv Hout) as Hc.
  destruct Hout as (q & qw & Hl & Hq).
  rewrite (Callback_buf_live l q qw) by assumption.
  rewrite QueueResponseCallback_Done by (simpl; lia).
  eexists. split; [reflexivity|]. split; [|simpl; lia].
  eapply (lifecycle_inv_consume w _ q l qw
            (set_response_data (Some (buf_response status answer len))
               (set_callback_ptr None qw)));
    try eassumption; simpl;
    rewrite ?count_events_app, ?count_events_single; simpl;
    first [reflexivity | lia].
Qed.

Lemma Callback_host_step l status timeouts h (w w' : World) :
  lifecycle_inv w -> outstanding l w ->
  Callback_host l status timeouts h w = Done w' ->
  lifecycle_inv w' /\
  active_query_count_ (chan w') = active_query_count_ (chan w) - 1.
Proof.
  intros Hinv Hout. pose proof (lifecycle_inv_in_flight w l Hinv Hout) as Hc.
  destruct Hout as (q & qw & Hl & Hq). unfold Callback_host.
  rewrite (FromCallbackPointer_live l q qw) by assumption.
  cbn [mbind outcome_bind].
  destruct (if status =? ARES_SUCCESS then _ else _) as [hc| |];
    [|discriminate..].
  cbn [mbind outcome_bind]. unfold store_response. simpl.
  rewrite lookup_insert_eq. cbn [mbind outcome_bind].
  rewrite QueueResponseCallback_Done by (simpl; lia).
  intros [= <-]. split; [|simpl; lia].
  eapply (lifecycle_inv_consume w _ q l qw
            (set_response_data
               (Some {| status := status; is_host := true; host := hc;
                        buf := (None, 0) |})
               (set_callback_ptr None qw)));
    try eassumption; simpl;
    rewrite ?insert_insert_eq, ?count_events_app, ?count_events_single; simpl;
    first [reflexivity | lia].
Qed.

Lemma run_immediate_step (w w' : World) :
  lifecycle_inv w ->
  run_immediate w = Done w' ->
  lifecycle_inv w' /\
  active_query_count_ (chan w') = active_query_count_ (chan w).
Proof.
  intros Hinv. unfold run_immediate.
  destruct (immediates w) as [|q rest] eqn:Himm; [by intros [= <-]|].
  destruct Hinv as (I1 & I2 & I3 & I4 & I5 & I6 & I7).
  destruct (I6 q) as (qw & Hq & Hp); [rewrite Himm; left|].
  unfold AfterResponse. simpl. rewrite Hq.
  destruct (response_data_ qw) as [d|]; [|discriminate].
  destruct (deliver (wrap_class qw) d) as [calls| |]; [|discriminate..].
  cbn [mbind outcome_bind].
  destruct (emit_calls_trace q calls (set_immediates rest w))
    as (Ht & Hc & Hce & Hw & Hi & Hcl).
  rewrite (QueryWrap_delete_no_token q qw) by first [by rewrite Hw | assumption].
  intros [= <-]. simpl. rewrite Hc. split; [|reflexivity].
  assert (Hcalls : forall p : event -> bool,
    (forall argv, p (MakeCallback_ev q argv) = false) ->
    count_events p (MakeCallback_ev q <$> calls) = 0).
  { intros p Hpf. apply count_events_none, Forall_fmap, Forall_forall.
    intros argv _. apply Hpf. }
  eapply (lifecycle_inv_release w _ q rest); try done; simpl;
    rewrite ?Hce, ?Hw, ?Hi, ?Hc, ?Ht; simpl;
    rewrite ?count_events_app, ?count_events_single, ?Hcalls by done; simpl;
    first [reflexivity | lia].
Qed.

Lemma lifecycle_inv_new (timeout : Z) (rep : setup_reply) :
  lifecycle_inv (Setup rep (World_new timeout)).
Proof.
  eapply lifecycle_inv_frame; [|apply Setup_frame].
  unfold lifecycle_inv, World_new, count_events. simpl.
  rewrite map_size_empty. repeat split; try done.
  - intros q Hq. by apply elem_of_nil in Hq.
  - constructor.
Qed.

Lemma reachable_inv (w : World) :
  UV_EINVAL <> 0 -> reachable w -> lifecycle_inv w.
Proof.
  intros Hinval. induction 1 as [timeout rep|w s w' _ IH Hen Hstep].
  - apply lifecycle_inv_new.
  - destruct s as [cls name rep|l st tm answer len|l st tm h|]; simpl in *.
    + assert (Hc : 0 <= active_query_count_ (chan w))
        by (destruct IH as (-> & _); lia).
      destruct (Query_cases cls name rep w Hinval Hc)
        as [(what & Hq) | [(w1 & l & qw & Hq & Hl & Hp & ?) | (w1 & Hq & ?)]];
        rewrite Hq in Hstep; [discriminate| |].
      * injection Hstep as <-. simpl.
        eapply (lifecycle_inv_alloc w w1 _ l qw); intuition eauto.
        apply fresh_wrap.
      * injection Hstep as <-. simpl.
        eapply (lifecycle_inv_same w w1); intuition lia.
    + destruct (Callback_buf_step l st tm answer len w IH Hen)
        as (w1 & Hcb & Hinv & _). congruence.
    + by eapply Callback_host_step.
    + by eapply run_immediate_step.
Qed.

Lemma outstandingb_outstanding (l : nat) (w : World) :
  outstandingb l w = true -> outstanding l w.
Proof.
  unfold outstandingb, outstanding.
  destruct (cells w !! l) as [[q|]|]; [|discriminate..].
  intros [qw Hq]%bool_decide_eq_true. by exists q, qw.
Qed.

Lemma reachable_run (ss : list step) (w w' : World) :
  reachable w -> run_checked ss w = Some w' -> reachable w'.
Proof.
  revert w. induction ss as [|s ss IH]; intros w Hr; simpl.
  - by intros [= <-].
  - destruct (enabledb s w) eqn:Ee; [|discriminate].
    destruct (step_run s w) as [w1| |] eqn:Es; [|discriminate..].
    apply IH. apply (reachable_step w s w1); [exact Hr | | exact Es].
    destruct s; simpl in *; try exact I; by apply outstandingb_outstanding.
Qed.

(** C6: in every world that dispatches, completions of queries in flight and
    immediates lead to, the in-flight counter is not negative; it is the
    number of queries in flight (the token cells); it is the number of
    queries handed to the engine less the number of responses captured, so
    it is 0 when every query has completed; and it is the number of its
    increments less the number of its decrements.  From such a world, a
    dispatch fails no [CHECK], and leaves the counter one higher when the
    engine got the query and as it was when [Send] refused; the completion
    of a query in flight returns for every status and leaves the counter one
    lower. *)
Theorem in_flight_counter (w : World) :
  UV_EINVAL <> 0 ->
  reachable w ->
  0 <= active_query_count_ (chan w) /\
  active_query_count_ (chan w) = Z.of_nat (size (cells w)) /\
  active_query_count_ (chan w)
    = count_events is_sent (trace w) - count_events is_capture (trace w) /\
  (count_events is_sent (trace w) = count_events is_capture (trace w) ->
   active_query_count_ (chan w) = 0) /\
  active_query_count_ (chan w)
    = count_events is_increment (trace w)
      - count_events is_decrement (trace w) /\
  (forall cls name rep,
     (forall msg, Query cls name rep w <> CheckFailed msg) /\
     forall err w',
       Query cls name rep w = Done (err, w') ->
       active_query_count_ (chan w')
       = active_query_count_ (chan w) + (if err =? 0 then 1 else 0)) /\
  (forall l status timeouts answer len,
     outstanding l w ->
     exists w',
       Callback_buf l status timeouts answer len w = Done w' /\
       active_query_count_ (chan w') = active_query_count_ (chan w) - 1).
Proof.
  intros Hinval Hreach. pose proof (reachable_inv w Hinval Hreach) as Hinv.
  pose proof Hinv as (I1 & I2 & I3 & _).
  assert (Hc : 0 <= active_query_count_ (chan w)) by lia.
  split; [exact Hc|]. split; [exact I1|]. split; [exact I2|].
  split; [lia|]. split; [exact I3|]. split.
  - intros cls name rep.
    destruct (Query_cases cls name rep w Hinval Hc)
      as [(what & Hq) | [(w1 & l & qw & Hq & _ & _ & _ & _ & _ & Hn & _)
                        | (w1 & Hq & _ & _ & _ & Hn & _)]];
      rewrite Hq; (split; [done|]); intros err w'; [done| |].
    + intros [= <- <-]. simpl. lia.
    + intros [= <- <-]. destruct (UV_EINVAL =? 0) eqn:E; lia.
  - intros l status timeouts answer len Hout.
    destruct (Callback_buf_step l status timeouts answer len w Hinv Hout)
      as (w1 & Hcb & _ & Hn).
    by exists w1.
Qed.

End CounterClaims.

(** ** QueryAnyWrap::Parse *)

Section ParseClaims.
Context `{AresH, SysH, Uv, Decoder}.

Lemma failed_not_success (status : Z) :
  failed status = true -> negb (status =? ARES_SUCCESS) = true.
Proof. unfold failed. by intros [? _]%andb_true_iff. Qed.

(** A pass whose status is [ARES_ENODATA] does not fail. *)
Lemma failed_ENODATA : failed ARES_ENODATA = false.
Proof. unfold failed. by rewrite Z.eqb_refl, andb_false_r. Qed.

(** The MX, NAPTR and CAA passes hand a status that is neither success nor
    [ARES_ENODATA] to [ParseError]. *)
Lemma Parse_from_MX_failure (buf : list Z) (len : Z) (ret : list value) :
  failed (ares_parse_mx_reply buf len).1 = true ->
  Parse_from_MX buf len ret = ParseError (ares_parse_mx_reply buf len).1.
Proof.
  intros Hf. unfold Parse_from_MX, ParseMxReply.
  destruct (ares_parse_mx_reply buf len) as [st l]. simpl in *.
  by rewrite (failed_not_success st Hf), Hf.
Qed.

Lemma Parse_from_NAPTR_failure (buf : list Z) (len : Z) (ret : list value) :
  failed (ares_parse_naptr_reply buf len).1 = true ->
  Parse_from_NAPTR buf len ret = ParseError (ares_parse_naptr_reply buf len).1.
Proof.
  intros Hf. unfold Parse_from_NAPTR, ParseNaptrReply.
  destruct (ares_parse_naptr_reply buf len) as [st l]. simpl in *.
  by rewrite (failed_not_success st Hf), Hf.
Qed.

Lemma Parse_from_CAA_failure (buf : list Z) (len : Z) (ret : list value) :
  failed (ares_parse_caa_reply buf len).1 = true ->
  Parse_from_CAA buf len ret = ParseError (ares_parse_caa_reply buf len).1.
Proof.
  intros Hf. unfold Parse_from_CAA, ParseCaaReply.
  destruct (ares_parse_caa_reply buf len) as [st l]. simpl in *.
  by rewrite (failed_not_success st Hf), Hf.
Qed.

(** The SRV pass returns on such a status without a call of the completion
    hook. *)
Lemma Parse_from_SRV_failure (buf : list Z) (len : Z) (ret : list value) :
  failed (ares_parse_srv_reply buf len).1 = true ->
  Parse_from_SRV buf len ret = Done [].
Proof.
  intros Hf. unfold Parse_from_SRV, ParseSrvReply.
  destruct (ares_parse_srv_reply buf len) as [st l]. simpl in *.
  by rewrite (failed_not_success st Hf), Hf.
Qed.

(** The PTR pass goes on to the NAPTR pass with the array as it was,
    whatever status other than success its decoder gives. *)
Lemma Parse_from_PTR_failure (buf : list Z) (len : Z) (ret : list value) :
  ns_t_ptr <> ns_t_a -> ns_t_ptr <> ns_t_cname -> ns_t_ptr <> ns_t_cname_or_a ->
  ns_t_ptr <> ns_t_aaaa -> ns_t_ptr <> ns_t_ns ->
  (ares_parse_ptr_reply buf len).1 <> ARES_SUCCESS ->
  Parse_from_PTR buf len ret = Parse_from_NAPTR buf len ret.
Proof.
  intros Ha Hc Hca Haaaa Hns Hst. unfold Parse_from_PTR, ParseGeneralReply.
  destruct (ns_t_ptr =? ns_t_a) eqn:E1; [lia|].
  destruct (ns_t_ptr =? ns_t_cname) eqn:E2; [lia|].
  destruct (ns_t_ptr =? ns_t_cname_or_a) eqn:E3; [lia|].
  destruct (ns_t_ptr =? ns_t_aaaa) eqn:E4; [lia|].
  destruct (ns_t_ptr =? ns_t_ns) eqn:E5; [lia|].
  rewrite Z.eqb_refl. simpl.
  destruct (ares_parse_ptr_reply buf len) as [st h]. simpl in *.
  destruct (st =? ARES_SUCCESS) eqn:E6; [lia|]. simpl.
  by rewrite take_ge, drop_ge, app_nil_r by lia.
Qed.

End ParseClaims.

(** ** Examples on the concrete engine *)

(** One record of every type: the array has them in the order A, AAAA, MX,
    NS, TXT, SRV, PTR, NAPTR, SOA, CAA. *)
Example QueryAnyWrap_Parse_order :
  exists a aaaa mx ns txt srv ptr naptr soa caa,
    @QueryAnyWrap_Parse cares_h linux_h two_address_uv sample_decoder
      soa_answer 50
    = Done [[Int 0; Arr [Obj (a ++ [(EnvStr "type_string", EnvStr "dns_a_string")]);
                         Obj (aaaa ++ [(EnvStr "type_string", EnvStr "dns_aaaa_string")]);
                         Obj (mx ++ [(EnvStr "type_string", EnvStr "dns_mx_string")]);
                         Obj (ns ++ [(EnvStr "type_string", EnvStr "dns_ns_string")]);
                         Obj (txt ++ [(EnvStr "type_string", EnvStr "dns_txt_string")]);
                         Obj (srv ++ [(EnvStr "type_string", EnvStr "dns_srv_string")]);
                         Obj (ptr ++ [(EnvStr "type_string", EnvStr "dns_ptr_string")]);
                         Obj (naptr ++ [(EnvStr "type_string", EnvStr "dns_naptr_string")]);
                         Obj (soa ++ [(EnvStr "type_string", EnvStr "dns_soa_string")]);
                         Obj (caa ++ [(EnvStr "type_string", EnvStr "dns_caa_string")])]]].
Proof.
  eexists [_; _], [_; _], [_; _], [_], [_], [_; _; _; _], [_],
          [_; _; _; _; _; _], [_; _; _; _; _; _; _], [_; _].
  vm_compute. reflexivity.
Qed.

(** C1, where the code departs from it: on an answer in which no record type
    is present, a decoder whose SRV pass fails with [ARES_EBADRESP] makes
    [QueryAnyWrap::Parse] return without any call of the completion hook, so
    that the immediate of the query deletes the lifecycle object and the
    caller hears nothing; a PTR pass that fails with [ARES_EBADRESP] is
    passed over and the query completes as a success; the same failure of
    the MX pass reaches the caller as the error [EBADRESP]. *)
Theorem QueryAnyWrap_Parse_SRV_PTR_failures :
  @QueryAnyWrap_Parse cares_h linux_h two_address_uv (absent_decoder 1 10 1)
    empty_answer 17 = Done [] /\
  @QueryAnyWrap_Parse cares_h linux_h two_address_uv (absent_decoder 1 1 10)
    empty_answer 17 = Done [[Int 0; Arr []]] /\
  @QueryAnyWrap_Parse cares_h linux_h two_address_uv (absent_decoder 10 1 1)
    empty_answer 17 = Done [[Str "EBADRESP"]] /\
  exists w,
    run [Complete_buf 0 0 0 empty_answer 17; Immediate]
        (world_in_flight (absent_decoder 1 10 1)) = Done w /\
    trace w = trace (world_in_flight (absent_decoder 1 10 1)) ++
              [capture_ev 0 0; SetImmediate_ev 0; set_query_last_ok_ev true;
               ModifyActivityQueryCount_ev (-1); delete_ev 0] /\
    wraps w !! 0%nat = None.
Proof.
  split; [vm_compute; reflexivity|]. split; [vm_compute; reflexivity|].
  split; [vm_compute; reflexivity|].
  eexists. split; [vm_compute; reflexivity|]. split; reflexivity.
Qed.

(** C2 as the specification states it fails on a refused query: the
    decrement of the counter comes before the delivery to the completion
    hook, not after it. *)
Lemma delivery_follows_decrement :
  exists w2,
    run [Complete_buf 0 11 0 [] 0; Immediate]
        (world_in_flight (absent_decoder 1 1 1)) = Done w2 /\
    trace w2 = trace (world_in_flight (absent_decoder 1 1 1)) ++
               [capture_ev 0 11; SetImmediate_ev 0; set_query_last_ok_ev false;
                ModifyActivityQueryCount_ev (-1);
                MakeCallback_ev 0 [Str "ECONNREFUSED"]; delete_ev 0] /\
    ~ happens_before is_delivery is_decrement (trace w2).
Proof.
  eexists. split; [vm_compute; reflexivity|]. split; [reflexivity|].
  intros (_ & _ & Hord).
  specialize (Hord 8%nat 7%nat
                (MakeCallback_ev 0 [Str "ECONNREFUSED"])
                (ModifyActivityQueryCount_ev (-1))
                eq_refl eq_refl eq_refl eq_refl).
  lia.
Qed.

(** C3 as the specification states it fails on an engine that reports no
    server: [EnsureServers] returns with [is_servers_default_] still true. *)
Lemma EnsureServers_no_server_keeps_default :
  query_last_ok_ (chan (after_refusal (world_with []))) = false /\
  is_servers_default_ (chan (after_refusal (world_with []))) = true /\
  channel_ (chan (after_refusal (world_with []))) = Live [] /\
  ares_get_servers_ports ([] : ares_channel) = [] /\
  ~ exists w',
      EnsureServers (reply_with []) (after_refusal (world_with [])) = Done w' /\
      is_servers_default_ (chan w') = false.
Proof.
  split; [reflexivity|]. split; [reflexivity|]. split; [reflexivity|].
  split; [reflexivity|].
  intros (w' & Hw & Hflag). vm_compute in Hw. injection Hw as <-.
  discriminate Hflag.
Qed.

(** [EnsureServers_cases] on the fallback server, on a public server and on
    no server. *)
Lemma EnsureServers_cases_witness :
  (exists w',
     EnsureServers (reply_with [public_server])
       (after_refusal (world_with [loopback_server])) = Done w' /\
     channel_ (chan w') = Live [public_server] /\
     is_servers_default_ (chan w') = true) /\
  EnsureServers (reply_with [])
    (after_refusal (world_with [public_server]))
  = Done (set_chan (set_is_servers_default false
                      (chan (after_refusal (world_with [public_server]))))
            (after_refusal (world_with [public_server]))) /\
  EnsureServers (reply_with []) (after_refusal (world_with []))
  = Done (after_refusal (world_with [])).
Proof.
  split; [|split].
  - destruct (EnsureServers_cases (reply_with [public_server])
                (after_refusal (world_with [loopback_server]))) as [_ Hc].
    destruct (Hc [loopback_server] eq_refl eq_refl eq_refl) as [_ Hfb].
    destruct Hfb as (w' & Hw & Hdef & _ & Hnew).
    + repeat split.
    + exists w'. split; [exact Hw|]. split; [|exact Hdef].
      exact (proj1 (Hnew eq_refl)).
  - destruct (EnsureServers_cases (reply_with [])
                (after_refusal (world_with [public_server]))) as [_ Hc].
    destruct (Hc [public_server] eq_refl eq_refl eq_refl) as [Hflag _].
    apply Hflag. intros (_ & Haddr & _). discriminate Haddr.
  - destruct (EnsureServers_cases (reply_with [])
                (after_refusal (world_with []))) as [_ Hc].
    exact (Hc [] eq_refl eq_refl eq_refl).
Defined.

(** [in_flight_counter] on the world after three reverse lookups, one of
    them refused by [Send], and the completions of the other two: the counter
    is back to 0 after two increments by accepted dispatches, one increment
    and one decrement by the refused one, and two decrements by the
    completions. *)
Lemma in_flight_counter_witness :
  reachable (run_from reverse_lookups (world_with [public_server])) /\
  active_query_count_
    (chan (run_from (take 3 reverse_lookups) (world_with [public_server]))) = 2 /\
  active_query_count_
    (chan (run_from reverse_lookups (world_with [public_server]))) = 0 /\
  count_events is_sent
    (trace (run_from reverse_lookups (world_with [public_server]))) = 2 /\
  count_events is_increment
    (trace (run_from reverse_lookups (world_with [public_server]))) = 3.
Proof.
  assert (R0 : reachable (world_with [public_server])) by apply reachable_new.
  assert (R3 : reachable
                 (run_from (take 3 reverse_lookups) (world_with [public_server])))
    by (apply (reachable_run (take 3 reverse_lookups) _ _ R0);
        vm_compute; reflexivity).
  assert (R7 : reachable (run_from reverse_lookups (world_with [public_server])))
    by (apply (reachable_run reverse_lookups _ _ R0); vm_compute; reflexivity).
  assert (Hinval : @UV_EINVAL linux_h <> 0) by (vm_compute; discriminate).
  destruct (in_flight_counter _ Hinval R3) as (_ & Hn3 & _).
  destruct (in_flight_counter _ Hinval R7) as (_ & _ & _ & Hzero & Hnet & _).
  split; [exact R7|]. split; [rewrite Hn3; vm_compute; reflexivity|].
  split; [apply Hzero; vm_compute; reflexivity|].
  split; vm_compute; reflexivity.
Defined.

(** [SetServers_pending] with one query in flight. *)
Lemma SetServers_pending_witness :
  active_query_count_ (chan (world_in_flight (absent_decoder 1 1 1))) = 1 /\
  SetServers [(4, "8.8.8.8"%string, 53)] (world_in_flight (absent_decoder 1 1 1))
  = Done (-1000, world_in_flight (absent_decoder 1 1 1)) /\
  ares_get_servers_ports ([public_server] : ares_channel) = [public_server] /\
  -1000 ∉ @engine_codes cares_h.
Proof.
  destruct (SetServers_pending [(4, "8.8.8.8"%string, 53)]
              (world_in_flight (absent_decoder 1 1 1)))
    as (Hset & Hnot & _).
  - vm_compute. discriminate.
  - unfold engine_codes.
    repeat (apply Forall_cons; split; [vm_compute; discriminate|]).
    apply Forall_nil. exact I.
  - split; [reflexivity|]. split; [exact Hset|]. split; [reflexivity|exact Hnot].
Defined.

(** [SetServers_is_servers_default]: a list that the engine accepts sets the
    flag to false, a list with an address that does not parse and the empty
    list leave it. *)
Lemma SetServers_is_servers_default_witness :
  (exists w',
     SetServers [(4, "8.8.8.8"%string, 53)] (world_with [loopback_server])
       = Done (0, w') /\
     is_servers_default_ (chan w') = false) /\
  (exists w',
     SetServers [(4, "8.8.8.8"%string, 53); (4, "localhost"%string, 53)]
                (world_with [loopback_server]) = Done (17, w') /\
     is_servers_default_ (chan w') = true) /\
  (exists w',
     SetServers [] (world_with [loopback_server]) = Done (0, w') /\
     is_servers_default_ (chan w') = true).
Proof.
  assert (Hbad : @ARES_EBADSTR cares_h <> @ARES_SUCCESS cares_h) by discriminate.
  split; [|split].
  - destruct (SetServers_is_servers_default [(4, "8.8.8.8"%string, 53)]
                (world_with [loopback_server]) Hbad) as [Honly _].
    eexists. split; [reflexivity|].
    destruct (Honly _ _ eq_refl) as [Hsame | (Hfalse & _)];
      [discriminate Hsame | exact Hfalse].
  - destruct (SetServers_is_servers_default
                [(4, "8.8.8.8"%string, 53); (4, "localhost"%string, 53)]
                (world_with [loopback_server]) Hbad) as [Honly _].
    eexists. split; [reflexivity|].
    destruct (Honly _ _ eq_refl) as [Hsame | (_ & Hrv & _)];
      [exact Hsame | discriminate Hrv].
  - destruct (SetServers_is_servers_default []
                (world_with [loopback_server]) Hbad) as [Honly _].
    eexists. split; [reflexivity|].
    destruct (Honly _ _ eq_refl) as [Hsame | (_ & _ & Hne & _)];
      [exact Hsame | by destruct Hne].
Defined.

(** * Further properties *)

(** ** The registry and the idle timer through runs of notifications *)

Section RegistryProperties.
Context `{AresH, SysH, Engine}.

Lemma task_find_poll_start_same s ev l t :
  task_find s l = Some t ->
  task_find s (task_poll_start s ev l)
  = Some {| sock := s; poll_watcher := {| poll_events := ev |} |}.
Proof.
  unfold task_find, task_poll_start.
  induction l as [|a l IH]; simpl; [discriminate|].
  destruct (sock a =? s) eqn:E; simpl.
  - intros _. rewrite E. f_equal. f_equal. lia.
  - rewrite E. exact IH.
Qed.

Lemma task_find_poll_start_other s s' ev l :
  s' <> s ->
  task_find s' (task_poll_start s ev l) = task_find s' l.
Proof.
  intros Hne. unfold task_find, task_poll_start.
  induction l as [|a l IH]; simpl; [reflexivity|].
  destruct (sock a =? s) eqn:E; simpl.
  - destruct (sock a =? s') eqn:E'; [lia | exact IH].
  - destruct (sock a =? s') eqn:E'; [reflexivity | exact IH].
Qed.

Lemma task_poll_start_absent s ev l :
  task_find s l = None -> task_poll_start s ev l = l.
Proof.
  unfold task_find, task_poll_start.
  induction l as [|a l IH]; simpl; [reflexivity|].
  destruct (sock a =? s) eqn:E; [discriminate|].
  intros Hf. by rewrite IH.
Qed.

Lemma task_poll_start_cons s ev a l :
  task_poll_start s ev (a :: l)
  = (if sock a =? s
     then {| sock := sock a; poll_watcher := {| poll_events := ev |} |}
     else a) :: task_poll_start s ev l.
Proof. reflexivity. Qed.

(** X1: through every run of notifications of the engine that returns,
    whatever the poll registrations return, a registry that holds no two
    tasks for one socket holds no two tasks for one socket afterwards. *)
Theorem notifications_keep_sockets_distinct
    (ns : list (Z * Z * Z * Z)) (c c' : ChannelWrap)
    (closing closing' : list uv_handle) :
  NoDup (sock <$> task_list_ c) ->
  notifications ns (c, closing) = Done (c', closing') ->
  NoDup (sock <$> task_list_ c').
Proof.
  revert c closing.
  induction ns as [|[[[init_r s] read] write] ns IH]; intros c closing Hnd.
  - by intros [= <- <-].
  - cbn [notifications].
    destruct (ares_sockstate_cb init_r s read write (c, closing))
      as [[c1 closing1]| |] eqn:Ecb; [|discriminate..].
    cbn [mbind outcome_bind]. apply IH.
    by eapply ares_sockstate_cb_NoDup.
Qed.

(** X2: after every run of notifications on a new channel in which every
    poll registration succeeds, the idle timer runs exactly when the
    registry holds a task; so when the running timer fires, both checks of
    [AresTimeout] pass. *)
Theorem timer_runs_iff_watching
    (ns : list (Z * Z * Z * Z)) (timeout : Z) (c' : ChannelWrap)
    (closing closing' : list uv_handle) :
  Forall (fun n => 0 <= n.1.1.1) ns ->
  notifications ns (ChannelWrap_new timeout, closing) = Done (c', closing') ->
  (timer_running c' = true <-> task_list_ c' <> []) /\
  (forall handle,
     timer_handle_ c' = Some handle -> uv_is_active handle = true ->
     AresTimeout handle c' = Done c').
Proof.
  intros Hall Hrun.
  assert (Hok : registry_ok c').
  { eapply notifications_registry_ok; [exact Hall | | exact Hrun].
    apply registry_ok_new. }
  destruct Hok as [_ Htimer]. split; [exact Htimer|].
  intros handle Hh Ha. unfold AresTimeout.
  rewrite (bool_decide_eq_true_2 (timer_handle_ c' = Some handle)) by exact Hh.
  cbn [mbind outcome_bind CHECK].
  assert (Hne : task_list_ c' <> []).
  { apply Htimer. unfold timer_running. by rewrite Hh. }
  rewrite (bool_decide_eq_false_2 (task_list_ c' = [])) by exact Hne.
  reflexivity.
Qed.

(** X3: on a channel that keeps the invariant of the registry, opening a
    socket that has no task (the poll registration succeeding) and then
    closing it gives back the registry as it was, with the timer running
    exactly if it ran before.  If other sockets are watched the channel is
    as it was and the poll handle of the socket is the one handle closed; if
    none is, the timer that was started is closed after the poll handle. *)
Theorem open_then_close_restores
    (init_r init_r' s read write : Z) (c : ChannelWrap)
    (closing : list uv_handle) :
  0 <= init_r ->
  read <> 0 \/ write <> 0 ->
  registry_ok c ->
  task_find s (task_list_ c) = None ->
  let t := {| sock := s;
              poll_watcher :=
                {| poll_events :=
                     Z.lor (if read =? 0 then 0 else UV_READABLE)
                           (if write =? 0 then 0 else UV_WRITABLE) |} |} in
  exists c1 c2 closing2,
    ares_sockstate_cb init_r s read write (c, closing) = Done (c1, closing) /\
    task_list_ c1 = t :: task_list_ c /\
    ares_sockstate_cb init_r' s 0 0 (c1, closing) = Done (c2, closing2) /\
    task_list_ c2 = task_list_ c /\
    timer_running c2 = timer_running c /\
    (task_list_ c <> [] ->
     c2 = c /\ closing2 = closing ++ [PollHandle t]) /\
    (task_list_ c = [] ->
     timer_handle_ c2 = None /\
     closing2 = closing ++
       [PollHandle t;
        TimerHandle (uv_timer_start (timer_period (timeout_ c))
                                    (timer_period (timeout_ c)))]).
Proof.
  intros Hinit Hflags [Hnd Htimer] Hf t.
  assert (Eflags : negb (read =? 0) || negb (write =? 0) = true).
  { apply orb_true_iff. destruct Hflags; [left | right];
      apply negb_true_iff; lia. }
  assert (Hopen :
    ares_sockstate_cb init_r s read write (c, closing)
    = Done (set_task_list (t :: task_list_ c) (StartTimer c), closing)).
  { unfold ares_sockstate_cb. rewrite Hf, Eflags. unfold ares_task_create.
    destruct (init_r <? 0) eqn:Ei; [lia|]. simpl.
    rewrite StartTimer_task_list. unfold task_insert. simpl. rewrite Hf.
    rewrite task_poll_start_cons. simpl. rewrite Z.eqb_refl.
    by rewrite task_poll_start_absent. }
  assert (Hclose : forall c1,
    task_list_ c1 = t :: task_list_ c ->
    ares_sockstate_cb init_r' s 0 0 (c1, closing)
    = if bool_decide (task_list_ c = [])
      then Done (CloseTimer (set_task_list (task_list_ c) c1,
                             CloseHandle (PollHandle t) closing))
      else Done (set_task_list (task_list_ c) c1,
                 CloseHandle (PollHandle t) closing)).
  { intros c1 E1. unfold ares_sockstate_cb. rewrite E1. unfold task_find.
    simpl. by rewrite Z.eqb_refl. }
  rewrite Hopen.
  specialize (Hclose (set_task_list (t :: task_list_ c) (StartTimer c)) eq_refl).
  case_bool_decide as Hempty.
  - assert (Hoff : timer_running c = false).
    { apply not_true_is_false. intros Er. by apply Htimer in Er. }
    unfold CloseTimer, StartTimer, timer_running, uv_is_active in *.
    destruct (timer_handle_ c) as [tm|] eqn:Et.
    + rewrite Hoff in *. simpl in Hclose.
      eexists _, _, _. split; [reflexivity|]. split; [reflexivity|].
      split; [exact Hclose|]. simpl.
      split; [reflexivity|]. split; [reflexivity|]. split; [done|].
      intros _. split; [reflexivity|]. unfold CloseHandle.
      by rewrite <- (assoc_L (++)).
    + simpl in Hclose.
      eexists _, _, _. split; [reflexivity|]. split; [reflexivity|].
      split; [exact Hclose|]. simpl.
      split; [reflexivity|]. split; [reflexivity|]. split; [done|].
      intros _. split; [reflexivity|]. unfold CloseHandle.
      by rewrite <- (assoc_L (++)).
  - assert (Hon : timer_running c = true) by (by apply Htimer).
    assert (Hs : StartTimer c = c).
    { unfold StartTimer. unfold timer_running in Hon.
      destruct (timer_handle_ c) as [tm|]; [|discriminate].
      by rewrite Hon. }
    rewrite Hs in *.
    eexists _, _, _. split; [reflexivity|]. split; [reflexivity|].
    split; [exact Hclose|]. simpl.
    split; [reflexivity|]. split; [reflexivity|]. split; [|done].
    intros _. split; [|reflexivity]. by destruct c.
Qed.

(** X4: a notification with a flag set, the poll registration succeeding if
    it is needed, returns without closing a handle; afterwards the task of
    the socket watches exactly the events asked for, whatever it watched
    before, and the task found for every other socket is as it was. *)
Theorem poll_interest_is_replaced
    (init_r s read write : Z) (c : ChannelWrap) (closing : list uv_handle) :
  0 <= init_r ->
  read <> 0 \/ write <> 0 ->
  exists c',
    ares_sockstate_cb init_r s read write (c, closing) = Done (c', closing) /\
    task_find s (task_list_ c')
    = Some {| sock := s;
              poll_watcher :=
                {| poll_events :=
                     Z.lor (if read =? 0 then 0 else UV_READABLE)
                           (if write =? 0 then 0 else UV_WRITABLE) |} |} /\
    forall s', s' <> s ->
      task_find s' (task_list_ c') = task_find s' (task_list_ c).
Proof.
  intros Hinit Hflags.
  assert (Eflags : negb (read =? 0) || negb (write =? 0) = true).
  { apply orb_true_iff. destruct Hflags; [left | right];
      apply negb_true_iff; lia. }
  unfold ares_sockstate_cb. rewrite Eflags.
  destruct (task_find s (task_list_ c)) as [t|] eqn:Ef.
  - eexists. split; [reflexivity|]. simpl. split.
    + by apply (task_find_poll_start_same _ _ _ t).
    + intros s' Hne. by apply task_find_poll_start_other.
  - unfold ares_task_create. destruct (init_r <? 0) eqn:Ei; [lia|].
    eexists. split; [reflexivity|]. simpl. rewrite StartTimer_task_list.
    unfold task_insert. simpl. rewrite Ef. split.
    + eapply task_find_poll_start_same. unfold task_find. simpl.
      by rewrite Z.eqb_refl.
    + intros s' Hne. rewrite task_find_poll_start_other by exact Hne.
      unfold task_find. simpl. destruct (s =? s') eqn:E; [lia|reflexivity].
Qed.

End RegistryProperties.

Section PollCallbackProperties.
Context `{AresH, SysH, Engine, Loop}.

(** X5: after every run of notifications on a new channel in which every
    poll registration succeeds, the poll callback of a task of the registry
    finds the idle timer: the handle it resets is not null and is running.
    It gives the socket to the engine for reading and for writing when the
    poll reports an error, and otherwise for each of the two that the events
    name. *)
Theorem ares_poll_cb_finds_timer
    (ns : list (Z * Z * Z * Z)) (timeout : Z) (c' : ChannelWrap)
    (closing closing' : list uv_handle)
    (task : node_ares_task) (status events : Z) :
  Forall (fun n => 0 <= n.1.1.1) ns ->
  notifications ns (ChannelWrap_new timeout, closing) = Done (c', closing') ->
  task ∈ task_list_ c' ->
  exists handle,
    timer_handle_ c' = Some handle /\
    uv_is_active handle = true /\
    ares_poll_cb task status events c'
    = Done (set_timer_handle (Some (uv_timer_again handle)) c',
            if status <? 0 then (sock task, sock task)
            else (if Z.land events UV_READABLE =? 0
                  then ARES_SOCKET_BAD else sock task,
                  if Z.land events UV_WRITABLE =? 0
                  then ARES_SOCKET_BAD else sock task)).
Proof.
  intros Hall Hrun Hin.
  assert (Hok : registry_ok c').
  { eapply notifications_registry_ok; [exact Hall | | exact Hrun].
    apply registry_ok_new. }
  destruct Hok as [_ Htimer].
  assert (Hon : timer_running c' = true).
  { apply Htimer. intros Hnil. rewrite Hnil in Hin. by apply elem_of_nil in Hin. }
  unfold timer_running in Hon. unfold ares_poll_cb.
  destruct (timer_handle_ c') as [handle|]; [|discriminate].
  exists handle. split; [reflexivity|]. split; [exact Hon|].
  destruct (status <? 0); [reflexivity|].
  by destruct (Z.land events UV_READABLE =? 0),
              (Z.land events UV_WRITABLE =? 0).
Qed.

End PollCallbackProperties.

(** ** Bytes and error names *)

Lemma land_shiftl_small (a b n : Z) :
  0 <= n -> 0 <= b < 2 ^ n -> Z.land (Z.shiftl a n) b = 0.
Proof.
  intros Hn Hb. apply Z.bits_inj'. intros k Hk.
  rewrite Z.land_spec, Z.bits_0.
  destruct (Z.lt_ge_cases k n) as [Hlt|Hge].
  - by rewrite Z.shiftl_spec_low.
  - destruct (Z.eq_dec b 0) as [->|Hb0].
    + by rewrite Z.bits_0, andb_false_r.
    + rewrite (Z.bits_above_log2 b k), andb_false_r; [reflexivity|lia|].
      apply Z.log2_lt_pow2; [lia|].
      apply Z.lt_le_trans with (2 ^ n); [lia|].
      apply Z.pow_le_mono_r; lia.
Qed.

(** X6: [cares_get_16bit] yields a number of 16 bits; where the buffer holds
    two bytes at the offset, it is the number whose high byte is the first
    and whose low byte is the second. *)
Theorem cares_get_16bit_big_endian (buf : list Z) (p : Z) :
  0 <= cares_get_16bit buf p < 65536 /\
  forall b0 b1,
    buf !! Z.to_nat p = Some b0 -> buf !! Z.to_nat (p + 1) = Some b1 ->
    0 <= b0 < 256 -> 0 <= b1 < 256 ->
    cares_get_16bit buf p = 256 * b0 + b1.
Proof.
  unfold cares_get_16bit. split.
  - change 65536 with (2 ^ 16). apply Z.mod_pos_bound. lia.
  - intros b0 b1 H0 H1 Hb0 Hb1. unfold byte_at. rewrite H0, H1. simpl.
    pose proof (Z.add_lor_land (Z.shiftl b0 8) b1) as Hadd.
    rewrite (land_shiftl_small b0 b1 8) in Hadd by lia.
    rewrite Z.shiftl_mul_pow2 in * by lia.
    change (2 ^ 8) with 256 in *. change (2 ^ 16) with 65536.
    rewrite Z.mod_small; lia.
Qed.

Section ErrorNames.
Context `{AresH}.

Ltac name_cases s :=
  unfold ToErrorCodeString;
  repeat match goal with
         | |- context [s =? ?c] =>
             let E := fresh "E" in destruct (s =? c) eqn:E
         end.

Ltac code_found s :=
  match goal with
  | E : (s =? ?c) = true |- _ => apply Z.eqb_eq in E; subst s
  end.

Ltac in_list :=
  repeat first [apply list_elem_of_here | apply list_elem_of_further].

Lemma pair_with_unique_name {A} (l : list (A * string)) a b n :
  NoDup (l.*2) -> (a, n) ∈ l -> (b, n) ∈ l -> a = b.
Proof.
  induction l as [|[c m] l IH]; simpl; [by intros _ ?%elem_of_nil|].
  rewrite NoDup_cons, !elem_of_cons. intros [Hm Hnd] [Ha|Ha] [Hb|Hb].
  - congruence.
  - injection Ha as -> ->. destruct Hm.
    apply (list_elem_of_fmap_2 snd) in Hb. exact Hb.
  - injection Hb as -> ->. destruct Hm.
    apply (list_elem_of_fmap_2 snd) in Ha. exact Ha.
  - by apply IH.
Qed.

(** The cases of [ToErrorCodeString], as the list of the macro [V]. *)
Lemma ToErrorCodeString_case (s : Z) :
  ToErrorCodeString s = "UNKNOWN_ARES_ERROR"%string \/
  (s, ToErrorCodeString s) ∈
    [(ARES_EADDRGETNETWORKPARAMS, "EADDRGETNETWORKPARAMS"%string);
     (ARES_EBADFAMILY, "EBADFAMILY"%string);
     (ARES_EBADFLAGS, "EBADFLAGS"%string);
     (ARES_EBADHINTS, "EBADHINTS"%string);
     (ARES_EBADNAME, "EBADNAME"%string);
     (ARES_EBADQUERY, "EBADQUERY"%string);
     (ARES_EBADRESP, "EBADRESP"%string);
     (ARES_EBADSTR, "EBADSTR"%string);
     (ARES_ECANCELLED, "ECANCELLED"%string);
     (ARES_ECONNREFUSED, "ECONNREFUSED"%string);
     (ARES_EDESTRUCTION, "EDESTRUCTION"%string);
     (ARES_EFILE, "EFILE"%string);
     (ARES_EFORMERR, "EFORMERR"%string);
     (ARES_ELOADIPHLPAPI, "ELOADIPHLPAPI"%string);
     (ARES_ENODATA, "ENODATA"%string);
     (ARES_ENOMEM, "ENOMEM"%string);
     (ARES_ENONAME, "ENONAME"%string);
     (ARES_ENOTFOUND, "ENOTFOUND"%string);
     (ARES_ENOTIMP, "ENOTIMP"%string);
     (ARES_ENOTINITIALIZED, "ENOTINITIALIZED"%string);
     (ARES_EOF, "EOF"%string);
     (ARES_EREFUSED, "EREFUSED"%string);
     (ARES_ESERVFAIL, "ESERVFAIL"%string);
     (ARES_ETIMEOUT, "ETIMEOUT"%string)].
Proof.
  name_cases s; [right; code_found s; in_list..|by left].
Qed.

(** X7: whatever numbers the header gives the status codes, two statuses
    that [ToErrorCodeString] names alike, with a name other than
    [UNKNOWN_ARES_ERROR], are the same status; every code of the engine
    other than [ARES_SUCCESS] has such a name; and a number that is no code
    of the engine is named [UNKNOWN_ARES_ERROR]. *)
Theorem ToErrorCodeString_names (a b : Z) :
  (ToErrorCodeString a = ToErrorCodeString b ->
   ToErrorCodeString a <> "UNKNOWN_ARES_ERROR"%string -> a = b) /\
  (a ∈ engine_codes -> a <> ARES_SUCCESS ->
   ToErrorCodeString a <> "UNKNOWN_ARES_ERROR"%string) /\
  (a ∉ engine_codes -> ToErrorCodeString a = "UNKNOWN_ARES_ERROR"%string).
Proof.
  split; [|split].
  - intros Heq Hne.
    destruct (ToErrorCodeString_case a) as [Ha|Ha]; [done|].
    destruct (ToErrorCodeString_case b) as [Hb|Hb]; [congruence|].
    rewrite <- Heq in Hb.
    refine (pair_with_unique_name _ a b _ _ Ha Hb).
    apply (bool_decide_unpack _). vm_compute. reflexivity.
  - unfold engine_codes. intros Hin Hne.
    apply elem_of_cons in Hin as [Hin|Hin]; [done|].
    name_cases a; try discriminate.
    repeat (apply elem_of_cons in Hin as [->|Hin];
            [rewrite Z.eqb_refl in *; discriminate|]).
    by apply elem_of_nil in Hin.
  - intros Hnot.
    name_cases a;
      [exfalso; apply Hnot; code_found a; unfold engine_codes; in_list..|].
    reflexivity.
Qed.

End ErrorNames.

(** ** The decoders *)

Section DecoderProperties.
Context `{AresH, SysH, Uv} {decoder : Decoder}.

Lemma ParseGeneralReply_appends buf len type ret n r :
  ParseGeneralReply buf len type ret n = Done r ->
  exists new,
    gr_ret r = ret ++ new /\
    (gr_status r <> ARES_SUCCESS -> new = [] /\ gr_type r = type).
Proof.
  unfold ParseGeneralReply.
  set (pick := if (type =? ns_t_a) || _ || _ then _ else _).
  destruct pick as [[[[status host] ttls] n']| |]; [|discriminate..].
  cbn [mbind outcome_bind].
  destruct (status =? ARES_SUCCESS) eqn:Es; simpl.
  - destruct (_ || _).
    + destruct (h_name host); [|discriminate].
      intros [= <-]. simpl. eexists. split; [reflexivity|]. by intros [].
    + destruct (_ =? ns_t_ns); [|destruct (_ =? ns_t_ptr)];
        intros [= <-]; simpl; (eexists; split; [reflexivity|]; by intros []).
  - intros [= <-]. simpl. exists []. by rewrite app_nil_r.
Qed.

Lemma ParseTxtReply_loop_appends need_type current txt_chunk ret txt_chunk' ret' :
  ParseTxtReply_loop need_type current txt_chunk ret = Done (txt_chunk', ret') ->
  exists new,
    ret' = ret ++ new /\
    Forall (fun v => exists chunk, v = txt_elem need_type chunk) new.
Proof.
  revert txt_chunk ret.
  induction current as [|cur next IH]; intros txt_chunk ret; simpl.
  - intros [= <- <-]. exists []. by rewrite app_nil_r.
  - destruct (record_start cur).
    + destruct txt_chunk as [chunk|].
      * intros (new & -> & Hnew)%IH. exists (txt_elem need_type chunk :: new).
        rewrite <- (assoc_L (++)). split; [reflexivity|].
        apply Forall_cons. split; [by eexists | exact Hnew].
      * apply IH.
    + destruct txt_chunk as [chunk|]; [apply IH | discriminate].
Qed.

(** X8: a decoder only appends: whatever it returns, the array it was given
    is a prefix of the array it leaves, and with a status other than
    [ARES_SUCCESS] it leaves the array, and [ParseGeneralReply] the type, as
    they were. *)
Theorem decoders_only_append (buf : list Z) (len : Z) (ret : list value)
    (need_type : bool) :
  (forall status ret',
     (ParseMxReply buf len ret need_type = (status, ret') \/
      ParseCaaReply buf len ret need_type = (status, ret') \/
      ParseSrvReply buf len ret need_type = (status, ret') \/
      ParseNaptrReply buf len ret need_type = (status, ret') \/
      ParseTxtReply buf len ret need_type = Done (status, ret')) ->
     ret `prefix_of` ret' /\ (status <> ARES_SUCCESS -> ret' = ret)) /\
  (forall type naddrttls r,
     ParseGeneralReply buf len type ret naddrttls = Done r ->
     ret `prefix_of` gr_ret r /\
     (gr_status r <> ARES_SUCCESS -> gr_ret r = ret /\ gr_type r = type)).
Proof.
  split.
  - intros status ret'.
    unfold ParseMxReply, ParseCaaReply, ParseSrvReply, ParseNaptrReply,
      ParseTxtReply.
    intros [Hp | [Hp | [Hp | [Hp | Hp]]]]; revert Hp.
    + destruct (ares_parse_mx_reply buf len) as [st l].
      destruct (st =? ARES_SUCCESS) eqn:E; simpl; intros [= <- <-].
      * split; [by eexists | by intros []].
      * split; [reflexivity | done].
    + destruct (ares_parse_caa_reply buf len) as [st l].
      destruct (st =? ARES_SUCCESS) eqn:E; simpl; intros [= <- <-].
      * split; [by eexists | by intros []].
      * split; [reflexivity | done].
    + destruct (ares_parse_srv_reply buf len) as [st l].
      destruct (st =? ARES_SUCCESS) eqn:E; simpl; intros [= <- <-].
      * split; [by eexists | by intros []].
      * split; [reflexivity | done].
    + destruct (ares_parse_naptr_reply buf len) as [st l].
      destruct (st =? ARES_SUCCESS) eqn:E; simpl; intros [= <- <-].
      * split; [by eexists | by intros []].
      * split; [reflexivity | done].
    + destruct (ares_parse_txt_reply_ext buf len) as [st l].
      destruct (st =? ARES_SUCCESS) eqn:E; simpl.
      * destruct (ParseTxtReply_loop need_type l None ret)
          as [[chunk ret1]| |] eqn:El; [|discriminate..].
        apply ParseTxtReply_loop_appends in El as (new & -> & _).
        cbn [mbind outcome_bind].
        destruct chunk; intros [= <- <-];
          (split; [|by intros []]).
        -- rewrite <- (assoc_L (++)). by eexists.
        -- by eexists.
      * intros [= <- <-]. split; [reflexivity | done].
  - intros type naddrttls r (new & -> & Hfail)%ParseGeneralReply_appends.
    split; [by eexists|]. intros Hst. destruct (Hfail Hst) as [-> ->].
    by rewrite app_nil_r.
Qed.

Lemma ParseTxtReply_loop_groups need_type current chunk ret :
  exists rest groups,
    current = rest ++ concat groups /\
    Forall (fun e => record_start e = false) rest /\
    record_groups groups /\
    exists last_chunk ret',
      ParseTxtReply_loop need_type current (Some chunk) ret
      = Done (Some last_chunk, ret') /\
      ret' ++ [txt_elem need_type last_chunk]
      = ret ++ txt_elem need_type (chunk ++ chunk_of rest)
            :: map (fun g => txt_elem need_type (chunk_of g)) groups.
Proof.
  revert chunk ret.
  induction current as [|cur next IH]; intros chunk ret.
  - exists [], []. split; [reflexivity|]. split; [constructor|].
    split; [constructor|]. eexists _, _. split; [reflexivity|].
    simpl. by rewrite app_nil_r.
  - simpl. destruct (record_start cur) eqn:Ec.
    + destruct (IH ([] ++ [Str (txt cur)]) (ret ++ [txt_elem need_type chunk]))
        as (rest & groups & -> & Hrest & Hgroups & lc & ret' & Hloop & Hret).
      exists [], ((cur :: rest) :: groups). split; [reflexivity|].
      split; [constructor|]. split.
      { apply Forall_cons. split; [by eexists _, _ | exact Hgroups]. }
      exists lc, ret'. split; [exact Hloop|]. rewrite Hret. simpl.
      by rewrite <- (assoc_L (++)), app_nil_r.
    + destruct (IH (chunk ++ [Str (txt cur)]) ret)
        as (rest & groups & -> & Hrest & Hgroups & lc & ret' & Hloop & Hret).
      exists (cur :: rest), groups. split; [reflexivity|].
      split; [by apply Forall_cons|]. split; [exact Hgroups|].
      exists lc, ret'. split; [exact Hloop|]. rewrite Hret. simpl.
      by rewrite <- (assoc_L (++)).
Qed.

(** X9: on a TXT answer that the engine decodes, [ParseTxtReply] appends
    one element for every record, in order, holding the fragments of the
    record in order: the fragments are cut into groups at every fragment
    that starts a record.  With no fragment it appends nothing; on a first
    fragment that does not start a record it writes through an empty
    handle. *)
Theorem ParseTxtReply_chunks (buf : list Z) (len : Z) (ret : list value)
    (need_type : bool) (txt_out : list ares_txt_ext) :
  ares_parse_txt_reply_ext buf len = (ARES_SUCCESS, txt_out) ->
  match txt_out with
  | [] => ParseTxtReply buf len ret need_type = Done (ARES_SUCCESS, ret)
  | first :: _ =>
      if record_start first then
        exists groups,
          txt_out = concat groups /\
          record_groups groups /\
          ParseTxtReply buf len ret need_type
          = Done (ARES_SUCCESS,
                  ret ++ map (fun g => txt_elem need_type (chunk_of g)) groups)
      else
        ParseTxtReply buf len ret need_type
        = Undefined "txt_chunk->Set: empty handle"
  end.
Proof.
  intros Hd. unfold ParseTxtReply. rewrite Hd, Z.eqb_refl. simpl.
  destruct txt_out as [|first next]; [reflexivity|]. simpl.
  destruct (record_start first) eqn:Ef; [|reflexivity].
  destruct (ParseTxtReply_loop_groups need_type next ([] ++ [Str (txt first)]) ret)
    as (rest & groups & -> & Hrest & Hgroups & lc & ret' & Hloop & Hret).
  exists ((first :: rest) :: groups). split; [reflexivity|]. split.
  { apply Forall_cons. split; [by eexists _, _ | exact Hgroups]. }
  rewrite Hloop. cbn [mbind outcome_bind]. by rewrite Hret.
Qed.

Lemma bad_name_is_bad_resp_not_name (st : Z) :
  ARES_EBADRESP <> ARES_EBADNAME ->
  bad_name_is_bad_resp st <> ARES_EBADNAME.
Proof.
  intros Hne. unfold bad_name_is_bad_resp.
  destruct (st =? ARES_EBADNAME) eqn:E; [exact Hne | lia].
Qed.

Lemma ParseSoaReply_loop_status buf len n ptr :
  ARES_EBADRESP <> ARES_EBADNAME -> ARES_SUCCESS <> ARES_EBADNAME ->
  let r := ParseSoaReply_loop buf len n ptr in
  r.1 <> ARES_EBADNAME /\
  (r.1 <> ARES_SUCCESS -> r.2 = None) /\
  (forall v, r.2 = Some v -> has_type_string v = true).
Proof.
  intros Hresp Hsucc. revert ptr.
  induction n as [|n IH]; intros ptr; simpl; [by repeat split|].
  destruct (ares_expand_name ptr buf len) as [[st2 name2] len2].
  destruct (st2 =? ARES_SUCCESS); simpl;
    [|split; [by apply bad_name_is_bad_resp_not_name | by split]].
  destruct (_ >? len); simpl; [by repeat split|].
  destruct (_ =? ns_t_soa); [|apply IH].
  destruct (ares_expand_name _ buf len) as [[st3 name3] len3].
  destruct (st3 =? ARES_SUCCESS); simpl;
    [|split; [by apply bad_name_is_bad_resp_not_name | by split]].
  destruct (ares_expand_name _ buf len) as [[st4 name4] len4].
  destruct (st4 =? ARES_SUCCESS); simpl;
    [|split; [by apply bad_name_is_bad_resp_not_name | by split]].
  destruct (_ >? len); simpl; [by repeat split|].
  split; [done|]. split; [done|]. by intros v [= <-].
Qed.

(** X10: on a header where [ARES_EBADNAME] is neither [ARES_EBADRESP] nor
    [ARES_SUCCESS], [ParseSoaReply] never returns [ARES_EBADNAME]; it hands
    over a record only with [ARES_SUCCESS]; and the record names its
    type. *)
Theorem ParseSoaReply_status (buf : list Z) (len : Z) :
  ARES_EBADRESP <> ARES_EBADNAME -> ARES_SUCCESS <> ARES_EBADNAME ->
  (ParseSoaReply buf len).1 <> ARES_EBADNAME /\
  ((ParseSoaReply buf len).1 <> ARES_SUCCESS ->
   (ParseSoaReply buf len).2 = None) /\
  (forall v, (ParseSoaReply buf len).2 = Some v -> has_type_string v = true).
Proof.
  intros Hresp Hsucc. unfold ParseSoaReply.
  destruct (ares_expand_name NS_HFIXEDSZ buf len) as [[st name] tl].
  destruct (st =? ARES_SUCCESS); simpl;
    [|split; [by apply bad_name_is_bad_resp_not_name | by split]].
  destruct (_ >? len); simpl; [by repeat split|].
  by apply ParseSoaReply_loop_status.
Qed.

End DecoderProperties.

Section AnyProperties.
Context `{AresH, SysH, Uv} {decoder : Decoder}.

Local Abbreviation typed := (Forall (fun v => has_type_string v = true)).

(** What a pass of [QueryAnyWrap::Parse] and the passes after it do with
    the completion hook. *)
Local Abbreviation any_calls srv calls :=
  ((calls = [] /\ failed srv = true) \/
   (exists st, failed st = true /\ calls = [[Str (ToErrorCodeString st)]]) \/
   (exists ret, calls = [[Int 0; Arr ret]] /\ typed ret)).

Lemma failed_SUCCESS : failed ARES_SUCCESS = false.
Proof. unfold failed. by rewrite Z.eqb_refl. Qed.

Lemma ParseError_failed (st : Z) :
  failed st = true -> ParseError st = Done [[Str (ToErrorCodeString st)]].
Proof.
  intros Hf. unfold ParseError. by rewrite (failed_not_success st Hf).
Qed.

Lemma typed_imap (f : nat -> value -> value) (l : list value) :
  (forall i v, has_type_string (f i v) = true) -> typed (imap f l).
Proof.
  revert f. induction l as [|x l IH]; intros f Hf; simpl; [constructor|].
  apply Forall_cons. split; [apply Hf | apply IH; intros; apply Hf].
Qed.

Lemma typed_map (f : value -> value) (l : list value) :
  (forall v, has_type_string (f v) = true) -> typed (map f l).
Proof. intros Hf. apply Forall_fmap, Forall_forall. intros v _. apply Hf. Qed.

Lemma typed_records {A} (f : A -> value) (l : list A) :
  (forall a, has_type_string (f a) = true) -> typed (map f l).
Proof. intros Hf. apply Forall_fmap, Forall_forall. intros v _. apply Hf. Qed.

(** A pass that hands its status to [ParseError] when it failed. *)
Lemma pass_calls (srv st : Z) (rest : outcome (list (list value)))
    (calls : list (list value)) :
  (if failed st then ParseError st else rest) = Done calls ->
  (rest = Done calls -> any_calls srv calls) ->
  any_calls srv calls.
Proof.
  destruct (failed st) eqn:Ef; [|auto].
  rewrite ParseError_failed by exact Ef. intros [= <-] _.
  right. left. by exists st.
Qed.

Lemma Parse_from_CAA_calls srv buf len ret calls :
  typed ret -> Parse_from_CAA buf len ret = Done calls ->
  any_calls srv calls.
Proof.
  intros Ht. unfold Parse_from_CAA, ParseCaaReply.
  destruct (ares_parse_caa_reply buf len) as [st l].
  destruct (st =? ARES_SUCCESS); simpl; intros Hp;
    apply (pass_calls _ _ _ _ Hp); intros [= <-];
    right; right; eexists; (split; [reflexivity|]); [|exact Ht].
  apply Forall_app. split; [exact Ht|]. by apply typed_records.
Qed.

Lemma Parse_from_SOA_calls srv buf len ret calls :
  typed ret -> Parse_from_SOA buf len ret = Done calls ->
  any_calls srv calls.
Proof.
  intros Ht. unfold Parse_from_SOA.
  destruct (ParseSoaReply buf len) as [st soa] eqn:Es. intros Hp.
  apply (pass_calls _ _ _ _ Hp). apply Parse_from_CAA_calls.
  apply Forall_app. split; [exact Ht|].
  destruct soa as [v|]; [|constructor]. apply Forall_singleton.
  unfold ParseSoaReply in Es.
  destruct (ares_expand_name NS_HFIXEDSZ buf len) as [[st0 name] tl].
  destruct (negb (st0 =? ARES_SUCCESS)); [discriminate|].
  destruct (_ >? len); [discriminate|].
  assert (Hloop : forall n ptr v0,
    (ParseSoaReply_loop buf len n ptr).2 = Some v0 ->
    has_type_string v0 = true).
  { clear. induction n as [|n IH]; intros ptr v0; simpl; [discriminate|].
    destruct (ares_expand_name ptr buf len) as [[st2 name2] len2].
    destruct (negb (st2 =? ARES_SUCCESS)); [discriminate|].
    destruct (_ >? len); [discriminate|].
    destruct (_ =? ns_t_soa); [|apply IH].
    destruct (ares_expand_name _ buf len) as [[st3 name3] len3].
    destruct (negb (st3 =? ARES_SUCCESS)); [discriminate|].
    destruct (ares_expand_name _ buf len) as [[st4 name4] len4].
    destruct (negb (st4 =? ARES_SUCCESS)); [discriminate|].
    destruct (_ >? len); [discriminate|]. by intros [= <-]. }
  eapply Hloop. by rewrite Es.
Qed.

Lemma Parse_from_NAPTR_calls srv buf len ret calls :
  typed ret -> Parse_from_NAPTR buf len ret = Done calls ->
  any_calls srv calls.
Proof.
  intros Ht. unfold Parse_from_NAPTR, ParseNaptrReply.
  destruct (ares_parse_naptr_reply buf len) as [st l].
  destruct (st =? ARES_SUCCESS); simpl; intros Hp;
    apply (pass_calls _ _ _ _ Hp); apply Parse_from_SOA_calls;
    [|exact Ht].
  apply Forall_app. split; [exact Ht|]. by apply typed_records.
Qed.

Lemma Parse_from_PTR_calls srv buf len ret calls :
  typed ret -> Parse_from_PTR buf len ret = Done calls ->
  any_calls srv calls.
Proof.
  intros Ht. unfold Parse_from_PTR.
  destruct (ParseGeneralReply buf len ns_t_ptr ret None) as [r| |] eqn:Er;
    [|discriminate..].
  apply ParseGeneralReply_appends in Er as (new & Hret & _).
  cbn [mbind outcome_bind]. rewrite Hret, take_app_length, drop_app_length.
  apply Parse_from_NAPTR_calls.
  apply Forall_app. split; [exact Ht | by apply typed_map].
Qed.

Lemma Parse_from_SRV_calls buf len ret calls :
  typed ret -> Parse_from_SRV buf len ret = Done calls ->
  any_calls (ares_parse_srv_reply buf len).1 calls.
Proof.
  intros Ht. unfold Parse_from_SRV, ParseSrvReply.
  destruct (ares_parse_srv_reply buf len) as [st l]. simpl.
  destruct (st =? ARES_SUCCESS); simpl.
  - rewrite failed_SUCCESS. apply Parse_from_PTR_calls.
    apply Forall_app. split; [exact Ht|]. by apply typed_records.
  - pose proof (Parse_from_PTR_calls st buf len ret calls Ht) as Hptr.
    destruct (failed st) eqn:Ef; [by intros [= <-]; left | exact Hptr].
Qed.

Lemma ParseTxtReply_loop_typed current txt_chunk ret txt_chunk' ret' :
  typed ret ->
  ParseTxtReply_loop true current txt_chunk ret = Done (txt_chunk', ret') ->
  typed ret'.
Proof.
  intros Ht (new & -> & Hnew)%ParseTxtReply_loop_appends.
  apply Forall_app. split; [exact Ht|].
  eapply Forall_impl; [exact Hnew|]. by intros v [chunk ->].
Qed.

Lemma Parse_from_TXT_calls buf len ret calls :
  typed ret -> Parse_from_TXT buf len ret = Done calls ->
  any_calls (ares_parse_srv_reply buf len).1 calls.
Proof.
  intros Ht. unfold Parse_from_TXT, ParseTxtReply.
  destruct (ares_parse_txt_reply_ext buf len) as [st l].
  destruct (st =? ARES_SUCCESS); simpl.
  - destruct (ParseTxtReply_loop true l None ret) as [[chunk ret1]| |] eqn:El;
      [|discriminate..].
    apply ParseTxtReply_loop_typed in El; [|exact Ht].
    cbn [mbind outcome_bind].
    destruct chunk; cbn [mbind outcome_bind]; rewrite failed_SUCCESS;
      apply Parse_from_SRV_calls; [|exact El].
    apply Forall_app. split; [exact El | by apply Forall_singleton].
  - intros Hp. apply (pass_calls _ _ _ _ Hp).
    by apply Parse_from_SRV_calls.
Qed.

Lemma Parse_from_NS_calls buf len ret calls :
  typed ret -> Parse_from_NS buf len ret = Done calls ->
  any_calls (ares_parse_srv_reply buf len).1 calls.
Proof.
  intros Ht. unfold Parse_from_NS.
  destruct (ParseGeneralReply buf len ns_t_ns ret None) as [r| |] eqn:Er;
    [|discriminate..].
  apply ParseGeneralReply_appends in Er as (new & Hret & _).
  cbn [mbind outcome_bind]. rewrite Hret, take_app_length, drop_app_length.
  intros Hp. apply (pass_calls _ _ _ _ Hp).
  apply Parse_from_TXT_calls.
  apply Forall_app. split; [exact Ht | by apply typed_map].
Qed.

Lemma Parse_from_MX_calls buf len ret calls :
  typed ret -> Parse_from_MX buf len ret = Done calls ->
  any_calls (ares_parse_srv_reply buf len).1 calls.
Proof.
  intros Ht. unfold Parse_from_MX, ParseMxReply.
  destruct (ares_parse_mx_reply buf len) as [st l].
  destruct (st =? ARES_SUCCESS); simpl; intros Hp;
    apply (pass_calls _ _ _ _ Hp); apply Parse_from_NS_calls;
    [|exact Ht].
  apply Forall_app. split; [exact Ht|]. by apply typed_records.
Qed.

Lemma CHECK_bind {A} (cond : bool) (msg : string) (k : unit -> outcome A)
    (a : A) :
  CHECK cond msg ≫= k = Done a -> cond = true /\ k tt = Done a.
Proof. by destruct cond. Qed.

Lemma Parse_from_AAAA_calls buf len ret calls :
  typed ret ->
  Parse_from_AAAA buf len (length ret) ret = Done calls ->
  any_calls (ares_parse_srv_reply buf len).1 calls.
Proof.
  intros Ht. unfold Parse_from_AAAA.
  destruct (ParseGeneralReply buf len ns_t_aaaa ret (Some 256)) as [r| |] eqn:Er;
    [|discriminate..].
  apply ParseGeneralReply_appends in Er as (new & Hret & _).
  cbn [mbind outcome_bind]. intros Hp. apply (pass_calls _ _ _ _ Hp).
  intros [_ [_ Hmx]%CHECK_bind]%CHECK_bind. revert Hmx.
  rewrite Hret, take_app_length, drop_app_length.
  apply Parse_from_MX_calls.
  apply Forall_app. split; [exact Ht | by apply typed_imap].
Qed.

(** X11: whenever [QueryAnyWrap::Parse] returns it has called the completion
    hook at most once: not at all, which happens only when the SRV pass
    failed; or once with the name of a status that is neither success nor
    [ARES_ENODATA]; or once with 0 and the array of records, every element
    of which is an object that names its record type. *)
Theorem QueryAnyWrap_Parse_calls (buf : list Z) (len : Z)
    (calls : list (list value)) :
  QueryAnyWrap_Parse buf len = Done calls ->
  (calls = [] /\ failed (ares_parse_srv_reply buf len).1 = true) \/
  (exists status,
     failed status = true /\ calls = [[Str (ToErrorCodeString status)]]) \/
  (exists ret,
     calls = [[Int 0; Arr ret]] /\
     Forall (fun v => has_type_string v = true) ret).
Proof.
  unfold QueryAnyWrap_Parse.
  destruct (ParseGeneralReply buf len ns_t_cname_or_a [] (Some 256))
    as [r| |] eqn:Er; [|discriminate..].
  cbn [mbind outcome_bind]. intros Hp. apply (pass_calls _ _ _ _ Hp).
  destruct (gr_type r =? ns_t_a).
  - unfold CHECK.
    destruct (to_uint32 _ =? _); cbn [mbind outcome_bind]; [|discriminate].
    rewrite <- (length_imap (typed_address "dns_a_string" (gr_ttls r))).
    apply Parse_from_AAAA_calls. by apply typed_imap.
  - cbn [mbind outcome_bind].
    rewrite <- (length_map (typed_value "dns_cname_string")).
    apply Parse_from_AAAA_calls. by apply typed_map.
Qed.

End AnyProperties.

(** ** The classes that query one record type *)

Section RecordTypeProperties.
Context `{AresH, SysH, RecordTypesH, Uv} {decoder : Decoder}
        {soa_decoder : SoaDecoder}.

(** [Parse] has called the completion hook once: with the name of an error,
    or with 0 and an answer. *)
Local Abbreviation called_once calls :=
  ((exists status,
      status <> ARES_SUCCESS /\ calls = [[Str (ToErrorCodeString status)]]) \/
   (exists answer extra, calls = [[Int 0; answer] ++ option_list extra])).

Lemma ParseError_or_answer (status : Z) (rest : outcome (list (list value)))
    (calls : list (list value)) :
  (if negb (status =? ARES_SUCCESS) then ParseError status else rest)
  = Done calls ->
  (status <> ARES_SUCCESS /\ calls = [[Str (ToErrorCodeString status)]]) \/
  (status = ARES_SUCCESS /\ rest = Done calls).
Proof.
  unfold ParseError. destruct (status =? ARES_SUCCESS) eqn:E; simpl.
  - right. split; [lia | done].
  - intros [= <-]. left. split; [lia | done].
Qed.

Lemma address_Parse_called_once type buf len calls :
  (r ← ParseGeneralReply buf len type [] (Some 256);
   if negb (gr_status r =? ARES_SUCCESS) then ParseError (gr_status r)
   else
     ttls ← AddrTTLToArray (gr_ttls r) (default 0 (gr_naddrttls r));
     Done (CallOnComplete (Arr (gr_ret r)) (Some ttls))) = Done calls ->
  called_once calls.
Proof.
  destruct (ParseGeneralReply _ _ _ _ _) as [r| |]; [|discriminate..].
  cbn [mbind outcome_bind].
  intros [[Hs ->] | [_ Hr]]%ParseError_or_answer.
  - left. by eexists.
  - destruct (AddrTTLToArray _ _) as [ttls| |]; [|discriminate..].
    injection Hr as <-. right. by eexists _, _.
Qed.

Lemma name_Parse_called_once type buf len calls :
  (r ← ParseGeneralReply buf len type [] None;
   if negb (gr_status r =? ARES_SUCCESS) then ParseError (gr_status r)
   else Done (CallOnComplete (Arr (gr_ret r)) None)) = Done calls ->
  called_once calls.
Proof.
  destruct (ParseGeneralReply _ _ _ _ _) as [r| |]; [|discriminate..].
  cbn [mbind outcome_bind].
  intros [[Hs ->] | [_ [= <-]]]%ParseError_or_answer.
  - left. by eexists.
  - right. by eexists _, _.
Qed.

Lemma list_Parse_called_once (decoded : Z * list value) calls :
  (let '(status, ret) := decoded in
   if negb (status =? ARES_SUCCESS) then ParseError status
   else Done (CallOnComplete (Arr ret) None)) = Done calls ->
  called_once calls.
Proof.
  destruct decoded as [status ret].
  intros [[Hs ->] | [_ [= <-]]]%ParseError_or_answer.
  - left. by eexists.
  - right. by eexists _, _.
Qed.

(** [ParseError] or the success of a [Parse], as the calls of the hook. *)
Lemma ParseError_or_Done (st : Z) (success : list (list value)) :
  (if negb (st =? ARES_SUCCESS) then ParseError st else Done success)
  = Done (if st =? ARES_SUCCESS then success
          else [[Str (ToErrorCodeString st)]]).
Proof. unfold ParseError, CHECK. by destruct (st =? ARES_SUCCESS). Qed.

(** [ParseGeneralReply] for the type of a class, on labels of the [switch]
    that are distinct. *)
Lemma ParseGeneralReply_address (aaaa : bool) buf len :
  NoDup [ns_t_a; ns_t_aaaa; ns_t_cname; ns_t_ns; ns_t_ptr; ns_t_cname_or_a] ->
  let r := if aaaa then ares_parse_aaaa_reply buf len (Some 256)
           else ares_parse_a_reply buf len (Some 256) in
  ParseGeneralReply buf len (if aaaa then ns_t_aaaa else ns_t_a) [] (Some 256)
  = Done {| gr_status := ar_status r;
            gr_type := if aaaa then ns_t_aaaa else ns_t_a;
            gr_ret :=
              if ar_status r =? ARES_SUCCESS
              then map (fun a => Str (uv_inet_ntop (h_addrtype (ar_host r)) a))
                       (h_addr_list (ar_host r))
              else [];
            gr_ttls := ar_ttls r;
            gr_naddrttls := Some (ar_naddrttls r) |}.
Proof.
  intros Hnd r.
  assert (Hd : ns_t_a <> ns_t_aaaa /\ ns_t_a <> ns_t_cname /\
               ns_t_a <> ns_t_ns /\ ns_t_a <> ns_t_ptr /\
               ns_t_a <> ns_t_cname_or_a /\ ns_t_aaaa <> ns_t_cname /\
               ns_t_aaaa <> ns_t_ns /\ ns_t_aaaa <> ns_t_ptr /\
               ns_t_aaaa <> ns_t_cname_or_a).
  { rewrite !NoDup_cons, !elem_of_cons, elem_of_nil in Hnd. intuition congruence. }
  destruct Hd as (D1 & D2 & D3 & D4 & D5 & D6 & D7 & D8 & D9).
  unfold ParseGeneralReply. subst r. destruct aaaa.
  - destruct (ns_t_aaaa =? ns_t_a) eqn:E1; [lia|].
    destruct (ns_t_aaaa =? ns_t_cname) eqn:E2; [lia|].
    destruct (ns_t_aaaa =? ns_t_cname_or_a) eqn:E3; [lia|].
    rewrite ?Z.eqb_refl. simpl. rewrite ?E3, ?Z.eqb_refl. simpl.
    destruct (ns_t_aaaa =? ns_t_ns) eqn:E4; [lia|].
    destruct (ns_t_aaaa =? ns_t_ptr) eqn:E5; [lia|].
    by destruct (ar_status _ =? ARES_SUCCESS) eqn:Es; simpl;
      [apply Z.eqb_eq in Es as ->|].
  - rewrite Z.eqb_refl. simpl.
    destruct (ns_t_a =? ns_t_cname) eqn:E2; [lia|].
    destruct (ns_t_a =? ns_t_cname_or_a) eqn:E3; [lia|]. simpl.
    destruct (ns_t_a =? ns_t_ns) eqn:E4; [lia|].
    destruct (ns_t_a =? ns_t_ptr) eqn:E5; [lia|].
    by destruct (ar_status _ =? ARES_SUCCESS) eqn:Es; simpl;
      [apply Z.eqb_eq in Es as ->|].
Qed.

Lemma ParseGeneralReply_names (ptr : bool) buf len :
  NoDup [ns_t_a; ns_t_aaaa; ns_t_cname; ns_t_ns; ns_t_ptr; ns_t_cname_or_a] ->
  let r := if ptr then ares_parse_ptr_reply buf len
           else ares_parse_ns_reply buf len in
  ParseGeneralReply buf len (if ptr then ns_t_ptr else ns_t_ns) [] None
  = Done {| gr_status := r.1;
            gr_type := if ptr then ns_t_ptr else ns_t_ns;
            gr_ret := if r.1 =? ARES_SUCCESS then map Str (h_aliases r.2)
                      else [];
            gr_ttls := [];
            gr_naddrttls := None |}.
Proof.
  intros Hnd r.
  assert (Hd : ns_t_ns <> ns_t_a /\ ns_t_ns <> ns_t_aaaa /\
               ns_t_ns <> ns_t_cname /\ ns_t_ns <> ns_t_cname_or_a /\
               ns_t_ptr <> ns_t_a /\ ns_t_ptr <> ns_t_aaaa /\
               ns_t_ptr <> ns_t_cname /\ ns_t_ptr <> ns_t_cname_or_a /\
               ns_t_ptr <> ns_t_ns).
  { rewrite !NoDup_cons, !elem_of_cons, elem_of_nil in Hnd. intuition congruence. }
  destruct Hd as (D1 & D2 & D3 & D4 & D5 & D6 & D7 & D8 & D9).
  unfold ParseGeneralReply. subst r. destruct ptr.
  - destruct (ns_t_ptr =? ns_t_a) eqn:E1; [lia|].
    destruct (ns_t_ptr =? ns_t_cname) eqn:E2; [lia|].
    destruct (ns_t_ptr =? ns_t_cname_or_a) eqn:E3; [lia|].
    destruct (ns_t_ptr =? ns_t_aaaa) eqn:E4; [lia|].
    destruct (ns_t_ptr =? ns_t_ns) eqn:E5; [lia|].
    rewrite ?Z.eqb_refl. simpl. rewrite ?E3, ?E5, ?Z.eqb_refl. simpl.
    by destruct ((ares_parse_ptr_reply buf len).1 =? ARES_SUCCESS) eqn:Es; simpl;
      [apply Z.eqb_eq in Es as ->|].
  - destruct (ns_t_ns =? ns_t_a) eqn:E1; [lia|].
    destruct (ns_t_ns =? ns_t_cname) eqn:E2; [lia|].
    destruct (ns_t_ns =? ns_t_cname_or_a) eqn:E3; [lia|].
    destruct (ns_t_ns =? ns_t_aaaa) eqn:E4; [lia|].
    rewrite ?Z.eqb_refl. simpl. rewrite ?E3, ?Z.eqb_refl. simpl.
    by destruct ((ares_parse_ns_reply buf len).1 =? ARES_SUCCESS) eqn:Es; simpl;
      [apply Z.eqb_eq in Es as ->|].
Qed.

(** The loop of [ParseTxtReply] over fragments that continue a record, and
    over whole records. *)
Lemma ParseTxtReply_loop_rest need_type rest more chunk ret :
  Forall (fun e => record_start e = false) rest ->
  ParseTxtReply_loop need_type (rest ++ more) (Some chunk) ret
  = ParseTxtReply_loop need_type more (Some (chunk ++ chunk_of rest)) ret.
Proof.
  intros Hrest. revert chunk.
  induction Hrest as [|e rest He _ IH]; intros chunk; simpl.
  - by rewrite app_nil_r.
  - rewrite He, IH. by rewrite <- (assoc_L (++)).
Qed.

Lemma ParseTxtReply_loop_records need_type groups chunk ret :
  record_groups groups ->
  exists last_chunk ret',
    ParseTxtReply_loop need_type (concat groups) (Some chunk) ret
    = Done (Some last_chunk, ret') /\
    ret' ++ [txt_elem need_type last_chunk]
    = ret ++ txt_elem need_type chunk
          :: map (fun g => txt_elem need_type (chunk_of g)) groups.
Proof.
  intros Hrec. revert chunk ret.
  induction Hrec as [|g groups (first & rest & -> & Hfirst & Hrest) _ IH];
    intros chunk ret.
  - by exists chunk, ret.
  - simpl. rewrite Hfirst.
    rewrite (ParseTxtReply_loop_rest need_type rest) by exact Hrest.
    destruct (IH (([] ++ [Str (txt first)]) ++ chunk_of rest)
                 (ret ++ [txt_elem need_type chunk]))
      as (lc & ret' & Hloop & Hret).
    exists lc, ret'. split; [exact Hloop|]. rewrite Hret.
    by rewrite <- (assoc_L (++)).
Qed.

(** X12: what the [Parse] of each of the eleven classes that query one
    record type hands to the completion hook, in terms of what the decoder
    of the engine returns.  Whenever such a [Parse] returns it has made
    exactly one call.  On labels of the [switch] of [ParseGeneralReply] that
    are distinct, the call is [report st answer] for the status [st] of the
    decoder that the class uses: the name of [st] alone when [st] is not
    [ARES_SUCCESS] ([ARES_ENODATA] included), and otherwise 0 and the
    answer.  The answer is the array of the addresses followed by the array
    of their TTLs for A and AAAA (where the decoder has written the TTLs it
    counts), the canonical name for CNAME (where the host entry has one),
    the aliases of the host entry for NS and PTR, an object for every
    record, without a type, for MX, CAA, SRV and NAPTR, one object for SOA,
    and an array of the fragments of every record for TXT. *)
Theorem record_type_Parse_calls_once (buf : list Z) (len : Z) :
  NoDup [ns_t_a; ns_t_aaaa; ns_t_cname; ns_t_ns; ns_t_ptr; ns_t_cname_or_a] ->
  let report (st : Z) (answer : list value) : list (list value) :=
    if st =? ARES_SUCCESS then [Int 0 :: answer]
    else [[Str (ToErrorCodeString st)]] in
  let addresses (host : hostent) : value :=
    Arr (map (fun a => Str (uv_inet_ntop (h_addrtype host) a))
             (h_addr_list host)) in
  let ttls (r : addr_reply) : value :=
    Arr (map (fun ttl => Int (to_uint32 ttl))
             (take (Z.to_nat (ar_naddrttls r)) (ar_ttls r))) in
  let names (host : hostent) : value := Arr (map Str (h_aliases host)) in
  let a := ares_parse_a_reply buf len (Some 256) in
  let aaaa := ares_parse_aaaa_reply buf len (Some 256) in
  let cname := ares_parse_a_reply buf len None in
  let ns := ares_parse_ns_reply buf len in
  let ptr := ares_parse_ptr_reply buf len in
  let mx := ares_parse_mx_reply buf len in
  let caa := ares_parse_caa_reply buf len in
  let srv := ares_parse_srv_reply buf len in
  let naptr := ares_parse_naptr_reply buf len in
  let soa := ares_parse_soa_reply buf len in
  let txts := ares_parse_txt_reply_ext buf len in
  (forall cls calls,
     cls ∈ record_type_wraps ->
     class_Parse_buf cls buf len = Done calls -> exists argv, calls = [argv]) /\
  ((ar_status a = ARES_SUCCESS ->
    0 <= ar_naddrttls a <= Z.of_nat (length (ar_ttls a))) ->
   class_Parse_buf QueryAWrap buf len
   = Done (report (ar_status a) [addresses (ar_host a); ttls a])) /\
  ((ar_status aaaa = ARES_SUCCESS ->
    0 <= ar_naddrttls aaaa <= Z.of_nat (length (ar_ttls aaaa))) ->
   class_Parse_buf QueryAaaaWrap buf len
   = Done (report (ar_status aaaa) [addresses (ar_host aaaa); ttls aaaa])) /\
  (forall name,
     (ar_status cname = ARES_SUCCESS -> h_name (ar_host cname) = Some name) ->
     class_Parse_buf QueryCnameWrap buf len
     = Done (report (ar_status cname) [Arr [Str name]])) /\
  class_Parse_buf QueryNsWrap buf len = Done (report ns.1 [names ns.2]) /\
  class_Parse_buf QueryPtrWrap buf len = Done (report ptr.1 [names ptr.2]) /\
  class_Parse_buf QueryMxWrap buf len
  = Done (report mx.1
            [Arr (map (fun r =>
                    Obj [(EnvStr "exchange_string", Str (mx_host r));
                         (EnvStr "priority_string", Int (mx_priority r))])
                  mx.2)]) /\
  class_Parse_buf QueryCaaWrap buf len
  = Done (report caa.1
            [Arr (map (fun r =>
                    Obj [(EnvStr "dns_critical_string", Int (caa_critical r));
                         (Str (caa_property r), Str (caa_value r))])
                  caa.2)]) /\
  class_Parse_buf QuerySrvWrap buf len
  = Done (report srv.1
            [Arr (map (fun r =>
                    Obj [(EnvStr "name_string", Str (srv_host r));
                         (EnvStr "port_string", Int (srv_port r));
                         (EnvStr "priority_string", Int (srv_priority r));
                         (EnvStr "weight_string", Int (srv_weight r))])
                  srv.2)]) /\
  class_Parse_buf QueryNaptrWrap buf len
  = Done (report naptr.1
            [Arr (map (fun r =>
                    Obj [(EnvStr "flags_string", Str (naptr_flags r));
                         (EnvStr "service_string", Str (naptr_service r));
                         (EnvStr "regexp_string", Str (naptr_regexp r));
                         (EnvStr "replacement_string",
                          Str (naptr_replacement r));
                         (EnvStr "order_string", Int (naptr_order r));
                         (EnvStr "preference_string",
                          Int (naptr_preference r))])
                  naptr.2)]) /\
  class_Parse_buf QuerySoaWrap buf len
  = Done (report soa.1
            [Obj [(EnvStr "nsname_string", Str (soa_nsname soa.2));
                  (EnvStr "hostqueen_string", Str (soa_hostqueen soa.2));
                  (EnvStr "serial_string", Int (to_uint32 (soa_serial soa.2)));
                  (EnvStr "refresh_string", Int (to_int32 (soa_refresh soa.2)));
                  (EnvStr "retry_string", Int (to_int32 (soa_retry soa.2)));
                  (EnvStr "expire_string", Int (to_int32 (soa_expire soa.2)));
                  (EnvStr "minttl_string",
                   Int (to_uint32 (soa_minttl soa.2)))]]) /\
  (forall groups,
     (txts.1 = ARES_SUCCESS ->
      txts.2 = concat groups /\ record_groups groups) ->
     class_Parse_buf QueryTxtWrap buf len
     = Done (report txts.1 [Arr (map (fun g => Arr (chunk_of g)) groups)])).
Proof.
  intros Hnd report addresses ttls names a aaaa cname ns ptr mx caa srv naptr
    soa txts.
  assert (Haddr : forall six : bool,
    let r := if six then aaaa else a in
    (ar_status r = ARES_SUCCESS ->
     0 <= ar_naddrttls r <= Z.of_nat (length (ar_ttls r))) ->
    (r0 ← ParseGeneralReply buf len (if six then ns_t_aaaa else ns_t_a) []
            (Some 256);
     if negb (gr_status r0 =? ARES_SUCCESS) then ParseError (gr_status r0)
     else
       t ← AddrTTLToArray (gr_ttls r0) (default 0 (gr_naddrttls r0));
       Done (CallOnComplete (Arr (gr_ret r0)) (Some t)))
    = Done (report (ar_status r) [addresses (ar_host r); ttls r])).
  { intros six r Hn.
    rewrite (ParseGeneralReply_address six buf len Hnd).
    cbn [mbind outcome_bind gr_status gr_ret gr_ttls gr_naddrttls default].
    assert (Er : (if six then ares_parse_aaaa_reply buf len (Some 256)
                  else ares_parse_a_reply buf len (Some 256)) = r)
      by (by destruct six).
    rewrite Er. subst report. cbv beta. unfold ParseError, CHECK.
    destruct (ar_status r =? ARES_SUCCESS) eqn:Es; simpl; [|reflexivity].
    specialize (Hn ltac:(lia)). unfold AddrTTLToArray.
    destruct (ar_naddrttls r <? 0) eqn:E1; [lia|].
    destruct (Z.of_nat (length (ar_ttls r)) <? ar_naddrttls r) eqn:E2; [lia|].
    reflexivity. }
  assert (Hlist : forall (st : Z) (recs : list value),
    (let '(status, ret) := (if negb (st =? ARES_SUCCESS) then (st, [])
                            else (ARES_SUCCESS, [] ++ recs)) in
     if negb (status =? ARES_SUCCESS) then ParseError status
     else Done (CallOnComplete (Arr ret) None))
    = Done (report st [Arr recs])).
  { intros st recs. subst report. cbv beta. unfold ParseError, CHECK.
    destruct (st =? ARES_SUCCESS) eqn:Es; simpl; [|by rewrite Es].
    by rewrite Z.eqb_refl. }
  split.
  { assert (Hone : forall c : list (list value),
      called_once c -> exists argv, c = [argv])
      by (intros c [(st & _ & ->) | (answer & extra & ->)]; by eexists).
    intros cls calls. unfold record_type_wraps.
    rewrite !elem_of_cons, elem_of_nil.
    intros [-> | [-> | [-> | [-> | [-> | [-> | [-> | [-> | [-> | [-> | [-> | []]]]]]]]]]]];
      simpl; intros Hc; apply Hone.
    - by apply (address_Parse_called_once ns_t_a buf len).
    - by apply (address_Parse_called_once ns_t_aaaa buf len).
    - by apply (list_Parse_called_once (ParseCaaReply buf len [] false)).
    - by apply (name_Parse_called_once ns_t_cname buf len).
    - by apply (list_Parse_called_once (ParseMxReply buf len [] false)).
    - by apply (name_Parse_called_once ns_t_ns buf len).
    - revert Hc. unfold QueryTxtWrap_Parse.
      destruct (ParseTxtReply buf len [] false) as [[status ret]| |];
        [|discriminate..].
      cbn [mbind outcome_bind].
      intros [[Hs ->] | [_ [= <-]]]%ParseError_or_answer.
      + left. by eexists.
      + right. by eexists _, _.
    - by apply (list_Parse_called_once (ParseSrvReply buf len [] false)).
    - by apply (name_Parse_called_once ns_t_ptr buf len).
    - by apply (list_Parse_called_once (ParseNaptrReply buf len [] false)).
    - revert Hc. unfold QuerySoaWrap_Parse.
      destruct (ares_parse_soa_reply buf len) as [status rec].
      intros [[Hs ->] | [_ [= <-]]]%ParseError_or_answer.
      + left. by eexists.
      + right. by eexists _, _. }
  split; [exact (Haddr false)|]. split; [exact (Haddr true)|]. split.
  { intros name Hname. simpl. unfold QueryCnameWrap_Parse, ParseGeneralReply.
    rewrite Z.eqb_refl, orb_true_r. simpl. fold cname.
    subst report. cbv beta. unfold ParseError, CHECK.
    destruct (ar_status cname =? ARES_SUCCESS) eqn:Es; simpl.
    - rewrite orb_true_r, Hname by lia.
      cbn [mbind outcome_bind]. simpl. by rewrite Z.eqb_refl.
    - by rewrite Es. }
  split.
  { simpl. unfold QueryNsWrap_Parse.
    rewrite (ParseGeneralReply_names false buf len Hnd).
    cbn [mbind outcome_bind gr_status gr_ret]. fold ns.
    rewrite ParseError_or_Done. subst report names. cbv beta.
    by destruct (ns.1 =? ARES_SUCCESS). }
  split.
  { simpl. unfold QueryPtrWrap_Parse.
    rewrite (ParseGeneralReply_names true buf len Hnd).
    cbn [mbind outcome_bind gr_status gr_ret]. fold ptr.
    rewrite ParseError_or_Done. subst report names. cbv beta.
    by destruct (ptr.1 =? ARES_SUCCESS). }
  split.
  { simpl. unfold QueryMxWrap_Parse, ParseMxReply. fold mx.
    destruct mx as [st recs]. apply Hlist. }
  split.
  { simpl. unfold QueryCaaWrap_Parse, ParseCaaReply. fold caa.
    destruct caa as [st recs]. apply Hlist. }
  split.
  { simpl. unfold QuerySrvWrap_Parse, ParseSrvReply. fold srv.
    destruct srv as [st recs]. apply Hlist. }
  split.
  { simpl. unfold QueryNaptrWrap_Parse, ParseNaptrReply. fold naptr.
    destruct naptr as [st recs]. apply Hlist. }
  split.
  { simpl. unfold QuerySoaWrap_Parse. fold soa. destruct soa as [st rec].
    rewrite ParseError_or_Done. subst report. cbv beta. simpl.
    by destruct (st =? ARES_SUCCESS). }
  intros groups Hgroups. simpl. unfold QueryTxtWrap_Parse, ParseTxtReply.
  fold txts. destruct txts as [st frags]. simpl in Hgroups.
  subst report. cbv beta. cbn [fst snd]. unfold ParseError, CHECK.
  destruct (st =? ARES_SUCCESS) eqn:Es; simpl; [|by rewrite Es].
  destruct Hgroups as [-> Hrec]; [lia|].
  destruct groups as [|g groups].
  - simpl. by rewrite Z.eqb_refl.
  - apply Forall_cons in Hrec as [(first & rest & -> & Hfirst & Hrest) Hrec].
    simpl. rewrite Hfirst.
    rewrite (ParseTxtReply_loop_rest false rest) by exact Hrest.
    destruct (ParseTxtReply_loop_records false groups
                (([] ++ [Str (txt first)]) ++ chunk_of rest) [] Hrec)
      as (lc & ret' & -> & Hret).
    cbn [mbind outcome_bind]. rewrite Z.eqb_refl. simpl in *. by rewrite Hret.
Qed.

End RecordTypeProperties.

(** ** Reverse lookups *)

Section DispatchProperties.
Context `{AresH, SysH, Engine, Uv}.

(** The completion of a query whose lifecycle object is alive, through the
    callback that receives a host entry. *)
Lemma Callback_host_live l q qw st timeouts h (w : World) :
  cells w !! l = Some (Some q) ->
  wraps w !! q = Some qw ->
  Callback_host l st timeouts h w
  = (host_copy ← (if st =? ARES_SUCCESS
                  then h' ← cares_wrap_hostent_cpy h; Done (Some h')
                  else Done None);
     QueueResponseCallback q st
       (emit (capture_ev q st)
          (set_wraps
             (<[q := set_response_data
                       (Some {| status := st; is_host := true;
                                host := host_copy; buf := (None, 0) |})
                       (set_callback_ptr None qw)]> (wraps w))
             (set_cells (delete l (cells w)) w)))).
Proof.
  intros Hl Hq. unfold Callback_host.
  rewrite (FromCallbackPointer_live l q qw) by assumption.
  cbn [mbind outcome_bind].
  destruct (if st =? ARES_SUCCESS then _ else _) as [hc| |]; [|done..].
  cbn [mbind outcome_bind]. unfold store_response. simpl.
  rewrite lookup_insert_eq. cbn [mbind outcome_bind]. simpl.
  by rewrite insert_insert_eq.
Qed.

(** X13: take a reverse lookup in flight whose lifecycle object is alive, and
    a loop with no other immediate waiting.  When the engine completes it
    with a host entry, the callback captures the status, queues the
    delivery, sets the flag and decrements the counter; the immediate then
    calls the completion hook once, with 0 and the aliases of the host entry
    in order on success and with the name of the status otherwise, and
    deletes the object; the token cell is freed. *)
Theorem reverse_lookup_lifecycle
    (w : World) (l q : nat) (qw : QueryWrap) (st timeouts : Z)
    (h : hostent) :
  cells w !! l = Some (Some q) ->
  wraps w !! q = Some qw ->
  wrap_class qw = GetHostByAddrWrap ->
  immediates w = [] ->
  1 <= active_query_count_ (chan w) ->
  (st = ARES_SUCCESS -> is_Some (h_name h)) ->
  exists w1 w2,
    Callback_host l st timeouts h w = Done w1 /\
    run_immediate w1 = Done w2 /\
    trace w2 = trace w ++
      [capture_ev q st; SetImmediate_ev q;
       set_query_last_ok_ev (negb (st =? ARES_ECONNREFUSED));
       ModifyActivityQueryCount_ev (-1);
       MakeCallback_ev q
         (if st =? ARES_SUCCESS
          then [Int 0; Arr (map Str (h_aliases h))]
          else [Str (ToErrorCodeString st)]);
       delete_ev q] /\
    cells w2 !! l = None /\
    wraps w2 !! q = None /\
    immediates w2 = [].
Proof.
  intros Hl Hq Hcls Himm Hcount Hname.
  rewrite (Callback_host_live l q qw) by assumption.
  set (copy := if st =? ARES_SUCCESS then _ else _).
  assert (Hcopy : exists hc,
    copy = Done hc /\
    deliver (wrap_class qw)
      {| status := st; is_host := true; host := hc; buf := (None, 0) |}
    = Done [if st =? ARES_SUCCESS
            then [Int 0; Arr (map Str (h_aliases h))]
            else [Str (ToErrorCodeString st)]]).
  { subst copy. unfold deliver, ParseError. simpl.
    destruct (st =? ARES_SUCCESS) eqn:Es; simpl.
    - destruct Hname as [name Hn]; [lia|].
      unfold cares_wrap_hostent_cpy. rewrite Hn. cbn [mbind outcome_bind].
      eexists. split; [reflexivity|]. by rewrite Hcls.
    - by eexists. }
  destruct Hcopy as (hc & -> & Hdeliver). cbn [mbind outcome_bind].
  rewrite QueueResponseCallback_Done by (simpl; lia).
  eexists _, _. split; [reflexivity|]. split.
  { eapply (run_immediate_head _ q []); simpl.
    - by rewrite Himm.
    - apply lookup_insert_eq.
    - reflexivity.
    - reflexivity.
    - exact Hdeliver. }
  simpl. rewrite <- !(assoc_L (++)). simpl.
  split; [reflexivity|]. split; [apply lookup_delete_eq|].
  split; [apply lookup_delete_eq | reflexivity].
Qed.

(** X14: a reverse lookup of a name that is neither an IPv4 nor an IPv6
    address returns [UV_EINVAL]; nothing is handed to the engine and no
    token is made; the counter is incremented and decremented and the
    lifecycle object is deleted, so the world is as it was but for these
    three events. *)
Theorem reverse_lookup_rejects_bad_address
    (name : string) (rep : setup_reply) (w : World) :
  UV_EINVAL <> 0 ->
  0 <= active_query_count_ (chan w) ->
  (uv_inet_pton AF_INET name).1 <> 0 ->
  (uv_inet_pton AF_INET6 name).1 <> 0 ->
  Query GetHostByAddrWrap name rep w
  = Done (UV_EINVAL,
          emit (delete_ev (fresh (dom (wraps w))))
            (emit (ModifyActivityQueryCount_ev (-1))
               (emit (ModifyActivityQueryCount_ev 1) w))).
Proof.
  intros Hinval Hcount H4 H6.
  unfold Query, Send, ModifyActivityQueryCount, CHECK. simpl.
  destruct (0 <=? active_query_count_ (chan w) + 1) eqn:E1; [|lia].
  cbn [mbind outcome_bind mret outcome_ret]. simpl.
  rewrite lookup_insert_eq. simpl.
  rewrite (proj2 (Z.eqb_neq _ _) H4), (proj2 (Z.eqb_neq _ _) H6).
  cbn [mbind outcome_bind].
  rewrite (proj2 (Z.eqb_neq _ _) Hinval). simpl.
  destruct (0 <=? active_query_count_ (chan w) + 1 + -1) eqn:E2; [|lia].
  cbn [mbind outcome_bind]. unfold QueryWrap_delete. simpl.
  rewrite lookup_insert_eq. cbn [mbind outcome_bind]. simpl.
  rewrite delete_insert_id by apply (fresh_wrap w).
  replace (active_query_count_ (chan w) + 1 + -1)
    with (active_query_count_ (chan w)) by lia.
  by destruct w as [[] ? ? ? ? ?].
Qed.


End DispatchProperties.

(** ** SetServers *)

Section SetServersProperties.
Context `{AresH, SysH, Engine, Uv}.

Lemma set_channel_same (w : World) (c : ares_channel) :
  channel_ (chan w) = Live c ->
  set_chan (set_channel (Live c) (chan w)) w = w.
Proof. destruct w as [[] ? ? ? ? ?]. simpl. by intros ->. Qed.

(** X16: on a live channel with no query in flight, an array whose elements
    have family 4 or 6 and a port that is not zero, and one of whose
    addresses does not parse, makes [SetServers] return [ARES_EBADSTR]; the
    engine is not called and the world is as it was. *)
Theorem SetServers_rejects_bad_address
    (arr : list (Z * string * Z)) (w : World) (c : ares_channel) :
  ARES_EBADSTR <> ARES_SUCCESS ->
  active_query_count_ (chan w) = 0 ->
  channel_ (chan w) = Live c ->
  Forall entry_well_formed arr ->
  Exists (fun e => (uv_inet_pton (address_family e.1.1) e.1.2).1 <> 0) arr ->
  SetServers arr w = Done (ARES_EBADSTR, w).
Proof.
  intros Hbad Hcount Hlive Hwf Hex. unfold SetServers.
  rewrite Hcount, Hlive. simpl.
  destruct arr as [|e arr]; [by apply Exists_nil in Hex|].
  destruct (SetServers_loop_total (e :: arr) [] Hwf) as [[err servers] Hloop].
  rewrite Hloop. cbn [mbind outcome_bind].
  apply SetServers_loop_Done in Hloop as [(_ & Hall & _) | (Hne & _)].
  - exfalso. apply Exists_exists in Hex as (x & Hx & Hfail).
    rewrite Forall_forall in Hall. destruct (Hall x Hx) as [_ Hp]. done.
  - destruct (err =? 0) eqn:E0; [lia|].
    destruct (ARES_EBADSTR =? ARES_SUCCESS) eqn:Eb; [lia|].
    by rewrite set_channel_same.
Qed.

(** X17: on a live channel with no query in flight, an array that is not
    empty and whose elements all parse is handed to the engine as one list,
    a node for every element in the order of the array, with the element's
    port as both ports; [SetServers] returns what the engine returns, keeps
    the engine's channel, sets [is_servers_default_] to false exactly on
    success, and records no event. *)
Theorem SetServers_hands_over_list
    (arr : list (Z * string * Z)) (w : World) (c : ares_channel) :
  active_query_count_ (chan w) = 0 ->
  channel_ (chan w) = Live c ->
  arr <> [] ->
  Forall entry_parses arr ->
  let servers :=
    map (fun e => {| family := if e.1.1 =? 4 then AF_INET else AF_INET6;
                     addr := (uv_inet_pton
                                (if e.1.1 =? 4 then AF_INET else AF_INET6)
                                e.1.2).2;
                     udp_port := e.2; tcp_port := e.2 |}) arr in
  let rv := (ares_set_servers_ports c servers).1 in
  let c' := (ares_set_servers_ports c servers).2 in
  exists w',
    SetServers arr w = Done (rv, w') /\
    channel_ (chan w') = Live c' /\
    is_servers_default_ (chan w')
    = (if rv =? ARES_SUCCESS then false else is_servers_default_ (chan w)) /\
    trace w' = trace w.
Proof.
  intros Hcount Hlive Hne Hall servers rv c'. unfold SetServers.
  rewrite Hcount, Hlive. simpl.
  destruct arr as [|e arr]; [done|].
  rewrite (SetServers_loop_parses (e :: arr) []) by exact Hall.
  cbn [mbind outcome_bind]. rewrite app_nil_l, Z.eqb_refl.
  change (map node_of (e :: arr)) with servers.
  subst rv c'. destruct (ares_set_servers_ports c servers) as [r c1]. simpl.
  eexists. split; [reflexivity|].
  by destruct (r =? ARES_SUCCESS).
Qed.

Lemma SetServers_loop_app pre rest acc :
  Forall entry_parses pre ->
  SetServers_loop (pre ++ rest) acc
  = SetServers_loop rest (acc ++ map node_of pre).
Proof.
  revert acc. induction pre as [|[[fam ip] port] pre IH]; intros acc Hall.
  - simpl. by rewrite app_nil_r.
  - apply Forall_cons in Hall as [[[Hfam Hport] Hp] Hall].
    simpl in Hfam, Hport, Hp. unfold address_family in Hp. simpl.
    destruct (fam =? 0) eqn:E0; [lia|]. simpl.
    destruct (port =? 0) eqn:Ep; [lia|]. simpl.
    destruct (fam =? 4) eqn:E4; simpl.
    + rewrite Hp. simpl. rewrite IH by exact Hall.
      rewrite <- (assoc_L (++)). unfold node_of, address_family. simpl.
      by rewrite E4.
    + destruct (fam =? 6) eqn:E6; [|lia]. simpl.
      rewrite Hp. simpl. rewrite IH by exact Hall.
      rewrite <- (assoc_L (++)). unfold node_of, address_family. simpl.
      by rewrite E4.
Qed.

(** X18: on a live channel with no query in flight, an element whose port
    is 0 or whose family is neither 4 nor 6, after elements that parse,
    fails a [CHECK] of [SetServers] and aborts the process. *)
Theorem SetServers_aborts_on_malformed_entry
    (pre post : list (Z * string * Z)) (fam port : Z) (ip : string)
    (w : World) (c : ares_channel) :
  active_query_count_ (chan w) = 0 ->
  channel_ (chan w) = Live c ->
  Forall entry_parses pre ->
  port = 0 \/ (fam <> 4 /\ fam <> 6) ->
  exists msg,
    SetServers (pre ++ (fam, ip, port) :: post) w = CheckFailed msg.
Proof.
  intros Hcount Hlive Hall Hbad. unfold SetServers.
  rewrite Hcount, Hlive. simpl.
  assert (Hloop : exists msg,
    SetServers_loop (pre ++ (fam, ip, port) :: post) [] = CheckFailed msg).
  { rewrite SetServers_loop_app by exact Hall. simpl.
    destruct (fam =? 0) eqn:E0; simpl; [by eexists|].
    destruct (port =? 0) eqn:Ep; simpl; [by eexists|].
    destruct Hbad as [-> | [H4 H6]]; [done|].
    destruct (fam =? 4) eqn:E4; [lia|].
    destruct (fam =? 6) eqn:E6; [lia|]. by eexists. }
  destruct Hloop as [msg Hloop].
  destruct (pre ++ (fam, ip, port) :: post) as [|e l] eqn:El.
  - by destruct pre.
  - rewrite Hloop. by exists msg.
Qed.

End SetServersProperties.

Section ServersPersist.
Context `{AresH, SysH, Engine, Uv}.

(** What no step of the bridge changes once the servers are no longer the
    default ones: the channel of the engine and the flag. *)
Local Abbreviation same_servers w w' :=
  (channel_ (chan w') = channel_ (chan w) /\
   is_servers_default_ (chan w') = is_servers_default_ (chan w)).

Lemma MakeCallbackPointer_chan q w l w' :
  MakeCallbackPointer q w = Done (l, w') -> chan w' = chan w.
Proof.
  unfold MakeCallbackPointer. destruct (wraps w !! q); [|discriminate].
  destruct (bool_decide _); [|discriminate]. by intros [= <- <-].
Qed.

Lemma QueryWrap_delete_chan q w w' :
  QueryWrap_delete q w = Done w' -> chan w' = chan w.
Proof.
  unfold QueryWrap_delete. destruct (wraps w !! q) as [qw|]; [|discriminate].
  destruct (callback_ptr_ qw) as [l|]; [|by intros [= <-]].
  destruct (cells w !! l); [|discriminate]. by intros [= <-].
Qed.

Lemma FromCallbackPointer_chan l w r w' :
  FromCallbackPointer l w = Done (r, w') -> chan w' = chan w.
Proof.
  unfold FromCallbackPointer.
  destruct (cells w !! l) as [[q|]|]; [|by intros [= <- <-]|discriminate].
  destruct (wraps w !! q); [by intros [= <- <-]|discriminate].
Qed.

Lemma store_response_chan q d w w' :
  store_response q d w = Done w' -> chan w' = chan w.
Proof.
  unfold store_response. destruct (wraps w !! q); [by intros [= <-]|discriminate].
Qed.

Lemma ModifyActivityQueryCount_servers n c c' :
  ModifyActivityQueryCount n c = Done c' ->
  channel_ c' = channel_ c /\ is_servers_default_ c' = is_servers_default_ c.
Proof.
  unfold ModifyActivityQueryCount, CHECK. simpl.
  destruct (0 <=? _); [by intros [= <-]|discriminate].
Qed.

Lemma QueueResponseCallback_servers q status w w' :
  QueueResponseCallback q status w = Done w' -> same_servers w w'.
Proof.
  unfold QueueResponseCallback.
  destruct (ModifyActivityQueryCount _ _) as [c| |] eqn:Ec; [|discriminate..].
  apply ModifyActivityQueryCount_servers in Ec. intros [= <-]. exact Ec.
Qed.

Lemma Query_servers cls name rep w err w' :
  is_servers_default_ (chan w) = false ->
  Query cls name rep w = Done (err, w') -> same_servers w w'.
Proof.
  intros Hflag. unfold Query.
  destruct (ModifyActivityQueryCount 1 _) as [c1| |] eqn:E1; [|discriminate..].
  apply ModifyActivityQueryCount_servers in E1 as [Hc1 Hd1]. simpl in Hc1, Hd1.
  cbn [mbind outcome_bind].
  set (w1 := set_chan c1 _).
  assert (Hw1 : same_servers w w1) by done.
  assert (Hflag1 : is_servers_default_ (chan w1) = false)
    by (destruct Hw1 as [_ ->]; exact Hflag).
  assert (Hsend : forall e w2,
    Send (fresh (dom (wraps w))) name rep w1 = Done (e, w2) -> chan w2 = chan w1).
  { intros e w2. unfold Send. destruct (wraps w1 !! _) as [qw|]; [|discriminate].
    destruct (class_Send (wrap_class qw)).
    - unfold AresQuery, EnsureServers.
      rewrite Hflag1, orb_true_r. cbn [mbind outcome_bind].
      destruct (MakeCallbackPointer _ w1) as [[l w3]| |] eqn:Em; [|discriminate..].
      apply MakeCallbackPointer_chan in Em. by intros [= <- <-].
    - destruct (_ =? 0).
      + destruct (MakeCallbackPointer _ w1) as [[l w3]| |] eqn:Em;
          [|discriminate..].
        apply MakeCallbackPointer_chan in Em. by intros [= <- <-].
      + destruct (_ =? 0); [|by intros [= <- <-]].
        destruct (MakeCallbackPointer _ w1) as [[l w3]| |] eqn:Em;
          [|discriminate..].
        apply MakeCallbackPointer_chan in Em. by intros [= <- <-]. }
  destruct (Send _ name rep w1) as [[e w2]| |] eqn:Es; [|discriminate..].
  specialize (Hsend e w2 eq_refl). clear Es. rename Hsend into Es.
  cbn [mbind outcome_bind].
  destruct (negb (e =? 0)); [|intros [= <- <-]; by rewrite Es].
  destruct (ModifyActivityQueryCount (-1) _) as [c2| |] eqn:E2;
    [|discriminate..].
  apply ModifyActivityQueryCount_servers in E2 as [Hc2 Hd2]. simpl in Hc2, Hd2.
  cbn [mbind outcome_bind].
  destruct (QueryWrap_delete _ _) as [w3| |] eqn:Ed; [|discriminate..].
  apply QueryWrap_delete_chan in Ed. simpl in Ed.
  intros [= <- <-]. rewrite Ed, Hc2, Hd2, Es. exact Hw1.
Qed.

Lemma step_run_servers s w w' :
  is_servers_default_ (chan w) = false ->
  step_run s w = Done w' -> same_servers w w'.
Proof.
  intros Hflag. destruct s as [cls name rep|l st tm answer len|l st tm h|]; simpl.
  - destruct (Query cls name rep w) as [[err w1]| |] eqn:Eq; [|discriminate..].
    intros [= <-]. by eapply Query_servers.
  - unfold Callback_buf.
    destruct (FromCallbackPointer l w) as [[r w1]| |] eqn:Ef; [|discriminate..].
    apply FromCallbackPointer_chan in Ef. cbn [mbind outcome_bind].
    destruct r as [q|]; [|intros [= <-]; by rewrite Ef].
    destruct (store_response q _ w1) as [w2| |] eqn:Es; [|discriminate..].
    apply store_response_chan in Es. cbn [mbind outcome_bind].
    intros Hq%QueueResponseCallback_servers. by rewrite <- Ef, <- Es.
  - unfold Callback_host.
    destruct (FromCallbackPointer l w) as [[r w1]| |] eqn:Ef; [|discriminate..].
    apply FromCallbackPointer_chan in Ef. cbn [mbind outcome_bind].
    destruct r as [q|]; [|intros [= <-]; by rewrite Ef].
    destruct (if st =? ARES_SUCCESS then _ else _) as [hc| |];
      [|discriminate..]. cbn [mbind outcome_bind].
    destruct (store_response q _ w1) as [w2| |] eqn:Es; [|discriminate..].
    apply store_response_chan in Es. cbn [mbind outcome_bind].
    intros Hq%QueueResponseCallback_servers. by rewrite <- Ef, <- Es.
  - unfold run_immediate. destruct (immediates w) as [|q rest]; [by intros [= <-]|].
    unfold AfterResponse. simpl. destruct (wraps w !! q) as [qw|]; [|discriminate].
    destruct (response_data_ qw) as [d|]; [|discriminate].
    destruct (deliver _ d) as [calls| |]; [|discriminate..].
    cbn [mbind outcome_bind].
    destruct (emit_calls_trace q calls (set_immediates rest w))
      as (_ & Hc & _).
    intros Hd%QueryWrap_delete_chan. by rewrite Hd, Hc.
Qed.

Lemma run_servers ss w w' :
  is_servers_default_ (chan w) = false ->
  run ss w = Done w' -> same_servers w w'.
Proof.
  revert w. induction ss as [|s ss IH]; intros w Hflag; simpl.
  - by intros [= <-].
  - destruct (step_run s w) as [w1| |] eqn:Es; [|discriminate..].
    cbn [mbind outcome_bind].
    destruct (step_run_servers s w w1 Hflag Es) as [Hc Hd].
    intros Hrun. destruct (IH w1 ltac:(congruence) Hrun) as [Hc' Hd'].
    split; congruence.
Qed.

(** X19: after [SetServers] has returned [ARES_SUCCESS] for an array that
    is not empty, the servers are no longer the default ones, and no run of
    dispatches, completions and immediates that returns makes them default
    again or replaces the channel of the engine, whatever the queries
    answer. *)
Theorem SetServers_servers_persist
    (arr : list (Z * string * Z)) (ss : list step) (w w1 w2 : World) :
  ARES_SUCCESS <> DNS_ESETSRVPENDING ->
  arr <> [] ->
  SetServers arr w = Done (ARES_SUCCESS, w1) ->
  run ss w1 = Done w2 ->
  is_servers_default_ (chan w1) = false /\
  is_servers_default_ (chan w2) = false /\
  channel_ (chan w2) = channel_ (chan w1).
Proof.
  intros Hpending Hne Hset Hrun.
  assert (Hflag : is_servers_default_ (chan w1) = false).
  { revert Hset. unfold SetServers.
    destruct (negb (active_query_count_ (chan w) =? 0)); [by intros [= ? _]|].
    destruct (channel_ (chan w)) as [|c|]; [discriminate| |discriminate].
    destruct arr as [|e arr]; [done|].
    destruct (SetServers_loop (e :: arr) []) as [[err servers]| |];
      [|discriminate..].
    cbn [mbind outcome_bind].
    destruct (if err =? 0 then _ else _) as [rv c1].
    destruct (rv =? ARES_SUCCESS) eqn:Er; [by intros [= _ <-]|].
    intros [= -> _]. lia. }
  destruct (run_servers ss w1 w2 Hflag Hrun) as [Hc Hd].
  split; [exact Hflag|]. split; [congruence | exact Hc].
Qed.

End ServersPersist.

(** ** SetLocalAddress and the callback of getaddrinfo *)

Section AddressProperties.
Context `{SysH, Uv}.

(** X20: what [SetLocalAddress] does, by its arguments.  An argument is an
    IPv4 address when [uv_inet_pton] parses it as one, which is tried
    first, and an IPv6 address when it parses only as that.  A first
    argument that is neither makes it throw before any call of the engine.
    Otherwise the address of the first argument is set in the engine; then
    a second argument of the other family is set as well, no second
    argument sets the address 0 of the other family, and a second argument
    that is no address or is of the family of the first makes it throw,
    with the first address already set.  So every family is set at most
    once, and a throw is the last thing it does. *)
Theorem SetLocalAddress_calls (ip0 : string) (ip1 : option string) :
  let is4 s := (uv_inet_pton AF_INET s).1 = 0 in
  let is6 s := (uv_inet_pton AF_INET s).1 <> 0 /\
               (uv_inet_pton AF_INET6 s).1 = 0 in
  let ip4 s :=
    ares_set_local_ip4_call (ReadUint32BE (uv_inet_pton AF_INET s).2 0) in
  let ip6 s :=
    ares_set_local_ip6_call (take 16 (uv_inet_pton AF_INET6 s).2) in
  let throw := THROW_ERR_INVALID_ARG_VALUE in
  let calls := SetLocalAddress ip0 ip1 in
  (~ is4 ip0 -> ~ is6 ip0 -> calls = [throw "Invalid IP address."]) /\
  (is4 ip0 ->
   match ip1 with
   | None => calls = [ip4 ip0; ares_set_local_ip6_call (replicate 16 0)]
   | Some s =>
       (is4 s ->
        calls = [ip4 ip0; throw "Cannot specify two IPv4 addresses."]) /\
       (is6 s -> calls = [ip4 ip0; ip6 s]) /\
       (~ is4 s -> ~ is6 s -> calls = [ip4 ip0; throw "Invalid IP address."])
   end) /\
  (is6 ip0 ->
   match ip1 with
   | None => calls = [ip6 ip0; ares_set_local_ip4_call 0]
   | Some s =>
       (is4 s -> calls = [ip6 ip0; ip4 s]) /\
       (is6 s ->
        calls = [ip6 ip0; throw "Cannot specify two IPv6 addresses."]) /\
       (~ is4 s -> ~ is6 s -> calls = [ip6 ip0; throw "Invalid IP address."])
   end) /\
  (length (filter (fun c => is_ip4_call c = true) calls) <= 1)%nat /\
  (length (filter (fun c => is_ip6_call c = true) calls) <= 1)%nat /\
  (forall i msg, calls !! i = Some (throw msg) -> S i = length calls).
Proof.
  intros is4 is6 ip4 ip6 throw calls.
  subst is4 is6 ip4 ip6 throw calls. cbv beta. unfold SetLocalAddress.
  destruct ((uv_inet_pton AF_INET ip0).1 =? 0) eqn:E04;
    [|destruct ((uv_inet_pton AF_INET6 ip0).1 =? 0) eqn:E06];
    (destruct ip1 as [s|];
     [destruct ((uv_inet_pton AF_INET s).1 =? 0) eqn:E14;
      [|destruct ((uv_inet_pton AF_INET6 s).1 =? 0) eqn:E16]|]);
    cbn [Z.eqb Pos.eqb];
    (split; [intros; try reflexivity; lia|]);
    (split; [intros; try (repeat split; intros); try reflexivity; lia|]);
    (split; [intros; try (repeat split; intros); try reflexivity; lia|]);
    (split; [vm_compute; lia|]); (split; [vm_compute; lia|]);
    intros [|[|[|i]]] msg; simpl; intros [=]; reflexivity.
Qed.

End AddressProperties.

Section LookupProperties.
Context `{SysH, Uv, LookupH}.

Lemma AfterGetAddrInfo_add_filter (want_ipv4 want_ipv6 : bool) (res : list addrinfo)
    (results : list string) :
  Forall (fun p => ai_socktype p = SOCK_STREAM) res ->
  AfterGetAddrInfo_add want_ipv4 want_ipv6 res results
  = Done (results ++
          (address_text <$>
           filter (fun p => (want_ipv4 = true /\ shown AF_INET p) \/
                            (want_ipv6 = true /\ shown AF_INET6 p)) res)).
Proof.
  revert results. induction res as [|p res IH]; intros results Hall.
  - simpl. by rewrite app_nil_r.
  - apply Forall_cons in Hall as [Hs Hall]. cbn [AfterGetAddrInfo_add].
    rewrite Hs, Z.eqb_refl. cbn [CHECK mbind outcome_bind].
    set (cond := (want_ipv4 && _) || _).
    assert (Hiff :
      ((want_ipv4 = true /\ shown AF_INET p) \/
       (want_ipv6 = true /\ shown AF_INET6 p)) <->
      cond = true /\ uv_inet_ntop_r (ai_family p) (ai_addr p) = 0).
    { subst cond. unfold shown.
      rewrite orb_true_iff, !andb_true_iff, !Z.eqb_eq. tauto. }
    rewrite filter_cons.
    destruct (decide ((want_ipv4 = true /\ shown AF_INET p) \/
                      (want_ipv6 = true /\ shown AF_INET6 p))) as [Hd|Hd].
    + apply Hiff in Hd as [-> Hn]. rewrite Hn. simpl.
      rewrite IH by exact Hall. by rewrite <- (assoc_L (++)).
    + destruct cond; [|by apply IH].
      destruct (uv_inet_ntop_r (ai_family p) (ai_addr p) =? 0) eqn:En;
        [|by apply IH].
      destruct Hd. apply Hiff. split; [reflexivity | lia].
Qed.

(** X21: when the resolver succeeds and every entry is a stream socket,
    [AfterGetAddrInfo] hands over the addresses of the IPv4 and IPv6 entries
    that [uv_inet_ntop] converts: in the order of the resolver when
    [verbatim] is set, and otherwise all IPv4 addresses in that order before
    all IPv6 addresses in that order; the two arrays hold the same
    addresses.  The status is [UV_EAI_NODATA] exactly when no address is
    handed over. *)
Theorem AfterGetAddrInfo_order (res : list addrinfo) (verbatim : bool) :
  AF_INET <> AF_INET6 ->
  Forall (fun p => ai_socktype p = SOCK_STREAM) res ->
  let ipv4 := address_text <$> filter (shown AF_INET) res in
  let ipv6 := address_text <$> filter (shown AF_INET6) res in
  let mixed := address_text <$>
               filter (fun p => shown AF_INET p \/ shown AF_INET6 p) res in
  AfterGetAddrInfo 0 res verbatim
  = Done (if bool_decide (length ipv4 + length ipv6 = 0)%nat
          then UV_EAI_NODATA else 0,
          Some (if verbatim then mixed else ipv4 ++ ipv6)) /\
  mixed ≡ₚ ipv4 ++ ipv6.
Proof.
  intros Hfam Hall ipv4 ipv6 mixed.
  assert (Hperm : mixed ≡ₚ ipv4 ++ ipv6).
  { subst mixed ipv4 ipv6. rewrite <- fmap_app. apply fmap_Permutation.
    clear -Hfam. induction res as [|p res IH]; [reflexivity|].
    rewrite !filter_cons.
    destruct (decide (shown AF_INET p)) as [Hp4|Hp4];
      destruct (decide (shown AF_INET6 p)) as [Hp6|Hp6].
    - destruct Hp4 as [E4 _], Hp6 as [E6 _]. congruence.
    - rewrite decide_True by (by left). simpl. by rewrite IH.
    - rewrite decide_True by (by right). rewrite IH.
      by rewrite Permutation_middle.
    - rewrite decide_False by tauto. exact IH. }
  split; [|exact Hperm].
  unfold AfterGetAddrInfo. rewrite Z.eqb_refl.
  rewrite AfterGetAddrInfo_add_filter by exact Hall. cbn [mbind outcome_bind].
  destruct verbatim; cbn [negb mbind outcome_bind].
  - rewrite (list_filter_iff _ (fun p => shown AF_INET p \/ shown AF_INET6 p))
      by (intros p; intuition discriminate).
    rewrite app_nil_l. fold mixed.
    by rewrite (Permutation_length Hperm), length_app.
  - rewrite AfterGetAddrInfo_add_filter by exact Hall. cbn [mbind outcome_bind].
    rewrite (list_filter_iff
               (fun p => (true = true /\ shown AF_INET p) \/
                         (false = true /\ shown AF_INET6 p))
               (shown AF_INET))
      by (intros p; intuition discriminate).
    rewrite (list_filter_iff
               (fun p => (false = true /\ shown AF_INET p) \/
                         (true = true /\ shown AF_INET6 p))
               (shown AF_INET6))
      by (intros p; intuition discriminate).
    rewrite app_nil_l. fold ipv4 ipv6. by rewrite length_app.
Qed.

End LookupProperties.

(** ** The deferred delivery *)

Section DeferredDelivery.
Context `{AresH, SysH, Engine, Uv}.

Lemma responses_captured_new (timeout : Z) (rep : setup_reply) :
  responses_captured (Setup rep (World_new timeout)).
Proof.
  destruct (Setup_frame rep (World_new timeout)) as (_ & _ & Hi & _).
  intros q. rewrite Hi. simpl. by intros ?%elem_of_nil.
Qed.

Lemma responses_captured_step (s : step) (w w' : World) :
  UV_EINVAL <> 0 ->
  lifecycle_inv w -> responses_captured w ->
  enabled s w -> step_run s w = Done w' ->
  responses_captured w'.
Proof.
  intros Hinval Hinv Hcap Hen.
  destruct s as [cls name rep|l st tm answer len|l st tm h|]; simpl in *.
  - assert (Hc : 0 <= active_query_count_ (chan w))
      by (destruct Hinv as (-> & _); lia).
    destruct (Query_cases cls name rep w Hinval Hc)
      as [(what & ->) | [(w1 & l & qw & -> & _ & _ & _ & Hw & Hi & _)
                        | (w1 & -> & _ & Hw & Hi & _)]];
      [discriminate| |]; intros [= <-]; simpl; intros q0; rewrite Hi, Hw;
      intros Hq0; destruct (Hcap q0 Hq0) as (qw0 & d & Hl & Hd).
    + exists qw0, d. split; [|exact Hd]. rewrite lookup_insert_ne; [exact Hl|].
      intros <-. by rewrite fresh_wrap in Hl.
    + by exists qw0, d.
  - pose proof (lifecycle_inv_in_flight w l Hinv Hen) as Hc.
    destruct Hen as (q & qw & Hl & Hq).
    rewrite (Callback_buf_live l q qw) by assumption.
    rewrite QueueResponseCallback_Done by (simpl; lia).
    intros [= <-]. unfold responses_captured. simpl. intros q0 Hq0.
    destruct (decide (q0 = q)) as [->|Hne].
    + eexists _, _. split; [apply lookup_insert_eq | reflexivity].
    + apply elem_of_app in Hq0 as [Hq0 | ->%list_elem_of_singleton]; [|done].
      destruct (Hcap q0 Hq0) as (qw0 & d0 & Hl0 & Hd0).
      exists qw0, d0. by rewrite lookup_insert_ne.
  - pose proof (lifecycle_inv_in_flight w l Hinv Hen) as Hc.
    destruct Hen as (q & qw & Hl & Hq).
    rewrite (Callback_host_live l q qw) by assumption.
    destruct (if st =? ARES_SUCCESS then _ else _) as [hc| |]; [|discriminate..].
    cbn [mbind outcome_bind].
    rewrite QueueResponseCallback_Done by (simpl; lia).
    intros [= <-]. unfold responses_captured. simpl. intros q0 Hq0.
    destruct (decide (q0 = q)) as [->|Hne].
    + eexists _, _. split; [apply lookup_insert_eq | reflexivity].
    + apply elem_of_app in Hq0 as [Hq0 | ->%list_elem_of_singleton]; [|done].
      destruct (Hcap q0 Hq0) as (qw0 & d0 & Hl0 & Hd0).
      exists qw0, d0. by rewrite lookup_insert_ne.
  - unfold run_immediate.
    destruct (immediates w) as [|q rest] eqn:Himm; [by intros [= <-]|].
    destruct Hinv as (_ & _ & _ & _ & _ & I6 & I7).
    rewrite Himm in I7. apply NoDup_cons in I7 as [Hnotin _].
    destruct (I6 q) as (qw & Hq & Hp); [rewrite Himm; left|].
    unfold AfterResponse. simpl. rewrite Hq.
    destruct (response_data_ qw) as [d|]; [|discriminate].
    destruct (deliver (wrap_class qw) d) as [calls| |]; [|discriminate..].
    cbn [mbind outcome_bind].
    destruct (emit_calls_trace q calls (set_immediates rest w))
      as (_ & _ & _ & Hw & Hi & _).
    rewrite (QueryWrap_delete_no_token q qw) by first [by rewrite Hw | assumption].
    intros [= <-]. unfold responses_captured. simpl. rewrite Hw, Hi. simpl.
    intros q0 Hq0.
    destruct (Hcap q0) as (qw0 & d0 & Hl0 & Hd0); [rewrite Himm; by right|].
    exists qw0, d0. split; [|exact Hd0].
    rewrite lookup_delete_ne; [exact Hl0|]. by intros ->.
Qed.

Lemma reachable_responses_captured (w : World) :
  UV_EINVAL <> 0 -> reachable w -> lifecycle_inv w /\ responses_captured w.
Proof.
  intros Hinval. induction 1 as [timeout rep|w s w' Hr [Hinv Hcap] Hen Hstep].
  - split; [apply lifecycle_inv_new | apply responses_captured_new].
  - split.
    + apply reachable_inv; [exact Hinval|]. by eapply reachable_step.
    + by eapply responses_captured_step.
Qed.

(** X22: in every world that dispatches, completions of queries in flight
    and immediates lead to, the immediate at the head of the queue finds its
    lifecycle object alive, with the response captured and no token, and
    waiting nowhere else in the queue.  It fails only if the [Parse] of the
    class fails; otherwise it makes the calls of the completion hook and
    then deletes the object, and changes nothing else. *)
Theorem deferred_delivery_finds_its_object (w : World) :
  UV_EINVAL <> 0 ->
  reachable w ->
  match immediates w with
  | [] => run_immediate w = Done w
  | q :: rest =>
      (q ∉ rest) /\
      exists qw d,
        wraps w !! q = Some qw /\ response_data_ qw = Some d /\
        callback_ptr_ qw = None /\
        match deliver (wrap_class qw) d with
        | Done calls =>
            exists w',
              run_immediate w = Done w' /\
              trace w' = trace w ++ (MakeCallback_ev q <$> calls) ++ [delete_ev q] /\
              wraps w' = delete q (wraps w) /\
              immediates w' = rest /\
              cells w' = cells w /\ chan w' = chan w
        | CheckFailed msg => run_immediate w = CheckFailed msg
        | Undefined what => run_immediate w = Undefined what
        end
  end.
Proof.
  intros Hinval Hreach.
  destruct (reachable_responses_captured w Hinval Hreach) as [Hinv Hcap].
  destruct (immediates w) as [|q rest] eqn:Himm.
  { unfold run_immediate. by rewrite Himm. }
  destruct Hinv as (_ & _ & _ & _ & _ & I6 & I7).
  rewrite Himm in I7. apply NoDup_cons in I7 as [Hnotin _].
  split; [exact Hnotin|].
  destruct (I6 q) as (qw & Hq & Hp); [rewrite Himm; left|].
  destruct (Hcap q) as (qw' & d & Hq' & Hd); [rewrite Himm; left|].
  assert (qw' = qw) as -> by congruence.
  exists qw, d. split; [exact Hq|]. split; [exact Hd|]. split; [exact Hp|].
  destruct (deliver (wrap_class qw) d) as [calls|msg|what] eqn:Hdel.
  - rewrite (run_immediate_head w q rest qw d calls) by assumption.
    eexists. split; [reflexivity|]. simpl.
    destruct (emit_calls_trace q calls (set_immediates rest w))
      as (Ht & Hc & Hce & Hw & Hi & _).
    rewrite Ht, Hi, Hce, Hc. simpl. by rewrite <- (assoc_L (++)).
  - unfold run_immediate, AfterResponse. rewrite Himm. simpl.
    by rewrite Hq, Hd, Hdel.
  - unfold run_immediate, AfterResponse. rewrite Himm. simpl.
    by rewrite Hq, Hd, Hdel.
Qed.

End DeferredDelivery.

(** ** Dispatch of the queries sent with AresQuery *)

Section AresQueryProperties.
Context `{AresH, SysH, Engine, Uv}.


End AresQueryProperties.

(** ** The callback token and the lifecycle of a response, for both
       completion callbacks *)

Section TokenSafety.
Context `{AresH, SysH, Engine, Uv}.

(** A completion through a token whose cell is freed reads freed memory. *)
Lemma Callback_freed l (w : World) :
  cells w !! l = None ->
  (forall st timeouts answer len,
     Callback_buf l st timeouts answer len w
     = Undefined "FromCallbackPointer: the cell is freed") /\
  (forall st timeouts h,
     Callback_host l st timeouts h w
     = Undefined "FromCallbackPointer: the cell is freed").
Proof.
  intros Hl. split; intros; unfold Callback_buf, Callback_host, FromCallbackPointer;
    by rewrite Hl.
Qed.

(** C5: take a query whose token cell [l] and lifecycle object [q] point to
    each other.  If the object is destroyed first, the cell holds null, and
    either completion callback then returns having done nothing but free the
    cell: no event, no immediate, no change to the channel or to any object.
    If the object is alive, [FromCallbackPointer] nulls its [callback_ptr_]
    and frees the cell, and both callbacks use the object only in the world
    that this leaves: each is the capture and [QueueResponseCallback] run
    from that world.  With a query counted in flight each callback returns:
    the cell is freed, the object holds the response and no token, and its
    delivery is queued once.  After a completion has returned, of a dead or
    of a live object, the token cannot be consumed again: a second
    completion through it, by either callback, is a use of freed memory. *)
Theorem callback_token_safety
    (w : World) (l q : nat) (qw : QueryWrap)
    (st timeouts : Z) (answer : list Z) (len : Z) (h : hostent) :
  cells w !! l = Some (Some q) ->
  wraps w !! q = Some qw ->
  callback_ptr_ qw = Some l ->
  let twice (w' : World) :=
    (forall st' timeouts' answer' len',
       Callback_buf l st' timeouts' answer' len' w'
       = Undefined "FromCallbackPointer: the cell is freed") /\
    (forall st' timeouts' h',
       Callback_host l st' timeouts' h' w'
       = Undefined "FromCallbackPointer: the cell is freed") in
  (exists w1,
     QueryWrap_delete q w = Done w1 /\
     wraps w1 !! q = None /\
     cells w1 !! l = Some None /\
     exists w2,
       Callback_buf l st timeouts answer len w1 = Done w2 /\
       Callback_host l st timeouts h w1 = Done w2 /\
       cells w2 = delete l (cells w1) /\
       trace w2 = trace w1 /\ immediates w2 = immediates w1 /\
       chan w2 = chan w1 /\ wraps w2 = wraps w1 /\ closing w2 = closing w1 /\
       twice w2) /\
  (exists w0,
     FromCallbackPointer l w = Done (Some q, w0) /\
     wraps w0 = <[q := set_callback_ptr None qw]> (wraps w) /\
     cells w0 = delete l (cells w) /\
     trace w0 = trace w /\ immediates w0 = immediates w /\ chan w0 = chan w /\
     Callback_buf l st timeouts answer len w
     = (w ← store_response q (buf_response st answer len) w0;
        QueueResponseCallback q st w) /\
     Callback_host l st timeouts h w
     = (host_copy ← (if st =? ARES_SUCCESS
                     then h' ← cares_wrap_hostent_cpy h; Done (Some h')
                     else Done None);
        w ← store_response q
              {| status := st; is_host := true; host := host_copy;
                 buf := (None, 0) |} w0;
        QueueResponseCallback q st w)) /\
  (1 <= active_query_count_ (chan w) ->
   let consumed (completion : outcome World) (d : ResponseData) :=
     exists w',
       completion = Done w' /\
       cells w' = delete l (cells w) /\
       wraps w' = <[q := set_response_data (Some d) (set_callback_ptr None qw)]>
                    (wraps w) /\
       immediates w' = immediates w ++ [q] /\
       trace w' = trace w ++
         [capture_ev q st; SetImmediate_ev q;
          set_query_last_ok_ev (negb (st =? ARES_ECONNREFUSED));
          ModifyActivityQueryCount_ev (-1)] /\
       twice w' in
   consumed (Callback_buf l st timeouts answer len w)
            (buf_response st answer len) /\
   forall host_copy,
     (if st =? ARES_SUCCESS
      then h' ← cares_wrap_hostent_cpy h; Done (Some h')
      else Done None) = Done host_copy ->
     consumed (Callback_host l st timeouts h w)
              {| status := st; is_host := true; host := host_copy;
                 buf := (None, 0) |}).
Proof.
  intros Hl Hq Hp twice. split; [|split].
  - unfold QueryWrap_delete. rewrite Hq, Hp, Hl. cbn [mbind outcome_bind].
    eexists. split; [reflexivity|]. simpl.
    split; [apply lookup_delete_eq|]. split; [apply lookup_insert_eq|].
    eexists. split; [|split].
    + unfold Callback_buf. rewrite FromCallbackPointer_dead
        by (simpl; apply lookup_insert_eq). reflexivity.
    + unfold Callback_host. rewrite FromCallbackPointer_dead
        by (simpl; apply lookup_insert_eq). reflexivity.
    + simpl. repeat (split; [reflexivity|]).
      apply Callback_freed. simpl. apply lookup_delete_eq.
  - eexists. split; [by apply (FromCallbackPointer_live l q qw)|]. simpl.
    repeat (split; [reflexivity|]). split.
    + unfold Callback_buf.
      by rewrite (FromCallbackPointer_live l q qw) by assumption.
    + unfold Callback_host.
      rewrite (FromCallbackPointer_live l q qw) by assumption.
      cbn [mbind outcome_bind].
      by destruct (if st =? ARES_SUCCESS then _ else _).
  - intros Hcount consumed.
    assert (Hmain : forall d,
      consumed
        (QueueResponseCallback q st
           (emit (capture_ev q st)
              (set_wraps
                 (<[q := set_response_data (Some d) (set_callback_ptr None qw)]>
                    (wraps w))
                 (set_cells (delete l (cells w)) w)))) d).
    { intros d. subst consumed. cbv beta.
      rewrite QueueResponseCallback_Done by (simpl; lia).
      eexists. split; [reflexivity|]. simpl.
      rewrite <- !(assoc_L (++)). simpl.
      repeat (split; [reflexivity|]).
      apply Callback_freed. simpl. apply lookup_delete_eq. }
    split.
    + rewrite (Callback_buf_live l q qw) by assumption. apply Hmain.
    + intros host_copy Hcopy.
      rewrite (Callback_host_live l q qw) by assumption.
      rewrite Hcopy. cbn [mbind outcome_bind]. apply Hmain.
Qed.

End TokenSafety.

Section ResponseLifecycle.
Context `{AresH, SysH, Engine, Uv}.

Lemma Setup_not_about (q : nat) (rep : setup_reply) (w : World) :
  exists tr, trace (Setup rep w) = trace w ++ tr /\
             Forall (fun e => about q e = false) tr.
Proof.
  unfold Setup.
  destruct (library_inited_ (chan w));
    [|destruct (negb (library_init_r rep =? ARES_SUCCESS))];
    destruct (negb (init_options_r rep =? ARES_SUCCESS)); simpl;
    rewrite <- ?(assoc_L (++)); eexists; (split; [reflexivity|]);
    by repeat constructor.
Qed.

Lemma EnsureServers_not_about (q : nat) (rep : setup_reply) (w w' : World) :
  EnsureServers rep w = Done w' ->
  exists tr, trace w' = trace w ++ tr /\
             Forall (fun e => about q e = false) tr.
Proof.
  assert (Hnil : exists tr, trace w = trace w ++ tr /\
                            Forall (fun e => about q e = false) tr)
    by (exists []; by rewrite app_nil_r).
  unfold EnsureServers.
  destruct (query_last_ok_ (chan w) || negb (is_servers_default_ (chan w)));
    [by intros [= <-]|].
  destruct (channel_ (chan w)) as [|c|]; [discriminate| |discriminate].
  destruct (ares_get_servers_ports c) as [|s [|s' ss]];
    [by intros [= <-] | | by intros [= <-]].
  destruct (negb (is_fallback_server s)); [by intros [= <-]|].
  intros [= <-].
  destruct (Setup_not_about q rep (World_CloseTimer (ares_destroy w)))
    as (tr & -> & Htr).
  exists (ares_destroy_ev :: tr). split.
  - unfold World_CloseTimer, CloseTimer, ares_destroy. simpl.
    destruct (timer_handle_ (chan w)); simpl; by rewrite <- (assoc_L (++)).
  - by constructor.
Qed.

(** A dispatch leaves the objects that are alive as they are, and records
    no event of theirs. *)
Lemma Query_other cls name rep (w : World) err w' q qw :
  wraps w !! q = Some qw ->
  Query cls name rep w = Done (err, w') ->
  wraps w' !! q = Some qw /\ immediates w' = immediates w /\
  exists tr, trace w' = trace w ++ tr /\
             Forall (fun e => about q e = false) tr.
Proof.
  intros Hq. unfold Query.
  set (q0 := fresh (dom (wraps w))).
  assert (Hne : q0 <> q).
  { intros E. pose proof (fresh_wrap w) as Hf. fold q0 in Hf.
    rewrite E in Hf. congruence. }
  set (wrap0 := {| wrap_class := cls; response_data_ := None;
                   callback_ptr_ := None |}).
  destruct (ModifyActivityQueryCount 1 _) as [c1| |]; [|discriminate..].
  cbn [mbind outcome_bind].
  set (w1 := set_chan c1 _).
  assert (Hq1 : wraps w1 !! q0 = Some wrap0) by apply lookup_insert_eq.
  assert (Hq1' : wraps w1 !! q = Some qw)
    by (subst w1; simpl; by rewrite lookup_insert_ne).
  assert (Hsend : forall e w2,
    Send q0 name rep w1 = Done (e, w2) ->
    ((e =? 0) = true \/ wraps w2 !! q0 = Some wrap0) /\
    wraps w2 !! q = Some qw /\ immediates w2 = immediates w /\
    exists tr, trace w2 = trace w ++ tr /\
               Forall (fun e => about q e = false) tr).
  { assert (Hmk : forall (w3 : World) (ev : event) e w2,
      wraps w3 = wraps w1 -> immediates w3 = immediates w ->
      (exists tr, trace w3 = trace w ++ tr /\
                  Forall (fun e => about q e = false) tr) ->
      about q ev = false ->
      ('(token, w) ← MakeCallbackPointer q0 w3;
       Done (0, emit ev w)) = Done (e, w2) ->
      ((e =? 0) = true \/ wraps w2 !! q0 = Some wrap0) /\
      wraps w2 !! q = Some qw /\ immediates w2 = immediates w /\
      exists tr, trace w2 = trace w ++ tr /\
                 Forall (fun e => about q e = false) tr).
    { intros w3 ev e w2 Hw3 Hi3 (tr & Ht3 & Htr) Hev.
      rewrite (MakeCallbackPointer_Done q0 wrap0 w3) by (by rewrite ?Hw3).
      cbn [mbind outcome_bind]. intros [= <- <-]. simpl.
      split; [by left|]. rewrite Hw3, Hi3, Ht3.
      split; [by rewrite lookup_insert_ne|].
      split; [reflexivity|]. exists (tr ++ [ev]).
      split; [by rewrite (assoc_L (++))|].
      apply Forall_app. split; [exact Htr | by constructor]. }
    intros e w2. unfold Send. rewrite Hq1. simpl.
    destruct (class_Send cls) as [type|].
    - unfold AresQuery.
      destruct (EnsureServers rep w1) as [w3| |] eqn:Ee; [|discriminate..].
      destruct (EnsureServers_not_about q rep w1 w3 Ee) as (tr & Ht & Htr).
      apply EnsureServers_frame in Ee as (_ & Hw3 & Hi3 & _).
      cbn [mbind outcome_bind]. intros Hs.
      apply (Hmk w3 (ares_query_ev name type (fresh (dom (cells w3)))) e w2);
        [exact Hw3 | exact Hi3 | | reflexivity |].
      + exists (ModifyActivityQueryCount_ev 1 :: tr). split.
        * rewrite Ht. simpl. by rewrite <- (assoc_L (++)).
        * by constructor.
      + rewrite (MakeCallbackPointer_Done q0 wrap0 w3) in * by (by rewrite ?Hw3).
        exact Hs.
    - assert (Hw1 : exists tr, trace w1 = trace w ++ tr /\
                               Forall (fun e => about q e = false) tr)
        by (eexists; split; [reflexivity | by repeat constructor]).
      destruct ((uv_inet_pton AF_INET name).1 =? 0).
      { intros Hs.
        eapply (Hmk w1 (ares_gethostbyaddr_ev _ AF_INET (fresh (dom (cells w1)))));
          [reflexivity | reflexivity | exact Hw1 | reflexivity |].
        rewrite (MakeCallbackPointer_Done q0 wrap0 w1) in * by done. exact Hs. }
      destruct ((uv_inet_pton AF_INET6 name).1 =? 0).
      { intros Hs.
        eapply (Hmk w1 (ares_gethostbyaddr_ev _ AF_INET6 (fresh (dom (cells w1)))));
          [reflexivity | reflexivity | exact Hw1 | reflexivity |].
        rewrite (MakeCallbackPointer_Done q0 wrap0 w1) in * by done. exact Hs. }
      intros [= <- <-]. split; [by right|].
      split; [exact Hq1'|]. split; [reflexivity|].
      exact Hw1. }
  destruct (Send q0 name rep w1) as [[e w2]| |] eqn:Es; [|discriminate..].
  destruct (Hsend e w2 eq_refl) as (Hq0 & Hq2 & Hi2 & tr & Ht2 & Htr).
  cbn [mbind outcome_bind].
  destruct (e =? 0) eqn:E0; simpl.
  { intros [= <- <-]. split; [exact Hq2|]. split; [exact Hi2|]. by exists tr. }
  destruct Hq0 as [?|Hq0]; [discriminate|].
  unfold ModifyActivityQueryCount, CHECK. simpl.
  destruct (0 <=? _); [|discriminate]. cbn [mbind outcome_bind mret outcome_ret].
  rewrite (QueryWrap_delete_no_token q0 wrap0) by done.
  cbn [mbind outcome_bind]. intros [= <- <-]. simpl.
  split; [by rewrite lookup_delete_ne|]. split; [exact Hi2|].
  exists (tr ++ [ModifyActivityQueryCount_ev (-1); delete_ev q0]).
  rewrite Ht2. split; [by rewrite <- !(assoc_L (++))|].
  apply Forall_app. split; [exact Htr|].
  repeat constructor. simpl. by apply bool_decide_eq_false.
Qed.

(** In a world that keeps the invariant, a completion that returns is the
    completion of a query in flight. *)
Lemma Done_enabled (s : step) (w w' : World) :
  lifecycle_inv w -> step_run s w = Done w' -> enabled s w.
Proof.
  intros (_ & _ & _ & I4 & _).
  destruct s as [cls name rep|l st tm answer len|l st tm h|]; simpl; try done.
  - unfold Callback_buf, FromCallbackPointer.
    destruct (cells w !! l) as [v|] eqn:Hl; [|discriminate].
    destruct (I4 _ _ Hl) as (q & qw & -> & Hq & _). intros _. by exists q, qw.
  - unfold Callback_host, FromCallbackPointer.
    destruct (cells w !! l) as [v|] eqn:Hl; [|discriminate].
    destruct (I4 _ _ Hl) as (q & qw & -> & Hq & _). intros _. by exists q, qw.
Qed.

Lemma step_run_inv (s : step) (w w' : World) :
  UV_EINVAL <> 0 -> lifecycle_inv w -> step_run s w = Done w' ->
  lifecycle_inv w'.
Proof.
  intros Hinval Hinv Hstep.
  pose proof (Done_enabled s w w' Hinv Hstep) as Hen.
  destruct s as [cls name rep|l st tm answer len|l st tm h|]; simpl in *.
  - assert (Hc : 0 <= active_query_count_ (chan w))
      by (destruct Hinv as (-> & _); lia).
    destruct (Query_cases cls name rep w Hinval Hc)
      as [(what & Hq) | [(w1 & l & qw & Hq & Hl & Hp & ?) | (w1 & Hq & ?)]];
      rewrite Hq in Hstep; [discriminate| |].
    + injection Hstep as <-. simpl.
      eapply (lifecycle_inv_alloc w w1 _ l qw); intuition eauto.
      apply fresh_wrap.
    + injection Hstep as <-. simpl.
      eapply (lifecycle_inv_same w w1); intuition lia.
  - destruct (Callback_buf_step l st tm answer len w Hinv Hen)
      as (w1 & Hcb & Hinv1 & _). congruence.
  - by eapply Callback_host_step.
  - by eapply run_immediate_step.
Qed.

(** While the object [q] waits in the queue behind the immediates [pre], a
    step leaves it as it is and records no event of it; an immediate runs
    the first of [pre]. *)
Lemma step_run_waiting (s : step) (w w' : World) (q : nat) (qw : QueryWrap)
    (pre later : list nat) :
  lifecycle_inv w ->
  wraps w !! q = Some qw -> callback_ptr_ qw = None ->
  immediates w = pre ++ q :: later ->
  (is_Immediate s = true -> pre <> []) ->
  step_run s w = Done w' ->
  wraps w' !! q = Some qw /\
  (exists later',
     immediates w'
     = (if is_Immediate s then tail pre else pre) ++ q :: later') /\
  exists tr, trace w' = trace w ++ tr /\
             Forall (fun e => about q e = false) tr.
Proof.
  intros Hinv Hq Hp Himm Hpre Hstep.
  pose proof (Done_enabled s w w' Hinv Hstep) as Hen.
  assert (Hother : forall l q0 qw0 (d : ResponseData) st,
    cells w !! l = Some (Some q0) -> wraps w !! q0 = Some qw0 ->
    let w1 := set_chan
            (set_active_query_count (active_query_count_ (chan w) + -1)
               (set_query_last_ok (negb (st =? ARES_ECONNREFUSED)) (chan w)))
            (emit (ModifyActivityQueryCount_ev (-1))
               (emit (set_query_last_ok_ev (negb (st =? ARES_ECONNREFUSED)))
                  (emit (SetImmediate_ev q0)
                     (set_immediates (immediates w ++ [q0])
                        (emit (capture_ev q0 st)
                           (set_wraps
                              (<[q0 := set_response_data (Some d)
                                         (set_callback_ptr None qw0)]> (wraps w))
                              (set_cells (delete l (cells w)) w))))))) in
    wraps w1 !! q = Some qw /\
    (exists later', immediates w1 = pre ++ q :: later') /\
    exists tr, trace w1 = trace w ++ tr /\
               Forall (fun e => about q e = false) tr).
  { intros l q0 qw0 d st Hl Hq0 w1.
    assert (Hne : q0 <> q).
    { destruct Hinv as (_ & _ & _ & I4 & _).
      destruct (I4 _ _ Hl) as (q1 & qw1 & [= <-] & Hq1 & Hp1).
      intros ->. congruence. }
    subst w1. simpl. split; [by rewrite lookup_insert_ne|]. split.
    - exists (later ++ [q0]). by rewrite Himm, <- (assoc_L (++)).
    - eexists. rewrite <- !(assoc_L (++)). split; [reflexivity|].
      repeat constructor; simpl; by apply bool_decide_eq_false. }
  destruct s as [cls name rep|l st tm answer len|l st tm h|]; simpl in *.
  - destruct (Query cls name rep w) as [[err w1]| |] eqn:Eq; [|discriminate..].
    injection Hstep as <-. simpl.
    destruct (Query_other cls name rep w err w1 q qw Hq Eq) as (Hq1 & Hi1 & Htr).
    split; [exact Hq1|]. split; [|exact Htr]. exists later. by rewrite Hi1.
  - pose proof (lifecycle_inv_in_flight w l Hinv Hen) as Hc.
    destruct Hen as (q0 & qw0 & Hl & Hq0).
    rewrite (Callback_buf_live l q0 qw0) in Hstep by assumption.
    rewrite QueueResponseCallback_Done in Hstep by (simpl; lia).
    injection Hstep as <-. by apply (Hother l q0 qw0 _ st).
  - pose proof (lifecycle_inv_in_flight w l Hinv Hen) as Hc.
    destruct Hen as (q0 & qw0 & Hl & Hq0).
    rewrite (Callback_host_live l q0 qw0) in Hstep by assumption.
    destruct (if st =? ARES_SUCCESS then _ else _) as [hc| |]; [|discriminate..].
    cbn [mbind outcome_bind] in Hstep.
    rewrite QueueResponseCallback_Done in Hstep by (simpl; lia).
    injection Hstep as <-. by apply (Hother l q0 qw0 _ st).
  - destruct pre as [|p pre]; [by destruct Hpre|]. simpl in Himm.
    destruct Hinv as (_ & _ & _ & _ & _ & I6 & I7).
    rewrite Himm in I7. apply NoDup_cons in I7 as [Hnotin _].
    assert (Hne : p <> q).
    { intros ->. apply Hnotin, elem_of_app. right. left. }
    destruct (I6 p) as (qwp & Hqp & Hpp); [rewrite Himm; left|].
    revert Hstep. unfold run_immediate, AfterResponse. rewrite Himm. simpl.
    rewrite Hqp. destruct (response_data_ qwp) as [d|]; [|discriminate].
    destruct (deliver (wrap_class qwp) d) as [calls| |]; [|discriminate..].
    cbn [mbind outcome_bind].
    destruct (emit_calls_trace p calls (set_immediates (pre ++ q :: later) w))
      as (Ht & _ & _ & Hw & Hi & _).
    rewrite (QueryWrap_delete_no_token p qwp) by first [by rewrite Hw | assumption].
    intros [= <-]. simpl. rewrite Hw, Hi, Ht. simpl.
    split; [by rewrite lookup_delete_ne|]. split; [by exists later|].
    exists ((MakeCallback_ev p <$> calls) ++ [delete_ev p]).
    split; [by rewrite <- (assoc_L (++))|].
    apply Forall_app. split.
    + apply Forall_fmap, Forall_forall. intros argv _. simpl.
      by apply bool_decide_eq_false.
    + repeat constructor. simpl. by apply bool_decide_eq_false.
Qed.

(** The object [q] waits behind [pre]: a run with as many immediates as
    [pre] has entries brings it to the head of the queue, unchanged. *)
Lemma run_waiting (ss : list step) (w w' : World) (q : nat) (qw : QueryWrap)
    (pre later : list nat) :
  UV_EINVAL <> 0 ->
  lifecycle_inv w ->
  wraps w !! q = Some qw -> callback_ptr_ qw = None ->
  immediates w = pre ++ q :: later ->
  length (filter (fun s => is_Immediate s = true) ss) = length pre ->
  run ss w = Done w' ->
  wraps w' !! q = Some qw /\
  (exists later', immediates w' = q :: later') /\
  exists tr, trace w' = trace w ++ tr /\
             Forall (fun e => about q e = false) tr.
Proof.
  intros Hinval. revert w pre later.
  induction ss as [|s ss IH]; intros w pre later Hinv Hq Hp Himm Hlen; simpl.
  - intros [= <-]. destruct pre; [|done]. split; [exact Hq|].
    split; [by exists later|]. exists []. by rewrite app_nil_r.
  - destruct (step_run s w) as [w1| |] eqn:Es; [|discriminate..].
    cbn [mbind outcome_bind]. intros Hrun.
    rewrite filter_cons in Hlen.
    assert (Hpre : is_Immediate s = true -> pre <> []).
    { intros Hs. rewrite decide_True in Hlen by exact Hs.
      destruct pre; [done|done]. }
    destruct (step_run_waiting s w w1 q qw pre later Hinv Hq Hp Himm Hpre Es)
      as (Hq1 & (later1 & Hi1) & tr1 & Ht1 & Htr1).
    pose proof (step_run_inv s w w1 Hinval Hinv Es) as Hinv1.
    assert (Hlen1 : length (filter (fun s => is_Immediate s = true) ss)
                    = length (if is_Immediate s then tail pre else pre)).
    { destruct (is_Immediate s) eqn:Hs.
      - rewrite decide_True in Hlen by done. destruct pre; simpl in *; lia.
      - rewrite decide_False in Hlen by congruence. exact Hlen. }
    destruct (IH w1 _ later1 Hinv1 Hq1 Hp Hi1 Hlen1 Hrun)
      as (Hq2 & Hi2 & tr2 & Ht2 & Htr2).
    split; [exact Hq2|]. split; [exact Hi2|].
    exists (tr1 ++ tr2). rewrite Ht2, Ht1. split; [by rewrite (assoc_L (++))|].
    by apply Forall_app.
Qed.

(** C2, as the code has it: take, in a world that dispatches, completions
    and immediates lead to, a query in flight whose lifecycle object [q] is
    alive.  Either completion callback (for an answer buffer, or for a host
    entry whose copy returns) captures the response, queues the deferred
    delivery behind the immediates that wait already, sets the "last query
    ok" flag (to false exactly for [ARES_ECONNREFUSED]) and decrements the
    in-flight counter, in that order and before it returns.  Whatever is
    dispatched and completed then, once the loop has run the immediates that
    waited before, the object is at the head of the queue as the callback
    left it, and no event of it has been recorded since; its immediate then
    makes the calls of the completion hook (none, where [Parse] makes none)
    and deletes the object last.  So the flag update and the decrement come
    before the delivery, and the capture, the decrement and the delivery
    before the release. *)
Theorem response_lifecycle
    (w : World) (l q : nat) (qw : QueryWrap)
    (st timeouts : Z) (answer : list Z) (len : Z) (h : hostent) :
  UV_EINVAL <> 0 ->
  reachable w ->
  cells w !! l = Some (Some q) ->
  wraps w !! q = Some qw ->
  let ok := negb (st =? ARES_ECONNREFUSED) in
  let lifecycle (completion : outcome World) (d : ResponseData) :=
    exists w1,
      completion = Done w1 /\
      trace w1 = trace w ++
        [capture_ev q st; SetImmediate_ev q; set_query_last_ok_ev ok;
         ModifyActivityQueryCount_ev (-1)] /\
      immediates w1 = immediates w ++ [q] /\
      wraps w1 = <[q := set_response_data (Some d) (set_callback_ptr None qw)]>
                   (wraps w) /\
      cells w1 = delete l (cells w) /\
      query_last_ok_ (chan w1) = ok /\
      active_query_count_ (chan w1) = active_query_count_ (chan w) - 1 /\
      forall (ss : list step) (w2 : World),
        run ss w1 = Done w2 ->
        length (filter (fun s => is_Immediate s = true) ss)
        = length (immediates w) ->
        exists tr later,
          trace w2 = trace w1 ++ tr /\
          Forall (fun e => about q e = false) tr /\
          immediates w2 = q :: later /\
          wraps w2 !! q
          = Some (set_response_data (Some d) (set_callback_ptr None qw)) /\
          match deliver (wrap_class qw) d with
          | Done calls =>
              exists w3,
                run_immediate w2 = Done w3 /\
                trace w3 = trace w ++
                  [capture_ev q st; SetImmediate_ev q; set_query_last_ok_ev ok;
                   ModifyActivityQueryCount_ev (-1)] ++ tr ++
                  (MakeCallback_ev q <$> calls) ++ [delete_ev q] /\
                chan w3 = chan w2 /\
                wraps w3 = delete q (wraps w2) /\
                immediates w3 = later
          | CheckFailed msg => run_immediate w2 = CheckFailed msg
          | Undefined what => run_immediate w2 = Undefined what
          end in
  lifecycle (Callback_buf l st timeouts answer len w)
            (buf_response st answer len) /\
  forall host_copy,
    (if st =? ARES_SUCCESS
     then h' ← cares_wrap_hostent_cpy h; Done (Some h')
     else Done None) = Done host_copy ->
    lifecycle (Callback_host l st timeouts h w)
              {| status := st; is_host := true; host := host_copy;
                 buf := (None, 0) |}.
Proof.
  intros Hinval Hreach Hl Hq ok lifecycle.
  pose proof (reachable_inv w Hinval Hreach) as Hinv.
  assert (Hcount : 1 <= active_query_count_ (chan w))
    by (apply (lifecycle_inv_in_flight w l Hinv); by exists q, qw).
  assert (Hmain : forall d,
    lifecycle
      (QueueResponseCallback q st
         (emit (capture_ev q st)
            (set_wraps
               (<[q := set_response_data (Some d) (set_callback_ptr None qw)]>
                  (wraps w))
               (set_cells (delete l (cells w)) w)))) d).
  { intros d. subst lifecycle. cbv beta.
    rewrite QueueResponseCallback_Done by (simpl; lia).
    set (qw' := set_response_data (Some d) (set_callback_ptr None qw)).
    eexists. split; [reflexivity|]. simpl.
    rewrite <- !(assoc_L (++)). simpl.
    split; [reflexivity|]. split; [reflexivity|]. split; [reflexivity|].
    split; [reflexivity|]. split; [reflexivity|]. split; [lia|].
    intros ss w2 Hrun Hlen.
    match type of Hrun with run ss ?x = _ => set (w1 := x) in * end.
    assert (Hinv1 : lifecycle_inv w1).
    { eapply (lifecycle_inv_consume w w1 q l qw qw');
        try eassumption; try reflexivity; subst w1; simpl;
        rewrite ?count_events_app, ?count_events_single; simpl;
        first [reflexivity | lia]. }
    destruct (run_waiting ss w1 w2 q qw' (immediates w) [] Hinval Hinv1)
      as (Hq2 & (later & Hi2) & tr & Ht2 & Htr);
      [apply lookup_insert_eq | reflexivity | reflexivity | exact Hlen
      | exact Hrun |].
    exists tr, later. split; [rewrite Ht2; subst w1; simpl;
                              by rewrite <- !(assoc_L (++))|].
    split; [exact Htr|]. split; [exact Hi2|]. split; [exact Hq2|].
    assert (Ht21 : trace w2 = trace w ++
              [capture_ev q st; SetImmediate_ev q; set_query_last_ok_ev ok;
               ModifyActivityQueryCount_ev (-1)] ++ tr).
    { rewrite Ht2. subst w1. simpl. by rewrite <- !(assoc_L (++)). }
    change (wrap_class qw) with (wrap_class qw').
    assert (Hri : run_immediate w2
      = (w ← (calls ← deliver (wrap_class qw') d;
              Done (foldl (fun w argv => emit (MakeCallback_ev q argv) w)
                          (set_immediates later w2) calls));
         QueryWrap_delete q w)).
    { unfold run_immediate, AfterResponse. rewrite Hi2. simpl. by rewrite Hq2. }
    destruct (deliver (wrap_class qw') d) as [calls|msg|what] eqn:Hdel.
    - rewrite (run_immediate_head w2 q later qw' d calls) by done.
      eexists. split; [reflexivity|]. simpl.
      destruct (emit_calls_trace q calls (set_immediates later w2))
        as (Ht & Hc & Hce & Hw & Hi & _).
      rewrite Ht, Hc, Hi. simpl. rewrite Ht21.
      by rewrite <- !(assoc_L (++)).
    - exact Hri.
    - exact Hri. }
  split.
  - rewrite (Callback_buf_live l q qw) by assumption. apply Hmain.
  - intros host_copy Hcopy.
    rewrite (Callback_host_live l q qw) by assumption.
    rewrite Hcopy. cbn [mbind outcome_bind]. apply Hmain.
Qed.

End ResponseLifecycle.

(** ** The further properties on the concrete engine *)

Lemma notifications_keep_sockets_distinct_witness :
  exists c' closing',
    notifications ((-1, 7, 1, 0) :: sample_notifications)
                  (ChannelWrap_new 0, []) = Done (c', closing') /\
    sock <$> task_list_ c' = [5] /\
    NoDup (sock <$> task_list_ c').
Proof.
  eexists _, _. split; [vm_compute; reflexivity|]. split; [reflexivity|].
  eapply (notifications_keep_sockets_distinct
            ((-1, 7, 1, 0) :: sample_notifications) (ChannelWrap_new 0) _ []);
    [constructor | vm_compute; reflexivity].
Defined.

Lemma timer_runs_iff_watching_witness :
  exists c' closing',
    notifications sample_notifications (ChannelWrap_new 0, []) = Done (c', closing') /\
    timer_running c' = true /\
    AresTimeout (uv_timer_start 1 1) c' = Done c'.
Proof.
  eexists _, _. split; [vm_compute; reflexivity|].
  destruct (timer_runs_iff_watching sample_notifications 0 _ [] _
              ltac:(repeat constructor; simpl; lia)
              ltac:(vm_compute; reflexivity)) as [Hiff Hcb].
  split; [apply Hiff; discriminate|]. by apply Hcb.
Defined.

Lemma open_then_close_restores_witness :
  exists c1 c2 closing2,
    ares_sockstate_cb 0 5 1 0 (ChannelWrap_new 0, []) = Done (c1, []) /\
    ares_sockstate_cb 0 5 0 0 (c1, []) = Done (c2, closing2) /\
    task_list_ c2 = [] /\ timer_running c2 = false /\
    length closing2 = 2%nat.
Proof.
  destruct (open_then_close_restores 0 0 5 1 0 (ChannelWrap_new 0) [])
    as (c1 & c2 & closing2 & Ho & _ & Hc & Hl & Ht & _ & He).
  - lia.
  - left. lia.
  - apply registry_ok_new.
  - reflexivity.
  - exists c1, c2, closing2. split; [exact Ho|]. split; [exact Hc|].
    split; [exact Hl|]. split; [exact Ht|].
    destruct (He eq_refl) as [_ ->]. reflexivity.
Defined.

Lemma poll_interest_is_replaced_witness :
  exists c',
    notifications [(0, 5, 1, 1); (0, 6, 1, 0); (0, 5, 0, 1)]
                  (ChannelWrap_new 0, []) = Done (c', []) /\
    poll_events <$> (poll_watcher <$> task_find 5 (task_list_ c')) = Some 2 /\
    poll_events <$> (poll_watcher <$> task_find 6 (task_list_ c')) = Some 1.
Proof.
  destruct (poll_interest_is_replaced 0 5 0 1
              (set_task_list
                 [{| sock := 6; poll_watcher := {| poll_events := 1 |} |};
                  {| sock := 5; poll_watcher := {| poll_events := 3 |} |}]
                 (StartTimer (ChannelWrap_new 0))) [])
    as (c' & Hcb & Hs & Hother); [lia | right; lia |].
  exists c'. split.
  - cbn [notifications]. exact Hcb.
  - rewrite Hs, (Hother 6) by lia. split; reflexivity.
Defined.

Lemma ares_poll_cb_finds_timer_witness :
  exists c' closing' c'',
    notifications sample_notifications (ChannelWrap_new 0, []) = Done (c', closing') /\
    ares_poll_cb
      {| sock := 5; poll_watcher := {| poll_events := 2 |} |} 0 2 c'
    = Done (c'', (-1, 5)).
Proof.
  eexists _, _, _. split; [vm_compute; reflexivity|].
  destruct (ares_poll_cb_finds_timer sample_notifications 0 _ [] _
              {| sock := 5; poll_watcher := {| poll_events := 2 |} |} 0 2
              ltac:(repeat constructor; simpl; lia)
              ltac:(vm_compute; reflexivity)
              ltac:(repeat constructor)) as (handle & Hh & _ & Hcb).
  rewrite Hcb. injection Hh as <-. reflexivity.
Defined.

Lemma ParseTxtReply_chunks_witness :
  @ParseTxtReply cares_h txt_decoder [] 0 [] false
  = Done (0, [Arr [Str "v=spf1 "; Str "-all"]; Arr [Str "hello"]]) /\
  exists groups,
    [{| txt := "v=spf1 "; record_start := true |};
     {| txt := "-all"; record_start := false |};
     {| txt := "hello"; record_start := true |}] = concat groups /\
    record_groups groups /\
    @ParseTxtReply cares_h txt_decoder [] 0 [] false
    = Done (0, [] ++ map (fun g => txt_elem false (chunk_of g)) groups).
Proof.
  split; [reflexivity|].
  exact (@ParseTxtReply_chunks cares_h txt_decoder [] 0 [] false _ eq_refl).
Defined.

Lemma ParseSoaReply_status_witness :
  (@ParseSoaReply cares_h linux_h sample_decoder soa_answer 50).1 = 0 /\
  (@ParseSoaReply cares_h linux_h sample_decoder soa_answer 30).1 = 10 /\
  (@ParseSoaReply cares_h linux_h sample_decoder soa_answer 30).2 = None.
Proof.
  split; [reflexivity|]. split; [reflexivity|].
  destruct (@ParseSoaReply_status cares_h linux_h sample_decoder soa_answer 30)
    as (_ & Hnone & _); [discriminate..|].
  apply Hnone. discriminate.
Defined.

Lemma QueryAnyWrap_Parse_calls_witness :
  exists ret,
    @QueryAnyWrap_Parse cares_h linux_h two_address_uv sample_decoder
      soa_answer 50 = Done [[Int 0; Arr ret]] /\
    length ret = 10%nat /\
    Forall (fun v => has_type_string v = true) ret.
Proof.
  eassert (Hp : @QueryAnyWrap_Parse cares_h linux_h two_address_uv
                  sample_decoder soa_answer 50 = Done _)
    by (vm_compute; reflexivity).
  destruct (@QueryAnyWrap_Parse_calls cares_h linux_h two_address_uv
              sample_decoder soa_answer 50 _ Hp)
    as [[Hnil _] | [(st & _ & Herr) | (ret & Hret & Htyped)]];
    [discriminate Hnil | discriminate Herr |].
  exists ret. split; [by rewrite Hp, Hret|]. split; [|exact Htyped].
  by injection Hret as <-.
Defined.

Lemma reverse_lookup_lifecycle_witness :
  exists w1 w2,
    Callback_host 0 0 0 sample_host reverse_in_flight = Done w1 /\
    run_immediate w1 = Done w2 /\
    trace w2 = trace reverse_in_flight ++
      [capture_ev 0 0; SetImmediate_ev 0; set_query_last_ok_ev true;
       ModifyActivityQueryCount_ev (-1);
       MakeCallback_ev 0 [Int 0; Arr [Str "localhost"]]; delete_ev 0].
Proof.
  destruct (reverse_lookup_lifecycle reverse_in_flight 0 0
              {| wrap_class := GetHostByAddrWrap; response_data_ := None;
                 callback_ptr_ := Some 0%nat |} 0 0 sample_host)
    as (w1 & w2 & Hcb & Hrun & Htr & _).
  - reflexivity.
  - reflexivity.
  - reflexivity.
  - reflexivity.
  - vm_compute. discriminate.
  - intros _. by eexists.
  - exists w1, w2. split; [exact Hcb|]. split; [exact Hrun|]. exact Htr.
Defined.

Lemma reverse_lookup_rejects_bad_address_witness :
  exists w',
    Query GetHostByAddrWrap "localhost" (reply_with [public_server])
      reverse_in_flight = Done (-22, w') /\
    trace w' = trace reverse_in_flight ++
      [ModifyActivityQueryCount_ev 1; ModifyActivityQueryCount_ev (-1);
       delete_ev 1] /\
    active_query_count_ (chan w') = 1 /\
    cells w' = cells reverse_in_flight.
Proof.
  assert (H1 : @UV_EINVAL linux_h <> 0) by (vm_compute; discriminate).
  assert (H2 : 0 <= active_query_count_ (chan reverse_in_flight))
    by (vm_compute; discriminate).
  assert (H3 : (uv_inet_pton AF_INET "localhost").1 <> 0)
    by (vm_compute; discriminate).
  assert (H4 : (uv_inet_pton AF_INET6 "localhost").1 <> 0)
    by (vm_compute; discriminate).
  eexists. split.
  - exact (reverse_lookup_rejects_bad_address "localhost"
             (reply_with [public_server]) reverse_in_flight H1 H2 H3 H4).
  - split; [|split]; reflexivity.
Defined.


Lemma SetServers_rejects_bad_address_witness :
  SetServers [(4, "8.8.8.8"%string, 53); (6, "127.0.0.1"%string, 53)]
             (world_with [loopback_server])
  = Done (17, world_with [loopback_server]).
Proof.
  assert (Hbad : @ARES_EBADSTR cares_h <> @ARES_SUCCESS cares_h)
    by discriminate.
  assert (Hwf : Forall entry_well_formed
                  [(4, "8.8.8.8"%string, 53); (6, "127.0.0.1"%string, 53)]).
  { repeat (apply Forall_cons; split; [split; simpl; [auto | discriminate]|]).
    apply Forall_nil. exact I. }
  assert (Hex : Exists
                  (fun e => (uv_inet_pton (address_family e.1.1) e.1.2).1 <> 0)
                  [(4, "8.8.8.8"%string, 53); (6, "127.0.0.1"%string, 53)])
    by (apply Exists_cons_tl, Exists_cons_hd; discriminate).
  exact (SetServers_rejects_bad_address _ (world_with [loopback_server])
           ([loopback_server] : @ares_channel list_engine)
           Hbad eq_refl eq_refl Hwf Hex).
Defined.

Lemma SetServers_hands_over_list_witness :
  exists w',
    SetServers [(4, "8.8.8.8"%string, 53); (4, "127.0.0.1"%string, 5353)]
               (world_with [loopback_server]) = Done (0, w') /\
    channel_ (chan w')
    = Live [public_server;
            {| family := 2; addr := [127; 0; 0; 1];
               udp_port := 5353; tcp_port := 5353 |}] /\
    is_servers_default_ (chan w') = false.
Proof.
  destruct (SetServers_hands_over_list
              [(4, "8.8.8.8"%string, 53); (4, "127.0.0.1"%string, 5353)]
              (world_with [loopback_server]) ([loopback_server] : @ares_channel list_engine))
    as (w' & Hset & Hchan & Hflag & _).
  - reflexivity.
  - reflexivity.
  - discriminate.
  - repeat (apply Forall_cons;
            split; [split; [split; simpl; [auto | discriminate] | reflexivity]|]).
    apply Forall_nil. exact I.
  - exists w'. split; [exact Hset|]. split; [exact Hchan | exact Hflag].
Defined.

Lemma SetServers_aborts_on_malformed_entry_witness :
  exists msg,
    SetServers [(4, "8.8.8.8"%string, 53); (4, "127.0.0.1"%string, 0)]
               (world_with [loopback_server]) = CheckFailed msg.
Proof.
  apply (SetServers_aborts_on_malformed_entry
           [(4, "8.8.8.8"%string, 53)] [] 4 0 "127.0.0.1"
           (world_with [loopback_server]) ([loopback_server] : @ares_channel list_engine)).
  - reflexivity.
  - reflexivity.
  - apply Forall_cons.
    split; [split; [split; simpl; [auto | discriminate] | reflexivity]|].
    apply Forall_nil. exact I.
  - by left.
Defined.

Lemma SetServers_servers_persist_witness :
  SetServers [(4, "8.8.8.8"%string, 53)] (world_with [loopback_server])
  = Done (0, servers_set) /\
  run refused_lookup servers_set = Done (run_from refused_lookup servers_set) /\
  query_last_ok_ (chan (run_from refused_lookup servers_set)) = false /\
  is_servers_default_ (chan (run_from refused_lookup servers_set)) = false /\
  channel_ (chan (run_from refused_lookup servers_set)) = Live [public_server].
Proof.
  assert (Hpending : @ARES_SUCCESS cares_h <> DNS_ESETSRVPENDING)
    by discriminate.
  assert (Hset : SetServers [(4, "8.8.8.8"%string, 53)]
                   (world_with [loopback_server]) = Done (0, servers_set))
    by (vm_compute; reflexivity).
  assert (Hrun : run refused_lookup servers_set
                 = Done (run_from refused_lookup servers_set))
    by (vm_compute; reflexivity).
  assert (Hne : [(4, "8.8.8.8"%string, 53)] <> []) by discriminate.
  destruct (SetServers_servers_persist _ refused_lookup _ _ _ Hpending
              Hne Hset Hrun) as (_ & Hflag & Hchan).
  split; [exact Hset|]. split; [exact Hrun|].
  split; [reflexivity|]. split; [exact Hflag | exact Hchan].
Defined.

Lemma AfterGetAddrInfo_order_witness :
  @AfterGetAddrInfo linux_h loopback_uv stream_lookup 0 sample_addrinfo false
  = Done (0, Some ["127.0.0.1"; "8.8.8.8"; "::1"]%string) /\
  @AfterGetAddrInfo linux_h loopback_uv stream_lookup 0 sample_addrinfo true
  = Done (0, Some ["::1"; "127.0.0.1"; "8.8.8.8"]%string) /\
  @AfterGetAddrInfo linux_h loopback_uv stream_lookup 0 [] false
  = Done (-3007, Some []).
Proof.
  assert (Hfam : @AF_INET linux_h <> @AF_INET6 linux_h) by discriminate.
  assert (Hall : Forall (fun p => ai_socktype p = SOCK_STREAM) sample_addrinfo)
    by (repeat constructor).
  split; [|split].
  - exact (proj1 (@AfterGetAddrInfo_order linux_h loopback_uv stream_lookup
                    sample_addrinfo false Hfam Hall)).
  - exact (proj1 (@AfterGetAddrInfo_order linux_h loopback_uv stream_lookup
                    sample_addrinfo true Hfam Hall)).
  - exact (proj1 (@AfterGetAddrInfo_order linux_h loopback_uv stream_lookup
                    [] false Hfam (Forall_nil_2 _))).
Defined.

Lemma deferred_delivery_finds_its_object_witness :
  reachable two_answers /\
  immediates two_answers = [1%nat; 0%nat] /\
  exists w',
    run_immediate two_answers = Done w' /\
    trace w' = trace two_answers ++
               [MakeCallback_ev 1 [Str "ETIMEOUT"]; delete_ev 1] /\
    immediates w' = [0%nat].
Proof.
  assert (R : reachable two_answers)
    by (apply (reachable_run (take 5 reverse_lookups) _ _
                 (reachable_new 0 (reply_with [public_server])));
        vm_compute; reflexivity).
  assert (Hinval : @UV_EINVAL linux_h <> 0) by (vm_compute; discriminate).
  assert (Himm : immediates two_answers = [1%nat; 0%nat])
    by (vm_compute; reflexivity).
  pose (d1 := {| status := 12; is_host := true; host := None; buf := (None, 0) |}).
  pose (qw1 := {| wrap_class := GetHostByAddrWrap; response_data_ := Some d1;
                  callback_ptr_ := None |}).
  assert (Hq1 : wraps two_answers !! 1%nat = Some qw1)
    by (vm_compute; reflexivity).
  assert (Hdel : deliver (wrap_class qw1) d1 = Done [[Str "ETIMEOUT"]])
    by (vm_compute; reflexivity).
  pose proof (deferred_delivery_finds_its_object two_answers Hinval R) as H.
  rewrite Himm in H. destruct H as (_ & qw & d & Hq & Hd & _ & Hrun).
  rewrite Hq1 in Hq. injection Hq as <-. injection Hd as <-.
  rewrite Hdel in Hrun. destruct Hrun as (w' & Hrun & Htr & _ & Hi & _).
  split; [exact R|]. split; [exact Himm|].
  exists w'. split; [exact Hrun|]. split; [exact Htr | exact Hi].
Defined.


(** [callback_token_safety] on a reverse lookup in flight: the completion
    after the object was destroyed, and the completion of the live object by
    either callback, which a second completion cannot follow. *)
Lemma callback_token_safety_witness :
  (exists w1 w2,
     QueryWrap_delete 0 reverse_in_flight = Done w1 /\
     cells w1 !! 0%nat = Some None /\
     Callback_host 0 0 0 sample_host w1 = Done w2 /\
     trace w2 = trace w1 /\ immediates w2 = immediates w1 /\
     cells w2 !! 0%nat = None) /\
  (exists w',
     Callback_host 0 0 0 sample_host reverse_in_flight = Done w' /\
     cells w' !! 0%nat = None /\
     callback_ptr_ <$> wraps w' !! 0%nat = Some None /\
     immediates w' = [0%nat] /\
     Callback_host 0 0 0 sample_host w'
     = Undefined "FromCallbackPointer: the cell is freed") /\
  (exists w',
     Callback_buf 0 11 0 [] 0 reverse_in_flight = Done w' /\
     cells w' !! 0%nat = None /\
     callback_ptr_ <$> wraps w' !! 0%nat = Some None /\
     immediates w' = [0%nat] /\
     Callback_buf 0 11 0 [] 0 w'
     = Undefined "FromCallbackPointer: the cell is freed").
Proof.
  pose (qw := {| wrap_class := GetHostByAddrWrap; response_data_ := None;
                 callback_ptr_ := Some 0%nat |}).
  assert (Hl : cells reverse_in_flight !! 0%nat = Some (Some 0%nat))
    by (vm_compute; reflexivity).
  assert (Hq : wraps reverse_in_flight !! 0%nat = Some qw)
    by (vm_compute; reflexivity).
  assert (Hcount : 1 <= active_query_count_ (chan reverse_in_flight))
    by (vm_compute; discriminate).
  assert (Himm : immediates reverse_in_flight = []) by (vm_compute; reflexivity).
  destruct (callback_token_safety reverse_in_flight 0%nat 0%nat qw 0 0 [] 0
              sample_host Hl Hq eq_refl) as (Hdead & _ & Hlive).
  destruct (callback_token_safety reverse_in_flight 0%nat 0%nat qw 11 0 [] 0
              sample_host Hl Hq eq_refl) as (_ & _ & Hlive').
  split; [|split].
  - destruct Hdead
      as (w1 & Hdel & _ & Hnull & w2 & _ & Hcb & Hcells & Htr & Him & _).
    exists w1, w2. split; [exact Hdel|]. split; [exact Hnull|].
    split; [exact Hcb|]. split; [exact Htr|]. split; [exact Him|].
    rewrite Hcells. apply lookup_delete_eq.
  - destruct (Hlive Hcount) as [_ Hhost].
    destruct (Hhost (Some sample_host) eq_refl)
      as (w' & Hcb & Hcells & Hwraps & Hi & _ & _ & Htwice).
    exists w'. split; [exact Hcb|].
    split; [rewrite Hcells; apply lookup_delete_eq|].
    split; [by rewrite Hwraps, lookup_insert_eq|].
    split; [by rewrite Hi, Himm|]. apply Htwice.
  - destruct (Hlive' Hcount) as [(w' & Hcb & Hcells & Hwraps & Hi & _ & Htwice & _) _].
    exists w'. split; [exact Hcb|].
    split; [rewrite Hcells; apply lookup_delete_eq|].
    split; [by rewrite Hwraps, lookup_insert_eq|].
    split; [by rewrite Hi, Himm|]. apply Htwice.
Defined.

Lemma Done_inj {A : Type} (a b : A) : Done a = Done b -> a = b.
Proof. by intros [= ->]. Qed.

(** [response_lifecycle] on the first of the reverse lookups, completed
    while the delivery of the third waits: its delivery is queued behind
    that one, and runs after it. *)
Lemma response_lifecycle_witness :
  reachable one_answer_waiting /\
  immediates one_answer_waiting = [1%nat] /\
  exists w1 w2 w3,
    Callback_host 0 0 0 sample_host one_answer_waiting = Done w1 /\
    immediates w1 = [1%nat; 0%nat] /\
    run [Immediate] w1 = Done w2 /\
    immediates w2 = [0%nat] /\
    run_immediate w2 = Done w3 /\
    trace w3 = trace one_answer_waiting ++
      [capture_ev 0 0; SetImmediate_ev 0; set_query_last_ok_ev true;
       ModifyActivityQueryCount_ev (-1);
       MakeCallback_ev 1 [Str "ETIMEOUT"]; delete_ev 1;
       MakeCallback_ev 0 [Int 0; Arr [Str "localhost"]]; delete_ev 0].
Proof.
  assert (R : reachable one_answer_waiting)
    by (apply (reachable_run (take 4 reverse_lookups) _ _
                 (reachable_new 0 (reply_with [public_server])));
        vm_compute; reflexivity).
  assert (Hinval : @UV_EINVAL linux_h <> 0) by (vm_compute; discriminate).
  assert (Himm : immediates one_answer_waiting = [1%nat])
    by (vm_compute; reflexivity).
  pose (qw := {| wrap_class := GetHostByAddrWrap; response_data_ := None;
                 callback_ptr_ := Some 0%nat |}).
  assert (Hl : cells one_answer_waiting !! 0%nat = Some (Some 0%nat))
    by (vm_compute; reflexivity).
  assert (Hq : wraps one_answer_waiting !! 0%nat = Some qw)
    by (vm_compute; reflexivity).
  destruct (response_lifecycle one_answer_waiting 0%nat 0%nat qw 0 0 [] 0
              sample_host Hinval R Hl Hq) as [_ Hhost].
  destruct (Hhost (Some sample_host) eq_refl)
    as (w1 & Hcb & _ & Hi1 & _ & _ & _ & _ & Hlater).
  assert (E1 : Callback_host 0 0 0 sample_host one_answer_waiting
               = Done two_answers) by (vm_compute; reflexivity).
  rewrite E1 in Hcb. apply Done_inj in Hcb. subst w1.
  pose (w2 := run_from (take 6 reverse_lookups) (world_with [public_server])).
  assert (Hrun : run [Immediate] two_answers = Done w2)
    by (vm_compute; reflexivity).
  assert (Hi2 : immediates w2 = [0%nat]) by (vm_compute; reflexivity).
  assert (Ht2 : trace w2 = trace two_answers ++
                  [MakeCallback_ev 1 [Str "ETIMEOUT"]; delete_ev 1])
    by (vm_compute; reflexivity).
  assert (Hd : deliver (wrap_class qw)
                 {| status := 0; is_host := true; host := Some sample_host;
                    buf := (None, 0) |}
               = Done [[Int 0; Arr [Str "localhost"]]])
    by (vm_compute; reflexivity).
  destruct (Hlater [Immediate] w2 Hrun) as (tr & later & Htr & _ & _ & _ & Hdel);
    [by rewrite Himm|].
  rewrite Ht2 in Htr. apply app_inv_head in Htr. subst tr.
  rewrite Hd in Hdel. destruct Hdel as (w3 & Hri & Ht3 & _).
  split; [exact R|]. split; [exact Himm|].
  exists two_answers, w2, w3. split; [exact E1|].
  split; [by rewrite Hi1, Himm|]. split; [exact Hrun|]. split; [exact Hi2|].
  split; [exact Hri | exact Ht3].
Defined.

(** [record_type_Parse_calls_once] on the headers of Linux: an A answer
    with its TTL, an MX answer, and an answer without MX records, which
    [resolveMx] reports as the error [ENODATA]. *)
Lemma record_type_Parse_calls_once_witness :
  class_Parse_buf
    (@QueryAWrap cares_h linux_h two_address_uv sample_decoder) soa_answer 50
  = Done [[Int 0; Arr [Str "127.0.0.1"]; Arr [Int 300]]] /\
  class_Parse_buf
    (@QueryMxWrap cares_h linux_record_types sample_decoder) soa_answer 50
  = Done [[Int 0;
           Arr [Obj [(EnvStr "exchange_string", Str "mx.example.org");
                     (EnvStr "priority_string", Int 10)]]]] /\
  class_Parse_buf
    (@QueryMxWrap cares_h linux_record_types (absent_decoder 1 1 1))
    empty_answer 17
  = Done [[Str "ENODATA"]].
Proof.
  assert (Hnd : NoDup [@ns_t_a linux_h; @ns_t_aaaa linux_h; @ns_t_cname linux_h;
                       @ns_t_ns linux_h; @ns_t_ptr linux_h; ns_t_cname_or_a])
    by (apply (bool_decide_unpack _); vm_compute; reflexivity).
  destruct (@record_type_Parse_calls_once cares_h linux_h linux_record_types
              two_address_uv sample_decoder sample_soa_decoder
              soa_answer 50 Hnd)
    as (_ & HA & _ & _ & _ & _ & HMx & _).
  destruct (@record_type_Parse_calls_once cares_h linux_h linux_record_types
              two_address_uv (absent_decoder 1 1 1) sample_soa_decoder
              empty_answer 17 Hnd)
    as (_ & _ & _ & _ & _ & _ & HMx' & _).
  split; [|split].
  - rewrite HA; [reflexivity|]. intros _. vm_compute. split; discriminate.
  - rewrite HMx. reflexivity.
  - rewrite HMx'. reflexivity.
Defined.

(** [SetLocalAddress_calls] where [uv_inet_pton] knows two IPv4
    addresses. *)
Lemma SetLocalAddress_calls_witness :
  SetLocalAddress "127.0.0.1" None
  = [ares_set_local_ip4_call 2130706433;
     ares_set_local_ip6_call (replicate 16 0)] /\
  SetLocalAddress "127.0.0.1" (Some "8.8.8.8"%string)
  = [ares_set_local_ip4_call 2130706433;
     THROW_ERR_INVALID_ARG_VALUE "Cannot specify two IPv4 addresses."] /\
  SetLocalAddress "127.0.0.1" (Some "localhost"%string)
  = [ares_set_local_ip4_call 2130706433;
     THROW_ERR_INVALID_ARG_VALUE "Invalid IP address."] /\
  SetLocalAddress "localhost" (Some "127.0.0.1"%string)
  = [THROW_ERR_INVALID_ARG_VALUE "Invalid IP address."].
Proof.
  destruct (SetLocalAddress_calls "127.0.0.1" None) as (_ & Hnone & _).
  destruct (SetLocalAddress_calls "127.0.0.1" (Some "8.8.8.8"%string))
    as (_ & Htwo & _).
  destruct (SetLocalAddress_calls "127.0.0.1" (Some "localhost"%string))
    as (_ & Hbad & _).
  destruct (SetLocalAddress_calls "localhost" (Some "127.0.0.1"%string))
    as (Hthrow & _).
  split; [exact (Hnone eq_refl)|].
  split; [exact (proj1 (Htwo eq_refl) eq_refl)|].
  split.
  - apply (proj2 (proj2 (Hbad eq_refl))).
    + vm_compute. discriminate.
    + vm_compute. intros [_ E]. discriminate E.
  - apply Hthrow.
    + vm_compute. discriminate.
    + vm_compute. intros [_ E]. discriminate E.
Defined.
